(** * Geo_Chat backend: the query-to-result pipeline of [backend/main.py]

    A shallow embedding of the height query parser, the height filter, the
    colour mapper, the property normaliser, the insights generator and the
    [/query] handler, followed by the properties established about them.

    Conventions of the embedding:
    - a Python [float] is an IEEE-754 binary64 value, represented by
      [spec_float] with the operations of the standard library's
      [SpecFloat] (precision 53, maximal exponent 1024, round to nearest
      even);
    - a Python [str] is a sequence of code points below 256 (a Rocq
      [string]); the character classes of the [re] module are the Unicode
      ones restricted to that range;
    - a Python exception is a value [Raise e] of the result type [pyres];
    - functions of pandas, numpy, geopandas and of the Python runtime that
      the pipeline only calls (number formatting, geometry, string to
      number coercion of a column) are parameters of the development. *)

From Stdlib Require Import ZArith QArith Qpower List String Ascii Bool Lia Arith.
From Stdlib Require Import Floats.SpecFloat.
Import ListNotations.

Local Open Scope Z_scope.

(** ** Exceptions *)

Inductive exn : Type :=
| ValueError
| OverflowError
| ZeroDivisionError
| KeyError
| HTTPException (status : Z).

Inductive pyres (A : Type) : Type :=
| Ok (a : A)
| Raise (e : exn).

Arguments Ok {A} a.
Arguments Raise {A} e.

Definition bind {A B : Type} (m : pyres A) (f : A -> pyres B) : pyres B :=
  match m with
  | Ok a => f a
  | Raise e => Raise e
  end.

Notation "x <- m ;; k" := (bind m (fun x => k))
  (at level 61, m at next level, right associativity).

Fixpoint mapM {A B : Type} (f : A -> pyres B) (l : list A) : pyres (list B) :=
  match l with
  | [] => Ok []
  | a :: l' => b <- f a ;; bs <- mapM f l' ;; Ok (b :: bs)
  end.

(** ** Binary64 floats *)

Module Float.

Definition prec : Z := 53.
Definition emax : Z := 1024.

Definition float : Type := spec_float.

Definition nan : float := S754_nan.
Definition inf : float := S754_infinity false.

(** [float(n)] for a Python [int] that fits: correctly rounded. *)
Definition of_Z (n : Z) : float := binary_normalize prec emax n 0 false.

Definition zero : float := S754_zero false.
Definition one : float := of_Z 1.

Definition add (x y : float) : float := SFadd prec emax x y.
Definition sub (x y : float) : float := SFsub prec emax x y.
Definition mul (x y : float) : float := SFmul prec emax x y.

Definition is_zero (x : float) : bool :=
  match x with S754_zero _ => true | _ => false end.

Definition is_nan (x : float) : bool :=
  match x with S754_nan => true | _ => false end.

Definition is_finite (x : float) : bool :=
  match x with S754_zero _ | S754_finite _ _ _ => true | _ => false end.

(** Python's [x / y] on floats raises on a zero divisor. *)
Definition div (x y : float) : pyres float :=
  if is_zero y then Raise ZeroDivisionError else Ok (SFdiv prec emax x y).

Definition eqb (x y : float) : bool := SFeqb x y.
Definition ltb (x y : float) : bool := SFltb x y.
Definition leb (x y : float) : bool := SFleb x y.
Definition gtb (x y : float) : bool := SFltb y x.
Definition geb (x y : float) : bool := SFleb y x.

(** The builtins [min(a, b)] and [max(a, b)]: the first argument is kept
    unless the second compares strictly below (above) it. *)
Definition py_min (a b : float) : float := if ltb b a then b else a.
Definition py_max (a b : float) : float := if gtb b a then b else a.

(** [int(x)]: truncation towards zero. *)
Definition to_int (x : float) : pyres Z :=
  match x with
  | S754_nan => Raise ValueError
  | S754_infinity _ => Raise OverflowError
  | S754_zero _ => Ok 0
  | S754_finite s m e =>
      Ok (cond_Zopp s (if 0 <=? e then Zpos m * 2 ^ e else Zpos m / 2 ^ (- e)))
  end.

(** [round(x)]: the nearest integer, halves to the even one. *)
Definition round (x : float) : pyres Z :=
  match x with
  | S754_nan => Raise ValueError
  | S754_infinity _ => Raise OverflowError
  | S754_zero _ => Ok 0
  | S754_finite s m e =>
      Ok (cond_Zopp s
            (if 0 <=? e then Zpos m * 2 ^ e
             else let q := Zpos m / 2 ^ (- e) in
                  match 2 * (Zpos m mod 2 ^ (- e)) ?= 2 ^ (- e) with
                  | Lt => q
                  | Gt => q + 1
                  | Eq => if Z.even q then q else q + 1
                  end))
  end.

(** The float nearest to the decimal [n / 10^k], for [0 <= n]: what
    [float] returns on the literal whose digits spell [n] with [k] of
    them after the point. *)
Definition of_decimal (n : Z) (k : Z) : float :=
  match n with
  | Zpos _ =>
      let '(q, e, l) := SFdiv_core_binary prec emax n 0 (10 ^ k) 0 in
      binary_round_aux prec emax false q e l
  | _ => S754_zero false
  end.

(** Well-formed binary64 values: canonical mantissa and exponent. *)
Definition valid (x : float) : bool := valid_binary prec emax x.

(** The real number a finite float stands for, as a rational. *)
Definition to_Q (x : float) : option Q :=
  match x with
  | S754_zero _ => Some 0%Q
  | S754_finite s m e => Some (inject_Z (cond_Zopp s (Zpos m)) * Qpower 2 e)%Q
  | _ => None
  end.

(** [is_real x v]: the float [x] is finite and stands for the real [v]. *)
Definition is_real (x : float) (v : Q) : Prop :=
  match to_Q x with
  | Some q => (q == v)%Q
  | None => False
  end.

End Float.

(** ** Colour mapper: [height_to_color] *)

Local Open Scope string_scope.
Local Open Scope list_scope.
Local Open Scope Z_scope.

Definition SENTINEL : string := "#1f78b4".

Definition hex_digit (n : Z) : ascii :=
  match n with
  | 0 => "0" | 1 => "1" | 2 => "2" | 3 => "3" | 4 => "4" | 5 => "5"
  | 6 => "6" | 7 => "7" | 8 => "8" | 9 => "9" | 10 => "a" | 11 => "b"
  | 12 => "c" | 13 => "d" | 14 => "e" | _ => "f"
  end%char.

Fixpoint hex_loop (fuel : nat) (n : Z) (acc : string) : string :=
  match fuel with
  | O => acc
  | S fuel' =>
      let acc' := String (hex_digit (n mod 16)) acc in
      if n / 16 =? 0 then acc' else hex_loop fuel' (n / 16) acc'
  end.

(** Lowercase hexadecimal digits of [0 <= n], no prefix. *)
Definition hex (n : Z) : string := hex_loop (S (Z.to_nat (Z.log2 n))) n "".

(** The format specification [02x]: sign, then digits zero-padded so that
    the whole field has at least two characters. *)
Definition format_02x (n : Z) : string :=
  if n <? 0 then ("-" ++ hex (- n))%string
  else if n <? 16 then ("0" ++ hex n)%string
  else hex n.

Definition height_to_color (height low_h high_h : Float.float) : pyres string :=
  if Float.is_nan height then Ok SENTINEL
  else if Float.eqb high_h low_h then Ok SENTINEL
  else
    ratio <- Float.div (Float.sub height low_h) (Float.sub high_h low_h) ;;
    let ratio := Float.py_max Float.zero (Float.py_min Float.one ratio) in
    r <- Float.to_int (Float.mul (Float.of_Z 255) ratio) ;;
    g <- Float.to_int (Float.mul (Float.of_Z 255) (Float.sub (Float.of_Z 1) ratio)) ;;
    let b := 0%Z in
    Ok ("#" ++ format_02x r ++ format_02x g ++ format_02x b)%string.

(** ** Characters and strings *)

Definition code (c : ascii) : N := N_of_ascii c.

Definition in_range (lo hi : N) (c : ascii) : bool :=
  ((lo <=? code c) && (code c <=? hi))%N.

(** [\d]: the decimal digits (category Nd); below 256 these are [0-9]. *)
Definition is_digit (c : ascii) : bool := in_range 48 57 c.

(** [\s] and [str.isspace]: TAB..CR, FS..US, SPACE, NEL and NBSP. *)
Definition is_space (c : ascii) : bool :=
  in_range 9 13 c || in_range 28 32 c || (code c =? 133)%N || (code c =? 160)%N.

(** [\w]: alphanumeric code points and the underscore. *)
Definition is_word (c : ascii) : bool :=
  in_range 48 57 c || in_range 65 90 c || (code c =? 95)%N || in_range 97 122 c
  || (code c =? 170)%N || in_range 178 179 c || (code c =? 181)%N
  || in_range 185 186 c || in_range 188 190 c
  || in_range 192 214 c || in_range 216 246 c || in_range 248 255 c.

(** [str.lower] on one code point. *)
Definition lower_char (c : ascii) : ascii :=
  if in_range 65 90 c || in_range 192 214 c || in_range 216 222 c
  then ascii_of_N (code c + 32)
  else c.

Definition lower (s : list ascii) : list ascii := map lower_char s.

Fixpoint lstrip (s : list ascii) : list ascii :=
  match s with
  | c :: s' => if is_space c then lstrip s' else s
  | [] => []
  end.

Definition strip (s : list ascii) : list ascii :=
  rev (lstrip (rev (lstrip s))).

Definition chars (s : string) : list ascii := list_ascii_of_string s.
Definition text (l : list ascii) : string := string_of_list_ascii l.

(** ** A backtracking matcher for the constructs [HEIGHT_REGEX] uses *)

Inductive cclass : Type :=
| CDigit      (* \d *)
| CNonDigit   (* [^\d] *)
| CSpace.     (* \s *)

Definition in_class (k : cclass) (c : ascii) : bool :=
  match k with
  | CDigit => is_digit c
  | CNonDigit => negb (is_digit c)
  | CSpace => is_space c
  end.

Inductive regex : Type :=
| RLit (c : ascii)                       (* a literal, under IGNORECASE *)
| RWordB                                 (* \b *)
| REmpty
| RSeq (r1 r2 : regex)
| RAlt (r1 r2 : regex)                   (* r1|r2, r1 tried first *)
| RRep (lazy : bool) (k : cclass) (lo : nat) (hi : option nat)
                                         (* k{lo,hi}, or k{lo,hi}? if lazy *)
| RGroup (name : string) (r : regex).    (* (?P<name>r) *)

(** The matcher's position: the character before the cursor, the index of
    the cursor, and the text of the groups closed so far. *)
Record mstate : Type := MState {
  st_prev : option ascii;
  st_pos : nat;
  st_groups : list (string * list ascii)
}.

Definition advance (c : ascii) (st : mstate) : mstate :=
  MState (Some c) (S (st_pos st)) (st_groups st).

Definition set_group (name : string) (txt : list ascii) (st : mstate) : mstate :=
  MState (st_prev st) (st_pos st) ((name, txt) :: st_groups st).

Fixpoint lookup {A : Type} (key : string) (l : list (string * A)) : option A :=
  match l with
  | [] => None
  | (k, v) :: l' => if String.eqb k key then Some v else lookup key l'
  end.

(** [m.group(name)]: the last text the group matched, if it took part. *)
Definition group (name : string) (st : mstate) : option (list ascii) :=
  lookup name (st_groups st).

Definition ci_eqb (p c : ascii) : bool :=
  Ascii.eqb (lower_char c) (lower_char p).

Definition opt_word (o : option ascii) : bool :=
  match o with Some c => is_word c | None => false end.

Definition at_boundary (st : mstate) (rest : list ascii) : bool :=
  negb (Bool.eqb (opt_word (st_prev st)) (opt_word (hd_error rest))).

Definition may_take (hi : option nat) : bool :=
  match hi with Some O => false | _ => true end.

Definition dec_bound (hi : option nat) : option nat :=
  match hi with Some n => Some (pred n) | None => None end.

Section Matcher.
Context {R : Type}.

Definition cont : Type := list ascii -> mstate -> option R.

(** Repetition of a character class between [lo] and [hi] times: greedy
    takes as many as it can and gives back one at a time, lazy takes as
    few as it can and adds one at a time. *)
Fixpoint rep_match (lazy : bool) (k : cclass) (lo : nat) (hi : option nat)
    (rest : list ascii) (st : mstate) (kont : cont) {struct rest} : option R :=
  let stop (_ : unit) := match lo with O => kont rest st | S _ => None end in
  let more (_ : unit) :=
    match rest with
    | c :: rest' =>
        if in_class k c && may_take hi
        then rep_match lazy k (pred lo) (dec_bound hi) rest' (advance c st) kont
        else None
    | [] => None
    end in
  if lazy
  then match stop tt with Some v => Some v | None => more tt end
  else match more tt with Some v => Some v | None => stop tt end.

Fixpoint re_match (r : regex) (rest : list ascii) (st : mstate)
    (kont : cont) {struct r} : option R :=
  match r with
  | RLit p =>
      match rest with
      | c :: rest' => if ci_eqb p c then kont rest' (advance c st) else None
      | [] => None
      end
  | RWordB => if at_boundary st rest then kont rest st else None
  | REmpty => kont rest st
  | RSeq r1 r2 => re_match r1 rest st (fun rest' st' => re_match r2 rest' st' kont)
  | RAlt r1 r2 =>
      match re_match r1 rest st kont with
      | Some v => Some v
      | None => re_match r2 rest st kont
      end
  | RRep lazy k lo hi => rep_match lazy k lo hi rest st kont
  | RGroup name r1 =>
      re_match r1 rest st (fun rest' st' =>
        kont rest' (set_group name (firstn (st_pos st' - st_pos st) rest) st'))
  end.
End Matcher.

(** [pattern.search(s)]: the first match at the leftmost position that has
    one. *)
Fixpoint search_from (r : regex) (rest : list ascii) (prev : option ascii)
    (pos : nat) : option mstate :=
  match re_match r rest (MState prev pos []) (fun _ st => Some st) with
  | Some st => Some st
  | None =>
      match rest with
      | c :: rest' => search_from r rest' (Some c) (S pos)
      | [] => None
      end
  end.

Definition search (r : regex) (s : string) : option mstate :=
  search_from r (chars s) None 0.

(** *** Building patterns *)

Fixpoint lits (l : list ascii) : regex :=
  match l with
  | [] => REmpty
  | [c] => RLit c
  | c :: l' => RSeq (RLit c) (lits l')
  end.

Definition word (s : string) : regex := lits (chars s).

Fixpoint alts (l : list regex) : regex :=
  match l with
  | [] => REmpty
  | [r] => r
  | r :: l' => RAlt r (alts l')
  end.

Fixpoint seqs (l : list regex) : regex :=
  match l with
  | [] => REmpty
  | [r] => r
  | r :: l' => RSeq r (seqs l')
  end.

Definition opt (r : regex) : regex := RAlt r REmpty.
Definition spaces1 : regex := RRep false CSpace 1 None.   (* \s+ *)
Definition spaces0 : regex := RRep false CSpace 0 None.   (* \s* *)
Definition digits1 : regex := RRep false CDigit 1 None.   (* \d+ *)

(** *** [HEIGHT_REGEX] (compiled with IGNORECASE and VERBOSE) *)

Definition ANCHOR : regex :=
  RGroup "anchor"
    (seqs [RWordB;
           alts [word "height"; word "tall"; word "taller"; word "above";
                 word "over"; word "greater"; word "less"; word "below";
                 word "under";
                 seqs [word "at"; spaces1; word "least"];
                 seqs [word "at"; spaces1; word "most"];
                 word "exactly"];
           RWordB]).

Definition GAP : regex := RRep true CNonDigit 0 (Some 12%nat).

Definition OP : regex :=
  opt (RGroup "op"
    (alts [word ">="; word "<="; word ">"; word "<"; word "="; word "==";
           seqs [word "greater"; spaces1; word "than"];
           seqs [word "less"; spaces1; word "than"];
           seqs [word "at"; spaces1; word "least"];
           seqs [word "at"; spaces1; word "most"];
           word "above"; word "below"; word "over"; word "under";
           word "exactly"])).

Definition VAL : regex :=
  RGroup "val" (RSeq digits1 (opt (RSeq (RLit ".") digits1))).

Definition UNIT : regex :=
  RSeq spaces0 (opt (RAlt (word "m") (RSeq (word "meter") (opt (word "s"))))).

Definition HEIGHT_REGEX : regex :=
  seqs [ANCHOR; GAP; OP; spaces0; VAL; UNIT].

(** ** Query parser: [parse_height_filter] *)

Definition digit_value (c : ascii) : Z := Z.of_N (code c) - 48.

Definition digits_value (l : list ascii) : Z :=
  fold_left (fun n c => 10 * n + digit_value c) l 0.

Definition all_digits (l : list ascii) : bool :=
  match l with [] => false | _ => forallb is_digit l end.

Fixpoint split_dot (l : list ascii) : list ascii * option (list ascii) :=
  match l with
  | [] => ([], None)
  | c :: l' =>
      if Ascii.eqb c "." then ([], Some l')
      else let '(a, b) := split_dot l' in (c :: a, b)
  end.

(** [float(s)] for [s] an unsigned decimal literal, [\d+] or [\d+\.\d+]:
    the only texts the [val] group can hold.  Python's [float] accepts
    more spellings (signs, exponents, [inf], [nan]); they never reach this
    call and the model reports them as a [ValueError]. *)
Definition float_of_literal (s : list ascii) : pyres Float.float :=
  match split_dot s with
  | (ip, None) =>
      if all_digits ip then Ok (Float.of_decimal (digits_value ip) 0)
      else Raise ValueError
  | (ip, Some fp) =>
      if all_digits ip && all_digits fp
      then Ok (Float.of_decimal (digits_value (ip ++ fp)%list) (Z.of_nat (List.length fp)))
      else Raise ValueError
  end.

Record HeightFilter : Type := mkFilter {
  op : string;
  val : Float.float
}.

Definition textual_map : list (string * string) :=
  [(">", ">"); (">=", ">="); ("<", "<"); ("<=", "<="); ("=", "==");
   ("==", "=="); ("greater than", ">"); ("greater", ">"); ("above", ">");
   ("over", ">"); ("at least", ">="); ("less than", "<"); ("less", "<");
   ("below", "<"); ("under", "<"); ("at most", "<="); ("exactly", "==")].

(** [d.get(key, default)] *)
Definition get (d : list (string * string)) (key default : string) : string :=
  match lookup key d with Some v => v | None => default end.

Definition member (x : string) (l : list string) : bool :=
  existsb (String.eqb x) l.

Definition or_empty (o : option (list ascii)) : list ascii :=
  match o with Some l => l | None => [] end.

Definition parse_height_filter (query : string) : pyres (option HeightFilter) :=
  if String.eqb query "" then Ok None
  else
    match search HEIGHT_REGEX query with
    | None => Ok None
    | Some m =>
        let raw_op := text (lower (strip (or_empty (group "op" m)))) in
        val <- float_of_literal (or_empty (group "val" m)) ;;
        let op :=
          if String.eqb raw_op "" then
            let anchor := text (lower (or_empty (group "anchor" m))) in
            if member anchor ["tall"; "taller"; "height"; "greater"; "above"; "over"]
            then ">"
            else if member anchor ["less"; "below"; "under"]
            then "<"
            else "=="
          else get textual_map raw_op "=="
        in
        Ok (Some (mkFilter op val))
    end.

(** ** Attribute values *)

(** The scalar kinds a cell of the frame can hold. *)
Inductive scalar : Type :=
| SNone                              (* None *)
| SBool (b : bool)                   (* bool *)
| SInt (n : Z)                       (* int *)
| SFloat (x : Float.float)           (* float *)
| SStr (s : string)                  (* str *)
| SNpInt (n : Z)                     (* numpy.integer *)
| SNpFloat (x : Float.float)         (* numpy.floating *)
| SNpBool (b : bool)                 (* numpy.bool_ *)
| STimestamp (iso : string)          (* pandas.Timestamp, by its isoformat() *)
| SNaT.                              (* pandas.NaT *)

Inductive pyval : Type :=
| VScalar (x : scalar)
| VList (l : list scalar)                (* a list of scalars *)
| VDict (d : list (string * scalar)).    (* a dict of scalars *)

(** *** [pandas.isna] *)

Definition checknull (x : scalar) : bool :=
  match x with
  | SNone | SNaT => true
  | SFloat f | SNpFloat f => Float.is_nan f
  | _ => false
  end.

(** A scalar gives a bool, a list gives the array of its elements'
    answers, any other object gives [False]. *)
Inductive isna_result : Type :=
| IsnaBool (b : bool)
| IsnaArray (bs : list bool).

Definition isna (v : pyval) : isna_result :=
  match v with
  | VScalar x => IsnaBool (checknull x)
  | VList l => IsnaArray (map checknull l)
  | VDict _ => IsnaBool false
  end.

Definition notnull (x : Float.float) : bool := negb (Float.is_nan x).

Definition dropna (l : list Float.float) : list Float.float := filter notnull l.

(** [Series.min()] and [Series.max()] of floats without NaN; NaN on an
    empty series. *)
Definition series_min (l : list Float.float) : Float.float :=
  match l with
  | [] => Float.nan
  | x :: l' => fold_left (fun a y => if Float.ltb y a then y else a) l' x
  end.

Definition series_max (l : list Float.float) : Float.float :=
  match l with
  | [] => Float.nan
  | x :: l' => fold_left (fun a y => if Float.ltb a y then y else a) l' x
  end.

(** The colour [add_colour_column] gives a row of numeric height [h] when
    the range of the frame is [lo]..[hi]. *)
Definition colour_in_range (lo hi h : Float.float) : pyres string :=
  if notnull h then height_to_color h lo hi else Ok SENTINEL.

(** ** Number formatting *)

Definition dec_digit (n : Z) : ascii := ascii_of_N (Z.to_N (48 + n mod 10)).

Fixpoint dec_loop (fuel : nat) (n : Z) (acc : list ascii) : list ascii :=
  match fuel with
  | O => acc
  | S fuel' =>
      let acc' := dec_digit n :: acc in
      if n / 10 =? 0 then acc' else dec_loop fuel' (n / 10) acc'
  end.

(** Decimal digits of [0 <= n]. *)
Definition decimal (n : Z) : list ascii := dec_loop (S (Z.to_nat (Z.log2 n))) n [].

(** Commas between groups of three digits, counted from the right. *)
Fixpoint group3 (rev_digits : list ascii) (i : nat) : list ascii :=
  match rev_digits with
  | [] => []
  | c :: l' =>
      match i with
      | 3%nat => ","%char :: c :: group3 l' 1
      | _ => c :: group3 l' (S i)
      end
  end.

(** The format specification [,] on a non-negative [int]. *)
Definition format_thousands (n : Z) : string :=
  text (rev (group3 (rev (decimal n)) 0)).

(** The format specification [.1f] on a float: one digit after the point,
    the exact binary value rounded half to even. *)
Definition round_half_even (num den : Z) : Z :=
  let q := num / den in
  let r := num mod den in
  match 2 * r ?= den with
  | Lt => q
  | Gt => q + 1
  | Eq => if Z.even q then q else q + 1
  end.

Definition format_1f (x : Float.float) : string :=
  let sign (s : bool) := if s then "-" else "" in
  let tenths (s : bool) (t : Z) :=
    (sign s ++ text (decimal (t / 10)) ++ "." ++ text (decimal (t mod 10)))%string in
  match x with
  | S754_nan => "nan"
  | S754_infinity s => (sign s ++ "inf")%string
  | S754_zero s => tenths s 0
  | S754_finite s m e =>
      tenths s (if 0 <=? e then 10 * Zpos m * 2 ^ e
                else round_half_even (10 * Zpos m) (2 ^ (- e)))
  end.

(** ** The pipeline over a frame of buildings *)

Definition set_attr (name : string) (v : pyval)
    (attrs : list (string * pyval)) : list (string * pyval) :=
  (fix go (l : list (string * pyval)) : list (string * pyval) :=
     match l with
     | [] => [(name, v)]
     | (k, w) :: l' => if String.eqb k name then (k, v) :: l' else (k, w) :: go l'
     end) attrs.

Section Pipeline.

(** Geometry objects, their GeoJSON mapping ([__geo_interface__], which
    may raise) and [GeoDataFrame.total_bounds]. *)
Variable geom : Type.
Variable geojson : Type.
Variable geo_interface : geom -> pyres geojson.
Variable total_bounds : list (option geom) -> list Float.float.

(** What [pandas.to_numeric] makes of a string cell (NaN when it is not
    a number), the truth value numpy gives an empty array (an error in
    recent versions, [False] with a warning before), [repr] of a float
    and [Series.mean]. *)
Variable str_to_numeric : string -> Float.float.
Variable empty_array_truth : pyres bool.
Variable float_repr : Float.float -> string.
Variable series_mean : list Float.float -> Float.float.

(** A row of the frame: its geometry and its cells by column label, in
    column order.  A frame is the list of its rows. *)
Record Row : Type := mkRow {
  geometry : option geom;
  attrs : list (string * pyval)
}.

Definition GeoDataFrame : Type := list Row.

(** [gdf[name]]: the column, or [KeyError]. *)
Definition column (name : string) (gdf : GeoDataFrame) : pyres (list pyval) :=
  mapM (fun r => match lookup name (attrs r) with
                 | Some v => Ok v
                 | None => Raise KeyError
                 end) gdf.

(** [gdf[name] = values] *)
Definition set_column (name : string) (values : list pyval)
    (gdf : GeoDataFrame) : GeoDataFrame :=
  map (fun '(r, v) => mkRow (geometry r) (set_attr name v (attrs r)))
      (combine gdf values).

(** One cell under [pd.to_numeric(..., errors="coerce")]. *)
Definition to_numeric (v : pyval) : Float.float :=
  match v with
  | VScalar (SBool b) | VScalar (SNpBool b) => Float.of_Z (if b then 1 else 0)
  | VScalar (SInt n) | VScalar (SNpInt n) => Float.of_Z n
  | VScalar (SFloat x) | VScalar (SNpFloat x) => x
  | VScalar (SStr s) => str_to_numeric s
  | _ => Float.nan
  end.

Definition numeric_heights (gdf : GeoDataFrame) : pyres (list Float.float) :=
  hs <- column "height" gdf ;; Ok (map to_numeric hs).

(** *** Filter engine: [apply_height_filter] *)

Definition compare_op (op : string) (h v : Float.float) : bool :=
  if String.eqb op ">" then Float.gtb h v
  else if String.eqb op ">=" then Float.geb h v
  else if String.eqb op "<" then Float.ltb h v
  else if String.eqb op "<=" then Float.leb h v
  else Float.eqb h v.

Fixpoint select (gdf : GeoDataFrame) (mask : list bool) : GeoDataFrame :=
  match gdf, mask with
  | r :: gdf', b :: mask' => if b then r :: select gdf' mask' else select gdf' mask'
  | _, _ => []
  end.

Definition apply_height_filter (gdf : GeoDataFrame)
    (filt : option HeightFilter) : pyres GeoDataFrame :=
  match filt with
  | None => Ok gdf
  | Some f =>
      heights <- numeric_heights gdf ;;
      let mask := map (fun h => compare_op (op f) h (val f)) heights in
      Ok (select gdf mask)
  end.

(** *** [add_colour_column] *)

Definition add_colour_column (gdf : GeoDataFrame) : pyres GeoDataFrame :=
  hn <- numeric_heights gdf ;;
  let gdf := set_column "height_numeric" (map (fun h => VScalar (SNpFloat h)) hn) gdf in
  let heights := dropna hn in
  match heights with
  | [] =>
      Ok (set_column "color" (map (fun _ => VScalar (SStr SENTINEL)) hn) gdf)
  | _ =>
      let low := series_min heights in
      let high := series_max heights in
      colours <- mapM (fun h => if notnull h then height_to_color h low high
                                else Ok SENTINEL) hn ;;
      Ok (set_column "color" (map (fun c => VScalar (SStr c)) colours) gdf)
  end.

(** *** Property normaliser: [normalize_property] *)

(** The truth value of what [pd.isna] returned, as [if] takes it. *)
Definition truth (r : isna_result) : pyres bool :=
  match r with
  | IsnaBool b => Ok b
  | IsnaArray [] => empty_array_truth
  | IsnaArray [b] => Ok b
  | IsnaArray _ => Raise ValueError
  end.

Definition normalize_property (v : pyval) : pyres pyval :=
  match v with
  | VScalar SNone => Ok (VScalar SNone)
  | _ =>
      na <- truth (isna v) ;;
      if na then Ok (VScalar SNone)
      else
        match v with
        (* isinstance(v, (np.integer, numbers.Integral)): bool is an int *)
        | VScalar (SInt n) | VScalar (SNpInt n) => Ok (VScalar (SInt n))
        | VScalar (SBool b) => Ok (VScalar (SInt (if b then 1 else 0)))
        (* isinstance(v, (np.floating, numbers.Real)) *)
        | VScalar (SFloat x) | VScalar (SNpFloat x) => Ok (VScalar (SFloat x))
        (* isinstance(v, pd.Timestamp) *)
        | VScalar (STimestamp iso) => Ok (VScalar (SStr iso))
        (* isinstance(v, (np.bool_, bool)) *)
        | VScalar (SNpBool b) => Ok (VScalar (SBool b))
        | _ => Ok v
        end
  end.

(** *** Insights generator: [build_insights] *)

Definition op_text : list (string * string) :=
  [(">", "greater than"); (">=", "at least"); ("<", "less than");
   ("<=", "up to"); ("==", "exactly")].

Definition len (gdf : GeoDataFrame) : Z := Z.of_nat (List.length gdf).

Definition empty (gdf : GeoDataFrame) : bool :=
  match gdf with [] => true | _ => false end.

(** ["height" in filtered.columns] *)
Definition has_height (gdf : GeoDataFrame) : bool :=
  forallb (fun r => match lookup "height" (attrs r) with
                    | Some _ => true
                    | None => false
                    end) gdf.

Definition match_sentence (matched total : Z) : string :=
  (format_thousands matched ++ " of " ++ format_thousands total
     ++ " buildings match the query.")%string.

(** The dash of the third sentence is U+2013, written here as the bytes of
    its UTF-8 encoding. *)
Definition build_insights (filtered : GeoDataFrame)
    (filt : option HeightFilter) (total : Z) : pyres (list string) :=
  first <-
    match filt with
    | Some f =>
        match lookup (op f) op_text with
        | Some t =>
            Ok ("Showing buildings with height " ++ t ++ " "
                  ++ float_repr (val f) ++ " m.")%string
        | None => Raise KeyError
        end
    | None => Ok "Showing all buildings."
    end ;;
  let insights := [first; match_sentence (len filtered) total] in
  if negb (empty filtered) && has_height filtered then
    hn <- numeric_heights filtered ;;
    let h := dropna hn in
    match h with
    | [] => Ok insights
    | _ =>
        Ok (insights ++
            [("Height range in result: " ++ format_1f (series_min h)
                ++ " m – " ++ format_1f (series_max h) ++ " m (average "
                ++ format_1f (series_mean h) ++ " m)")%string])%list
    end
  else Ok insights.

(** *** The [/query] handler: [query_geo] *)

Record Feature : Type := mkFeature {
  ftype : string;
  properties : list (string * pyval);
  fgeometry : option geojson
}.

Record ColorLegend : Type := mkLegend {
  low : string;
  high : string
}.

Record GeoResponse : Type := mkResponse {
  features : list Feature;
  bounds : list Float.float;
  insights : list string;
  color_legend : ColorLegend
}.

(** [row.drop(labels=["geometry", "height_numeric"], errors="ignore")
    .to_dict()]: the geometry is held apart from the cells already. *)
Definition props_of (r : Row) : list (string * pyval) :=
  filter (fun '(k, _) => negb (String.eqb k "height_numeric")) (attrs r).

Definition serialize (r : Row) : pyres Feature :=
  normalized_props <-
    mapM (fun '(k, v) => w <- normalize_property v ;; Ok (k, w)) (props_of r) ;;
  let geom_json :=
    match geometry r with
    | Some g => match geo_interface g with
                | Ok j => Some j
                | Raise _ => None
                end
    | None => None
    end in
  Ok (mkFeature "Feature" normalized_props geom_json).

(** The default box; the response model declares floats. *)
Definition DEFAULT_BOUNDS : list Float.float :=
  [Float.of_Z 0; Float.of_Z 0; Float.of_Z 1; Float.of_Z 1].

Definition query_geo (BUILDINGS_GDF : option GeoDataFrame)
    (request_text : string) : pyres GeoResponse :=
  match BUILDINGS_GDF with
  | None => Raise (HTTPException 500)
  | Some buildings =>
      height_filt <- parse_height_filter request_text ;;
      filtered_gdf <- apply_height_filter buildings height_filt ;;
      coloured_gdf <- add_colour_column filtered_gdf ;;
      features <- mapM serialize coloured_gdf ;;
      let bounds :=
        if negb (empty coloured_gdf)
        then total_bounds (map geometry coloured_gdf)
        else DEFAULT_BOUNDS in
      insights <- build_insights coloured_gdf height_filt (len buildings) ;;
      legend <-
        (if negb (empty coloured_gdf) then
           hn <- numeric_heights coloured_gdf ;;
           let h := dropna hn in
           let low_h := series_min h in
           let high_h := series_max h in
           lo <- height_to_color low_h low_h high_h ;;
           hi <- height_to_color high_h low_h high_h ;;
           Ok (mkLegend lo hi)
         else Ok (mkLegend SENTINEL SENTINEL)) ;;
      Ok (mkResponse features bounds insights legend)
  end.

End Pipeline.

Arguments mkRow {geom}.
Arguments geometry {geom}.
Arguments attrs {geom}.
Arguments column {geom}.
Arguments set_column {geom}.
Arguments numeric_heights {geom}.
Arguments select {geom}.
Arguments apply_height_filter {geom}.
Arguments add_colour_column {geom}.
Arguments len {geom}.
Arguments empty {geom}.
Arguments has_height {geom}.
Arguments build_insights {geom}.
Arguments props_of {geom}.
Arguments mkFeature {geojson}.

(** The cell of a row in the column [height]. *)
Definition height_cell {geom : Type} (r : Row geom) : pyval :=
  match lookup "height" (attrs r) with
  | Some v => v
  | None => VScalar SNone
  end.

Arguments ftype {geojson}.
Arguments properties {geojson}.
Arguments fgeometry {geojson}.
Arguments mkResponse {geojson}.
Arguments features {geojson}.
Arguments bounds {geojson}.
Arguments insights {geojson}.
Arguments color_legend {geojson}.
Arguments serialize {geom geojson}.
Arguments query_geo {geom geojson}.

(** ** The colour mapper as the specification words it

    [colorFor] of the specification: the same clamped ratio, the red and
    green channels rounded to the nearest integer. *)

Definition clamp (x lo hi : Float.float) : Float.float :=
  Float.py_max lo (Float.py_min hi x).

Definition two_hex (n : Z) : string :=
  String (hex_digit (n / 16)) (String (hex_digit (n mod 16)) "").

Definition colorFor_spec (height low high : Float.float) : pyres string :=
  ratio <- Float.div (Float.sub height low) (Float.sub high low) ;;
  let ratio := clamp ratio Float.zero Float.one in
  r <- Float.round (Float.mul (Float.of_Z 255) ratio) ;;
  g <- Float.round (Float.mul (Float.of_Z 255) (Float.sub (Float.of_Z 1) ratio)) ;;
  Ok ("#" ++ two_hex r ++ two_hex g ++ two_hex 0)%string.

(** A query whose number is 1 followed by 309 zeros. *)
Definition HUGE_QUERY : string :=
  "height 1000000000000000000000000000000000000000000000000000000000000000000000000000000000000000000000000000000000000000000000000000000000000000000000000000000000000000000000000000000000000000000000000000000000000000000000000000000000000000000000000000000000000000000000000000000000000000000000000000000000000000000000".

(** ** What a match consumes and captures

    [lang r w gs]: the pattern [r] can consume the text [w] while closing
    the groups [gs] (latest first).  Word boundaries and the upper bound
    of a repetition are left out: the relation is an upper approximation
    of the matcher, used to read off what a successful match holds. *)

Inductive lang : regex -> list ascii -> list (string * list ascii) -> Prop :=
| lang_lit (p c : ascii) : ci_eqb p c = true -> lang (RLit p) [c] []
| lang_wordb : lang RWordB [] []
| lang_empty : lang REmpty [] []
| lang_seq (r1 r2 : regex) (w1 w2 : list ascii) (g1 g2 : list (string * list ascii)) :
    lang r1 w1 g1 -> lang r2 w2 g2 -> lang (RSeq r1 r2) (w1 ++ w2) (g2 ++ g1)
| lang_alt_l (r1 r2 : regex) (w : list ascii) (g : list (string * list ascii)) :
    lang r1 w g -> lang (RAlt r1 r2) w g
| lang_alt_r (r1 r2 : regex) (w : list ascii) (g : list (string * list ascii)) :
    lang r2 w g -> lang (RAlt r1 r2) w g
| lang_rep (lazy : bool) (k : cclass) (lo : nat) (hi : option nat) (w : list ascii) :
    Forall (fun c => in_class k c = true) w -> (lo <= List.length w)%nat ->
    lang (RRep lazy k lo hi) w []
| lang_group (name : string) (r : regex) (w : list ascii)
    (g : list (string * list ascii)) :
    lang r w g -> lang (RGroup name r) w ((name, w) :: g).

(** The matcher's position after consuming [w] and closing [gs]. *)
Definition after (w : list ascii) (gs : list (string * list ascii))
    (st : mstate) : mstate :=
  MState (match rev w with c :: _ => Some c | [] => st_prev st end)
         (st_pos st + List.length w)
         (gs ++ st_groups st).

(** The unsigned decimal literals, [\d+] and [\d+\.\d+]. *)
Definition literal (v : list ascii) : Prop :=
  exists ip, all_digits ip = true
             /\ (v = ip \/ exists fp, all_digits fp = true /\ v = ip ++ "."%char :: fp).

(** A float that is not NaN and has its sign bit clear. *)
Definition nonneg (x : Float.float) : bool :=
  match x with
  | S754_zero false | S754_infinity false | S754_finite false _ _ => true
  | _ => false
  end.

(** The names of the groups of a pattern. *)
Fixpoint names (r : regex) : list string :=
  match r with
  | RSeq r1 r2 | RAlt r1 r2 => names r1 ++ names r2
  | RGroup name r1 => name :: names r1
  | _ => []
  end.

(** [within B x]: the float [x] is [+0.0] or a positive finite float whose
    exact value does not exceed the integer [B]. *)
Definition within (B : Z) (x : Float.float) : Prop :=
  x = S754_zero false
  \/ exists p e, x = S754_finite false p e /\ e <= 0 /\ Zpos p <= B * 2 ^ (- e).

(** The comparison of real numbers an operator stands for; as in the
    filter, any other text is read as equality. *)
Definition real_holds (op : string) (h v : Q) : Prop :=
  if String.eqb op ">" then (v < h)%Q
  else if String.eqb op ">=" then (v <= h)%Q
  else if String.eqb op "<" then (h < v)%Q
  else if String.eqb op "<=" then (h <= v)%Q
  else (h == v)%Q.

(** A finite float as an integer multiple of [2^-1074], the least positive
    binary64 value. *)
Definition scaled (x : Float.float) : Z :=
  match x with
  | S754_finite s m e => cond_Zopp s (Zpos m * 2 ^ (e + 1074))
  | _ => 0
  end.

(** ** A small collection to run the pipeline on

    Four buildings, one of them without a height; geometry and the
    runtime parameters are trivial. *)

Definition demo_row (name : string) (height : scalar) : Row unit :=
  mkRow (Some tt)
    [("name", VScalar (SStr name)); ("height", VScalar height);
     ("listed", VScalar (SBool true))].

Definition demo_buildings : GeoDataFrame unit :=
  [demo_row "a" (SInt 10); demo_row "b" (SInt 50); demo_row "c" SNone;
   demo_row "d" (SInt 90)].

Definition demo_geo_interface (g : unit) : pyres unit := Ok g.

Definition demo_total_bounds (l : list (option unit)) : list Float.float :=
  DEFAULT_BOUNDS.

(** No string cell is a number. *)
Definition demo_str_to_numeric (s : string) : Float.float := Float.nan.

Definition demo_empty_array_truth : pyres bool := Raise ValueError.

(** On floats with at most one decimal, [repr] agrees with [.1f]. *)
Definition demo_repr (x : Float.float) : string := format_1f x.

(** The sum from left to right, divided by the count. *)
Definition demo_mean (l : list Float.float) : Float.float :=
  match Float.div (fold_left Float.add l Float.zero)
                  (Float.of_Z (Z.of_nat (List.length l))) with
  | Ok x => x
  | Raise _ => Float.nan
  end.

Definition demo_query (request_text : string) : pyres (GeoResponse unit) :=
  query_geo demo_geo_interface demo_total_bounds demo_str_to_numeric
    demo_empty_array_truth demo_repr demo_mean (Some demo_buildings)
    request_text.

Definition demo_response : GeoResponse unit :=
  Eval vm_compute in
    match demo_query "height > 40" with
    | Ok r => r
    | Raise _ => mkResponse [] [] [] (mkLegend "" "")
    end.

Definition colours_of (resp : pyres (GeoResponse unit)) : list (option pyval) :=
  match resp with
  | Ok r => map (fun f => lookup "color" (properties f)) (features r)
  | Raise _ => []
  end.

(** The five comparison symbols of a filter. *)
Definition OPERATORS : list string := [">"; ">="; "<"; "<="; "=="].

(** The state of the shift register after [n] steps on [m]: the quotient,
    and a remainder that, when the register started exact, is non-zero as
    soon as a round or sticky bit is set. *)
Definition shifted (exact : Prop) (m : Z) (n : nat) (mrs : shr_record) : Prop :=
  0 <= shr_m mrs
  /\ exists rem, 0 <= rem < 2 ^ Z.of_nat n
                 /\ m = shr_m mrs * 2 ^ Z.of_nat n + rem
                 /\ (exact -> orb (shr_r mrs) (shr_s mrs) = true -> 0 < rem).

(** ** Further notions used by the properties *)



(** The queries the endpoint [/examples] offers. *)
Definition EXAMPLES : list string :=
  ["show all buildings"; "taller than 30m"; "height > 80"; "height < 50";
   "height >= 100"; "buildings with height exactly 45 m"; "above 25 meters"].

(** The collection of the demonstration with its colour column. *)
Definition demo_coloured : GeoDataFrame unit :=
  Eval vm_compute in
    match add_colour_column demo_str_to_numeric demo_buildings with
    | Ok g => g
    | Raise _ => []
    end.




(** Every height of the frame, once coerced, is NaN or a canonical
    binary64 value. *)
Definition canonical_heights {geom : Type} (str_to_numeric : string -> Float.float)
    (gdf : GeoDataFrame geom) : bool :=
  forallb (fun r => Float.valid (to_numeric str_to_numeric (height_cell r))) gdf.

(** Some row of the frame has a numeric height. *)
Definition some_numeric_height {geom : Type}
    (str_to_numeric : string -> Float.float) (gdf : GeoDataFrame geom) : bool :=
  existsb (fun r => notnull (to_numeric str_to_numeric (height_cell r))) gdf.

(** The response of the demonstration to a query without a filter. *)
Definition demo_all_response : GeoResponse unit :=
  Eval vm_compute in
    match demo_query "show all buildings" with
    | Ok r => r
    | Raise _ => mkResponse [] [] [] (mkLegend "" "")
    end.

(** The place of a float that is not NaN on the line of integers: a
    finite float by its multiple of [2^-1074], the infinities beyond all
    of them. *)
Definition rank (x : Float.float) : Z :=
  match x with
  | S754_infinity s => cond_Zopp s (2 ^ 2098)
  | _ => scaled x
  end.

(** ** Phrasings of a height query *)

(** The pattern up to the number, and from the number on. *)
Definition BEFORE_VAL : regex := seqs [ANCHOR; GAP; OP; spaces0].
Definition FROM_VAL : regex := RSeq VAL UNIT.

(** A continuation that stops where a number may start and reports the
    position. *)
Definition probe (rest : list ascii) (st : mstate)
    : option (list ascii * mstate) :=
  match rest with
  | c :: _ => if is_digit c then Some (rest, st) else None
  | [] => None
  end.

(** The leftmost position from which the pattern reaches a number. *)
Fixpoint probe_search (rest : list ascii) (prev : option ascii) (pos : nat)
    : option (list ascii * mstate) :=
  match re_match BEFORE_VAL rest (MState prev pos []) probe with
  | Some x => Some x
  | None =>
      match rest with
      | c :: rest' => probe_search rest' (Some c) (S pos)
      | [] => None
      end
  end.

(** The operator [parse_height_filter] reads off the groups of a match. *)
Definition operator_of (gs : list (string * list ascii)) : string :=
  let raw_op := text (lower (strip (or_empty (lookup "op" gs)))) in
  if String.eqb raw_op "" then
    let anchor := text (lower (or_empty (lookup "anchor" gs))) in
    if member anchor ["tall"; "taller"; "height"; "greater"; "above"; "over"]
    then ">"
    else if member anchor ["less"; "below"; "under"]
    then "<"
    else "=="
  else get textual_map raw_op "==".

(** The text starts with a decimal digit. *)
Definition starts_digit (rest : list ascii) : bool :=
  match rest with
  | c :: _ => is_digit c
  | [] => false
  end.

(** What may follow the number: the end of the text, or a character that
    is neither a digit nor a dot. *)
Definition ends_number (rest : list ascii) : bool :=
  match rest with
  | [] => true
  | c :: _ => negb (is_digit c) && negb (Ascii.eqb c ".")
  end.

(** Ways to open a height query, each with the operator the parser gives
    it. *)
Definition PHRASINGS : list (string * string) :=
  [("height > ", ">"); ("height >= ", ">="); ("height < ", "<");
   ("height <= ", "<="); ("height = ", "=="); ("height == ", "==");
   ("height>", ">"); ("height>=", ">="); ("height<", "<"); ("height<=", "<=");
   ("height ", ">"); ("taller than ", ">"); ("above ", ">"); ("over ", ">");
   ("greater than ", ">"); ("below ", "<"); ("under ", "<");
   ("less than ", "<"); ("exactly ", "=="); ("at least ", "==");
   ("at most ", "=="); ("height at least ", ">="); ("height at most ", "<=");
   ("height greater than ", ">"); ("height less than ", "<");
   ("height exactly ", "=="); ("buildings taller than ", ">");
   ("buildings with height at most ", "<="); ("show buildings under ", "<")].

(** * Properties *)

(** ** The parser on the documented examples *)

Lemma parse_height_gt_30 :
  parse_height_filter "height > 30" = Ok (Some (mkFilter ">" (Float.of_Z 30))).
Proof. vm_compute. reflexivity. Qed.

Lemma parse_taller_than_30m :
  parse_height_filter "taller than 30m" = Ok (Some (mkFilter ">" (Float.of_Z 30))).
Proof. vm_compute. reflexivity. Qed.

Lemma parse_above_30 :
  parse_height_filter "above 30" = Ok (Some (mkFilter ">" (Float.of_Z 30))).
Proof. vm_compute. reflexivity. Qed.

Lemma parse_height_exactly_45_m :
  parse_height_filter "height exactly 45 m" = Ok (Some (mkFilter "==" (Float.of_Z 45))).
Proof. vm_compute. reflexivity. Qed.

Lemma parse_no_anchor :
  parse_height_filter "show all buildings" = Ok None.
Proof. vm_compute. reflexivity. Qed.

(** After another anchor the words "at most" are read by the operator
    group and mapped to [<=]. *)
Lemma parse_height_at_most_45 :
  parse_height_filter "height at most 45 meters"
  = Ok (Some (mkFilter "<=" (Float.of_Z 45))).
Proof. vm_compute. reflexivity. Qed.

(** C1. On the text "at most 45 meters" the words "at most" are consumed as
    the anchor, no operator is captured, and the anchor fallback has no
    case for them: the parser returns the operator [==] with the value
    45.0, not [<=]. *)
Theorem parse_at_most_45_meters :
  parse_height_filter "at most 45 meters"
  = Ok (Some (mkFilter "==" (Float.of_Z 45))).
Proof. vm_compute. reflexivity. Qed.

(** ** The colour mapper on the documented examples *)

(** C3. For the range 10..30 the colour of the low end is [#00ff00] (red 0,
    green 255, blue 0: pure green, not blue), the colour of the high end
    is pure red [#ff0000], and the midpoint 20 has red and green 127 and
    blue 0. *)
Theorem gradient_endpoints_10_30 :
  height_to_color (Float.of_Z 10) (Float.of_Z 10) (Float.of_Z 30) = Ok "#00ff00"
  /\ height_to_color (Float.of_Z 30) (Float.of_Z 10) (Float.of_Z 30) = Ok "#ff0000"
  /\ height_to_color (Float.of_Z 20) (Float.of_Z 10) (Float.of_Z 30) = Ok "#7f7f00".
Proof. repeat split; vm_compute; reflexivity. Qed.

(** C2, as stated, fails: for height 1 in the range 0..4 the ratio is 0.25
    and 255 * 0.25 = 63.75; the code truncates to 63 ([3f]) where the
    rounded channel would be 64 ([40]). *)
Lemma height_to_color_not_rounded :
  height_to_color (Float.of_Z 1) (Float.of_Z 0) (Float.of_Z 4) = Ok "#3fbf00"
  /\ colorFor_spec (Float.of_Z 1) (Float.of_Z 0) (Float.of_Z 4) = Ok "#40bf00"
  /\ height_to_color (Float.of_Z 1) (Float.of_Z 0) (Float.of_Z 4)
     <> colorFor_spec (Float.of_Z 1) (Float.of_Z 0) (Float.of_Z 4).
Proof. repeat split; vm_compute; try reflexivity; discriminate. Qed.

(** C5. A missing height (NaN) and a degenerate range ([high_h == low_h])
    both give the sentinel colour. *)
Theorem height_to_color_sentinel (height low_h high_h : Float.float) :
  Float.is_nan height = true \/ Float.eqb high_h low_h = true ->
  height_to_color height low_h high_h = Ok SENTINEL.
Proof.
  unfold height_to_color.
  intros [H | H].
  - rewrite H. reflexivity.
  - rewrite H. destruct (Float.is_nan height); reflexivity.
Qed.

Lemma height_to_color_sentinel_witness :
  height_to_color (Float.of_Z 12) (Float.of_Z 7) (Float.of_Z 7) = Ok SENTINEL.
Proof.
  apply (height_to_color_sentinel (Float.of_Z 12) (Float.of_Z 7) (Float.of_Z 7)).
  right. vm_compute. reflexivity.
Defined.

(** C10, as stated, fails on finiteness: a literal beyond the binary64
    range is converted to +infinity. *)
Lemma parse_threshold_overflow :
  parse_height_filter HUGE_QUERY = Ok (Some (mkFilter ">" Float.inf))
  /\ Float.is_finite Float.inf = false.
Proof. split; vm_compute; reflexivity. Qed.

(** ** The property normaliser *)

Section NormalizeProperty.
Variable empty_array_truth : pyres bool.

(** C8. A list of two scalars is an unrecognised kind, yet [pd.isna]
    answers with an array of two booleans whose truth value is
    ambiguous: the normaliser raises [ValueError] instead of passing the
    list through. *)
Theorem normalize_property_list_raises :
  normalize_property empty_array_truth (VList [SInt 1; SInt 2])
  = Raise ValueError.
Proof. reflexivity. Qed.

(** C9. A Python [bool] is an instance of [numbers.Integral], and that
    test comes first: [True] is normalised to the integer 1, not to a
    boolean.  A numpy [bool_] does reach the boolean branch. *)
Theorem normalize_property_bool_is_int :
  normalize_property empty_array_truth (VScalar (SBool true))
  = Ok (VScalar (SInt 1))
  /\ normalize_property empty_array_truth (VScalar (SBool false))
     = Ok (VScalar (SInt 0))
  /\ forall b, normalize_property empty_array_truth (VScalar (SNpBool b))
               = Ok (VScalar (SBool b)).
Proof. repeat split. Qed.

End NormalizeProperty.

(** ** The operator of a parsed filter *)

Lemma get_textual_map_operator (k : string) :
  In (get textual_map k "==") OPERATORS.
Proof.
  unfold get, textual_map, lookup, OPERATORS.
  repeat (match goal with
          | |- context [String.eqb ?a k] => destruct (String.eqb a k)
          end; [simpl; tauto | ]).
  simpl; tauto.
Qed.

Lemma parse_operator (query : string) (f : HeightFilter) :
  parse_height_filter query = Ok (Some f) -> In (op f) OPERATORS.
Proof.
  unfold parse_height_filter.
  destruct (String.eqb query ""); [discriminate | ].
  destruct (search HEIGHT_REGEX query) as [m | ]; [ | discriminate].
  destruct (float_of_literal _) as [v | e]; cbn [bind]; [ | discriminate].
  intros H; injection H as <-; cbv zeta; cbn [op].
  repeat match goal with |- In (if ?b then _ else _) _ => destruct b end;
    try apply get_textual_map_operator; simpl; tauto.
Qed.

Lemma operator_has_text (o : string) :
  In o OPERATORS -> exists t, lookup o op_text = Some t.
Proof.
  unfold OPERATORS; simpl.
  intros [<- | [<- | [<- | [<- | [<- | []]]]]]; eexists; reflexivity.
Qed.

(** ** Generic facts on the result monad and on labelled cells *)

Lemma bind_Ok {A B : Type} (m : pyres A) (f : A -> pyres B) (b : B) :
  bind m f = Ok b -> exists a, m = Ok a /\ f a = Ok b.
Proof. destruct m as [a | e]; simpl; [eauto | discriminate]. Qed.

Ltac bind_inv H :=
  let x := fresh "x" in
  let Hx := fresh "Hx" in
  apply bind_Ok in H; destruct H as (x & Hx & H).

Lemma mapM_Forall2 {A B : Type} (f : A -> pyres B) (l : list A) (l' : list B) :
  mapM f l = Ok l' -> Forall2 (fun a b => f a = Ok b) l l'.
Proof.
  revert l'; induction l as [ | a l IH]; simpl; intros l' H.
  - injection H as <-. constructor.
  - bind_inv H. bind_inv H. injection H as <-. constructor; auto.
Qed.

Lemma lookup_set_attr_same (name : string) (v : pyval) (l : list (string * pyval)) :
  lookup name (set_attr name v l) = Some v.
Proof.
  induction l as [ | [k w] l IH]; simpl.
  - rewrite String.eqb_refl. reflexivity.
  - destruct (String.eqb k name) eqn:E; simpl; rewrite E; auto.
Qed.

Lemma lookup_set_attr_other (name key : string) (v : pyval)
    (l : list (string * pyval)) :
  name <> key -> lookup key (set_attr name v l) = lookup key l.
Proof.
  intros Hne. induction l as [ | [k w] l IH]; simpl.
  - destruct (String.eqb name key) eqn:E; [ | reflexivity].
    apply String.eqb_eq in E. contradiction.
  - destruct (String.eqb k name) eqn:E; simpl.
    + apply String.eqb_eq in E. subst k.
      destruct (String.eqb name key) eqn:E'; [ | reflexivity].
      apply String.eqb_eq in E'. contradiction.
    + rewrite IH. reflexivity.
Qed.

(** ** The assembled response *)

Lemma match_sentence_zero (total : Z) :
  match_sentence 0 total
  = ("0 of " ++ format_thousands total ++ " buildings match the query.")%string.
Proof. reflexivity. Qed.

Lemma normalize_property_str (t : pyres bool) (s : string) :
  normalize_property t (VScalar (SStr s)) = Ok (VScalar (SStr s)).
Proof. reflexivity. Qed.

Section PipelineProperties.

Variable geom : Type.
Variable geojson : Type.
Variable geo_interface : geom -> pyres geojson.
Variable total_bounds : list (option geom) -> list Float.float.
Variable str_to_numeric : string -> Float.float.
Variable empty_array_truth : pyres bool.
Variable float_repr : Float.float -> string.
Variable series_mean : list Float.float -> Float.float.


Lemma column_length (name : string) (gdf : GeoDataFrame geom) (vs : list pyval) :
  column name gdf = Ok vs -> List.length vs = List.length gdf.
Proof.
  intros H. apply mapM_Forall2, Forall2_length in H. auto.
Qed.

Lemma numeric_heights_length (gdf : GeoDataFrame geom) (hn : list Float.float) :
  numeric_heights str_to_numeric gdf = Ok hn -> List.length hn = List.length gdf.
Proof.
  unfold numeric_heights. intros H. bind_inv H. injection H as <-.
  rewrite length_map. eapply column_length; eauto.
Qed.

Lemma column_set_column_other (name key : string) (vs : list pyval)
    (gdf : GeoDataFrame geom) :
  name <> key -> List.length vs = List.length gdf ->
  column key (set_column name vs gdf) = column key gdf.
Proof.
  intros Hne. revert vs.
  induction gdf as [ | r gdf IH]; intros [ | v vs] Hlen;
    try discriminate; [reflexivity | ].
  unfold column, set_column in *. simpl in *.
  rewrite lookup_set_attr_other by assumption.
  destruct (lookup key (attrs r)); [ | reflexivity].
  simpl. rewrite IH by lia. reflexivity.
Qed.

Lemma set_column_length (name : string) (vs : list pyval) (gdf : GeoDataFrame geom) :
  List.length vs = List.length gdf ->
  List.length (set_column name vs gdf) = List.length gdf.
Proof.
  intros H. unfold set_column. rewrite length_map, length_combine. lia.
Qed.

Lemma dropna_nil_all_nan (hn : list Float.float) :
  dropna hn = [] -> Forall (fun h => notnull h = false) hn.
Proof.
  induction hn as [ | h hn IH]; simpl; [constructor | ].
  destruct (notnull h) eqn:E; [discriminate | ]. auto.
Qed.

(** What [add_colour_column] returns: both columns set, with the colours
    of the rows computed in the range of the frame's own heights. *)
Lemma add_colour_column_inv (gdf coloured : GeoDataFrame geom) :
  add_colour_column str_to_numeric gdf = Ok coloured ->
  exists hn cs,
    numeric_heights str_to_numeric gdf = Ok hn
    /\ Forall2 (fun h c =>
                  colour_in_range (series_min (dropna hn))
                                  (series_max (dropna hn)) h = Ok c) hn cs
    /\ coloured
       = set_column "color" (map (fun c => VScalar (SStr c)) cs)
           (set_column "height_numeric"
              (map (fun h => VScalar (SNpFloat h)) hn) gdf).
Proof.
  unfold add_colour_column. intros H. bind_inv H. rename x into hn.
  exists hn.
  destruct (dropna hn) as [ | h0 hs] eqn:Hd.
  - exists (map (fun _ => SENTINEL) hn). split; [assumption | ]. split.
    + apply dropna_nil_all_nan in Hd. clear - Hd.
      induction Hd as [ | h l Hh Hl IH]; simpl; constructor; auto.
      unfold colour_in_range; rewrite Hh; reflexivity.
    + injection H as <-. rewrite map_map. reflexivity.
  - bind_inv H. rename x into cs. exists cs.
    split; [assumption | ]. split.
    + apply mapM_Forall2 in Hx0. exact Hx0.
    + injection H as <-. reflexivity.
Qed.

Lemma add_colour_column_heights (gdf coloured : GeoDataFrame geom) :
  add_colour_column str_to_numeric gdf = Ok coloured ->
  numeric_heights str_to_numeric coloured = numeric_heights str_to_numeric gdf.
Proof.
  intros H. apply add_colour_column_inv in H.
  destruct H as (hn & cs & Hh & Hc & ->).
  pose proof (numeric_heights_length _ _ Hh) as Hlen.
  pose proof (Forall2_length Hc) as Hlen'.
  unfold numeric_heights.
  rewrite !column_set_column_other; try discriminate; try reflexivity.
  - rewrite length_map. lia.
  - rewrite length_map, set_column_length; rewrite ?length_map; lia.
Qed.

Lemma serialize_colour (r : Row geom) (f : Feature geojson) (c : string)
    (w : pyval) :
  serialize geo_interface empty_array_truth
    (mkRow (geometry r)
       (set_attr "color" (VScalar (SStr c))
          (set_attr "height_numeric" w (attrs r)))) = Ok f ->
  lookup "color" (properties f) = Some (VScalar (SStr c)).
Proof.
  unfold serialize, props_of. cbn [attrs geometry].
  intros H. bind_inv H. cbv zeta in H.
  assert (Hf : properties f = x) by (inversion H; reflexivity).
  rewrite Hf. clear H Hf.
  pose proof (lookup_set_attr_same "color" (VScalar (SStr c))
                (set_attr "height_numeric" w (attrs r))) as Hl.
  revert x Hx Hl.
  generalize (set_attr "color" (VScalar (SStr c))
                (set_attr "height_numeric" w (attrs r))).
  induction l as [ | [k v] l IH]; intros x Hx Hl; [discriminate | ].
  cbn [lookup] in Hl. cbn [filter] in Hx.
  destruct (String.eqb k "color") eqn:Ek.
  - apply String.eqb_eq in Ek. subst k. injection Hl as ->.
    change (negb ("color" =? "height_numeric")%string) with true in Hx.
    cbn [mapM] in Hx. rewrite normalize_property_str in Hx. cbn [bind] in Hx.
    bind_inv Hx. injection Hx as <-. reflexivity.
  - destruct (String.eqb k "height_numeric"); cbn [negb] in Hx.
    + eapply IH; eauto.
    + cbn [mapM] in Hx.
      apply bind_Ok in Hx. destruct Hx as ([k' w'] & Hkw & Hx).
      apply bind_Ok in Hx. destruct Hx as (rest & Hrest & Hx).
      injection Hx as <-.
      apply bind_Ok in Hkw. destruct Hkw as (w'' & _ & Hkw).
      injection Hkw as <- <-.
      cbn [lookup]. rewrite Ek. eapply IH; eauto.
Qed.

Lemma serialize_colours (gdf : GeoDataFrame geom) :
  forall (hn : list Float.float) (cs : list string)
         (fs : list (Feature geojson)),
    List.length hn = List.length gdf ->
    List.length cs = List.length gdf ->
    mapM (serialize geo_interface empty_array_truth)
      (set_column "color" (map (fun c => VScalar (SStr c)) cs)
         (set_column "height_numeric"
            (map (fun h => VScalar (SNpFloat h)) hn) gdf)) = Ok fs ->
    Forall2 (fun f c => lookup "color" (properties f) = Some (VScalar (SStr c)))
            fs cs.
Proof.
  induction gdf as [ | r gdf IH]; intros [ | h hn] [ | c cs] fs Hh Hc H;
    try discriminate.
  - injection H as <-. constructor.
  - unfold set_column in H. simpl in H.
    bind_inv H. bind_inv H. injection H as <-.
    constructor.
    + eapply serialize_colour; eauto.
    + eapply IH with (hn := hn); eauto.
Qed.

(** C6. When the filtered subset is empty, the response has the default
    bounds 0, 0, 1, 1, both legend colours are the sentinel, and the
    insights are the filter sentence followed by "0 of N buildings match
    the query." with N the number of rows of the collection (grouped by
    thousands). *)
Theorem query_geo_empty_subset (buildings : GeoDataFrame geom)
    (request_text : string) (filt : option HeightFilter) :
  parse_height_filter request_text = Ok filt ->
  apply_height_filter str_to_numeric buildings filt = Ok [] ->
  exists first,
    query_geo geo_interface total_bounds str_to_numeric empty_array_truth
      float_repr series_mean (Some buildings) request_text
    = Ok (mkResponse []
            [Float.of_Z 0; Float.of_Z 0; Float.of_Z 1; Float.of_Z 1]
            [first;
             ("0 of " ++ format_thousands (len buildings)
                ++ " buildings match the query.")%string]
            (mkLegend SENTINEL SENTINEL)).
Proof.
  intros Hp Ha. unfold query_geo. rewrite Hp. cbn [bind]. rewrite Ha.
  cbn [bind]. change (add_colour_column str_to_numeric (@nil (Row geom)))
    with (@Ok (GeoDataFrame geom) []).
  cbn [bind mapM empty negb]. unfold build_insights.
  assert (Hfirst : exists first,
    match filt with
    | Some f =>
        match lookup (op f) op_text with
        | Some t =>
            Ok ("Showing buildings with height " ++ t ++ " "
                  ++ float_repr (val f) ++ " m.")%string
        | None => Raise KeyError
        end
    | None => Ok "Showing all buildings."
    end = Ok first).
  { destruct filt as [f | ]; [ | eauto].
    destruct (operator_has_text (op f) (parse_operator _ _ Hp)) as [t ->].
    eauto. }
  destruct Hfirst as [first ->]. exists first.
  cbn [bind empty negb andb len List.length Z.of_nat].
  rewrite match_sentence_zero. reflexivity.
Qed.

(** C7. In every response, the colour of each feature is computed from
    that row's height and the minimum and maximum of the numeric heights
    of the filtered subset (missing heights dropped), and the legend
    holds the colours of that minimum and that maximum in the same
    range; the collection enters only through the subset. *)
Theorem query_geo_colours_from_subset (buildings : GeoDataFrame geom)
    (request_text : string) (resp : GeoResponse geojson) :
  query_geo geo_interface total_bounds str_to_numeric empty_array_truth
    float_repr series_mean (Some buildings) request_text = Ok resp ->
  exists filt subset hn,
    parse_height_filter request_text = Ok filt
    /\ apply_height_filter str_to_numeric buildings filt = Ok subset
    /\ numeric_heights str_to_numeric subset = Ok hn
    /\ let lo := series_min (dropna hn) in
       let hi := series_max (dropna hn) in
       Forall2 (fun f h =>
                  exists c, lookup "color" (properties f) = Some (VScalar (SStr c))
                            /\ colour_in_range lo hi h = Ok c)
               (features resp) hn
       /\ match subset with
          | [] => color_legend resp = mkLegend SENTINEL SENTINEL
          | _ => height_to_color lo lo hi = Ok (low (color_legend resp))
                 /\ height_to_color hi lo hi = Ok (high (color_legend resp))
          end.
Proof.
  unfold query_geo. intros H.
  bind_inv H. rename x into filt, Hx into Hp.
  bind_inv H. rename x into subset, Hx into Ha.
  bind_inv H. rename x into coloured, Hx into Hc.
  bind_inv H. rename x into fs, Hx into Hs.
  bind_inv H. rename x into ins, Hx into Hi.
  bind_inv H. rename x into leg, Hx into Hl.
  injection H as <-. cbn [features color_legend].
  pose proof (add_colour_column_heights _ _ Hc) as Hheights.
  destruct (add_colour_column_inv _ _ Hc) as (hn & cs & Hh & Hcs & ->).
  exists filt, subset, hn. repeat (split; [assumption | ]).
  pose proof (numeric_heights_length _ _ Hh) as Hlen.
  pose proof (Forall2_length Hcs) as Hlen'.
  cbv zeta. split.
  - apply serialize_colours in Hs; [ | lia | lia].
    generalize dependent (series_max (dropna hn)).
    generalize dependent (series_min (dropna hn)).
    intros lo hi Hcs. clear - Hs Hcs. revert fs Hs.
    induction Hcs as [ | h c hn' cs' Hhc Hcs' IH]; intros fs Hs;
      inversion Hs; subst; constructor.
    + exists c. split; assumption.
    + apply IH. assumption.
  - rewrite Hheights, Hh in Hl.
    destruct subset as [ | r subset].
    + simpl in Hl. injection Hl as <-. reflexivity.
    + assert (E : empty
               (set_column "color" (map (fun c => VScalar (SStr c)) cs)
                  (set_column "height_numeric"
                     (map (fun h => VScalar (SNpFloat h)) hn) (r :: subset)))
               = false).
      { destruct hn; [discriminate | ]. destruct cs; [discriminate | ].
        reflexivity. }
      rewrite E in Hl. cbn [negb bind] in Hl.
      bind_inv Hl. bind_inv Hl. injection Hl as <-. cbn [low high]. auto.
Qed.

End PipelineProperties.

(** ** Soundness of the matcher *)

Lemma after_nil (st : mstate) : after [] [] st = st.
Proof.
  destruct st as [p n g]. unfold after. simpl. rewrite Nat.add_0_r. reflexivity.
Qed.

Lemma after_cons (c : ascii) (w : list ascii) (gs : list (string * list ascii))
    (st : mstate) :
  after w gs (advance c st) = after (c :: w) gs st.
Proof.
  unfold after, advance. simpl. f_equal.
  - destruct (rev w) as [ | d l] eqn:E; simpl; [reflexivity | ].
    reflexivity.
  - lia.
Qed.

Lemma after_after (w1 w2 : list ascii) (g1 g2 : list (string * list ascii))
    (st : mstate) :
  after w2 g2 (after w1 g1 st) = after (w1 ++ w2) (g2 ++ g1) st.
Proof.
  unfold after. simpl. f_equal.
  - rewrite rev_app_distr. destruct (rev w2); reflexivity.
  - rewrite length_app. lia.
  - rewrite app_assoc. reflexivity.
Qed.

Lemma rep_match_sound {R : Type} (lazy : bool) (k : cclass)
    (rest : list ascii) :
  forall (lo : nat) (hi : option nat) (st : mstate) (kont : @cont R) (res : R),
    rep_match lazy k lo hi rest st kont = Some res ->
    exists w rest',
      rest = w ++ rest'
      /\ Forall (fun c => in_class k c = true) w
      /\ (lo <= List.length w)%nat
      /\ kont rest' (after w [] st) = Some res.
Proof.
  induction rest as [ | c rest IH]; intros lo hi st kont res H.
  - exists [], []. simpl in H. rewrite after_nil.
    destruct lazy, lo; try discriminate; repeat split; auto;
      destruct (kont [] st); congruence.
  - assert (Hstop : forall v, match lo with O => kont (c :: rest) st | S _ => None end
                              = Some v ->
                    exists w rest',
                      c :: rest = w ++ rest'
                      /\ Forall (fun c => in_class k c = true) w
                      /\ (lo <= List.length w)%nat
                      /\ kont rest' (after w [] st) = Some v).
    { intros v Hv. destruct lo; [ | discriminate].
      exists [], (c :: rest). rewrite after_nil. repeat split; auto. }
    assert (Hmore : forall v,
               (if in_class k c && may_take hi
                then rep_match lazy k (pred lo) (dec_bound hi) rest (advance c st) kont
                else None) = Some v ->
               exists w rest',
                 c :: rest = w ++ rest'
                 /\ Forall (fun c => in_class k c = true) w
                 /\ (lo <= List.length w)%nat
                 /\ kont rest' (after w [] st) = Some v).
    { intros v Hv. destruct (in_class k c) eqn:Hc; [ | discriminate].
      destruct (may_take hi); [ | discriminate]. simpl in Hv.
      apply IH in Hv. destruct Hv as (w & rest' & -> & Hw & Hlo & Hk).
      exists (c :: w), rest'. rewrite <- after_cons.
      repeat split; auto. simpl. lia. }
    simpl in H. destruct lazy.
    + destruct (match lo with O => kont (c :: rest) st | S _ => None end) eqn:E.
      * apply Hstop. exact H.
      * apply Hmore. exact H.
    + destruct (if in_class k c && may_take hi
                then rep_match false k (pred lo) (dec_bound hi) rest (advance c st) kont
                else None) eqn:E.
      * apply Hmore. exact H.
      * apply Hstop. exact H.
Qed.

Theorem re_match_sound {R : Type} (r : regex) :
  forall (rest : list ascii) (st : mstate) (kont : @cont R) (res : R),
    re_match r rest st kont = Some res ->
    exists w rest' gs,
      rest = w ++ rest' /\ lang r w gs /\ kont rest' (after w gs st) = Some res.
Proof.
  induction r as [p | | | r1 IH1 r2 IH2 | r1 IH1 r2 IH2 | lazy k lo hi | name r IH];
    intros rest st kont res H; simpl in H.
  - destruct rest as [ | c rest]; [discriminate | ].
    destruct (ci_eqb p c) eqn:E; [ | discriminate].
    exists [c], rest, []. rewrite <- after_cons, after_nil.
    repeat split; auto. constructor. assumption.
  - destruct (at_boundary st rest); [ | discriminate].
    exists [], rest, []. rewrite after_nil. repeat split; auto. constructor.
  - exists [], rest, []. rewrite after_nil. repeat split; auto. constructor.
  - apply IH1 in H. destruct H as (w1 & rest1 & g1 & -> & L1 & H).
    apply IH2 in H. destruct H as (w2 & rest2 & g2 & -> & L2 & H).
    exists (w1 ++ w2), rest2, (g2 ++ g1). rewrite <- after_after.
    rewrite app_assoc. repeat split; auto. constructor; assumption.
  - destruct (re_match r1 rest st kont) eqn:E.
    + injection H as <-. apply IH1 in E.
      destruct E as (w & rest' & gs & -> & L & E).
      exists w, rest', gs. repeat split; auto. apply lang_alt_l. assumption.
    + apply IH2 in H. destruct H as (w & rest' & gs & -> & L & E').
      exists w, rest', gs. repeat split; auto. apply lang_alt_r. assumption.
  - apply rep_match_sound in H. destruct H as (w & rest' & -> & Hw & Hlo & H).
    exists w, rest', []. repeat split; auto. constructor; assumption.
  - apply IH in H. destruct H as (w & rest' & gs & -> & L & H).
    exists w, rest', ((name, w) :: gs). repeat split; auto.
    + constructor. assumption.
    + replace (st_pos (after w gs st) - st_pos st)%nat with (List.length w) in H
        by (unfold after; simpl; lia).
      rewrite firstn_app, Nat.sub_diag, firstn_all in H. simpl in H.
      rewrite app_nil_r in H. exact H.
Qed.

Lemma search_from_sound (r : regex) (rest : list ascii) :
  forall (prev : option ascii) (pos : nat) (m : mstate),
    search_from r rest prev pos = Some m ->
    exists w gs, lang r w gs /\ st_groups m = gs.
Proof.
  induction rest as [ | c rest IH]; intros prev pos m H; simpl in H.
  - destruct (re_match r [] _ _) eqn:E; [ | discriminate].
    injection H as ->. apply re_match_sound in E.
    destruct E as (w & rest' & gs & _ & L & E). injection E as <-.
    exists w, gs. split; [assumption | ]. simpl. apply app_nil_r.
  - destruct (re_match r (c :: rest) _ _) eqn:E.
    + injection H as ->. apply re_match_sound in E.
      destruct E as (w & rest' & gs & _ & L & E). injection E as <-.
      exists w, gs. split; [assumption | ]. simpl. apply app_nil_r.
    + eapply IH; eauto.
Qed.

Lemma lang_names (r : regex) (w : list ascii) (gs : list (string * list ascii)) :
  lang r w gs -> forall k v, In (k, v) gs -> In k (names r).
Proof.
  induction 1 as [ | | | r1 r2 w1 w2 g1 g2 _ IH1 _ IH2 | r1 r2 w g _ IH
                 | r1 r2 w g _ IH | | name r w g _ IH];
    intros key txt Hin; simpl in *; try contradiction.
  - apply in_app_or in Hin. apply in_or_app. destruct Hin; eauto.
  - apply in_or_app. eauto.
  - apply in_or_app. eauto.
  - destruct Hin as [Heq | Hin]; [left; congruence | right; eauto].
Qed.

Lemma lookup_app_fresh {A : Type} (k : string) (l1 l2 : list (string * A)) :
  (forall v, ~ In (k, v) l1) -> lookup k (l1 ++ l2) = lookup k l2.
Proof.
  induction l1 as [ | [k' v'] l1 IH]; intros Hf; simpl; [reflexivity | ].
  destruct (String.eqb k' k) eqn:E.
  - apply String.eqb_eq in E. subst k'. exfalso. apply (Hf v'). left. reflexivity.
  - apply IH. intros v Hin. apply (Hf v). right. assumption.
Qed.

Lemma lang_no_group (r : regex) (w : list ascii) (gs : list (string * list ascii)) :
  names r = [] -> lang r w gs -> gs = [].
Proof.
  intros Hn L. destruct gs as [ | [k v] gs]; [reflexivity | ].
  exfalso. pose proof (lang_names _ _ _ L k v (or_introl eq_refl)) as Hin.
  rewrite Hn in Hin. contradiction.
Qed.

Lemma ci_eqb_dot (c : ascii) : ci_eqb "." c = true -> c = "."%char.
Proof.
  destruct c as [[] [] [] [] [] [] [] []]; vm_compute; try discriminate; reflexivity.
Qed.

Lemma digit_not_dot (c : ascii) : is_digit c = true -> Ascii.eqb c "." = false.
Proof.
  destruct c as [[] [] [] [] [] [] [] []]; vm_compute; try discriminate; reflexivity.
Qed.

Lemma all_digits_intro (l : list ascii) :
  Forall (fun c => is_digit c = true) l -> (1 <= List.length l)%nat ->
  all_digits l = true.
Proof.
  intros H Hl. destruct l as [ | c l]; [simpl in Hl; lia | ].
  unfold all_digits. apply forallb_forall. apply Forall_forall. assumption.
Qed.

Lemma lang_val_literal (w : list ascii) (gs : list (string * list ascii)) :
  lang VAL w gs -> gs = [("val", w)] /\ literal w.
Proof.
  unfold VAL, digits1, opt. intros L.
  inversion L as [ | | | | | | | name r w' g Lb]; subst.
  inversion Lb as [ | | | r1 r2 w1 w2 g1 g2 L1 L2 | | | | ]; subst.
  inversion L1 as [ | | | | | | lz k lo hi w' Hd Hlen | ]; subst.
  pose proof (all_digits_intro _ Hd Hlen) as Hip.
  inversion L2 as [ | | | | r1 r2 w' g' La | r1 r2 w' g' Le | | ]; subst.
  - inversion La as [ | | | r1 r2 w3 w4 g3 g4 L3 L4 | | | | ]; subst.
    inversion L3 as [p c Hc | | | | | | | ]; subst.
    inversion L4 as [ | | | | | | lz k lo hi w' Hd' Hlen' | ]; subst.
    apply ci_eqb_dot in Hc. subst c. split; [reflexivity | ].
    exists w1. split; [assumption | ]. right.
    exists w4. split; [apply all_digits_intro; assumption | reflexivity].
  - inversion Le; subst. rewrite app_nil_r. split; [reflexivity | ].
    exists w1. split; [assumption | ]. left. reflexivity.
Qed.

Lemma lang_height_regex_val (w : list ascii) (gs : list (string * list ascii)) :
  lang HEIGHT_REGEX w gs -> exists v, lookup "val" gs = Some v /\ literal v.
Proof.
  unfold HEIGHT_REGEX, seqs. intros L.
  inversion L as [ | | | r1 r2 w1 w2 g1 g2 _ L2 | | | | ]; subst. clear L.
  inversion L2 as [ | | | r1 r2 w3 w4 g3 g4 _ L4 | | | | ]; subst. clear L2.
  inversion L4 as [ | | | r1 r2 w5 w6 g5 g6 _ L6 | | | | ]; subst. clear L4.
  inversion L6 as [ | | | r1 r2 w7 w8 g7 g8 _ L8 | | | | ]; subst. clear L6.
  inversion L8 as [ | | | r1 r2 w9 w10 g9 g10 Lv Lu | | | | ]; subst. clear L8.
  apply lang_val_literal in Lv. destruct Lv as [-> Hlit].
  apply lang_no_group in Lu; [ | reflexivity]. subst g10.
  exists w9. split; [reflexivity | assumption].
Qed.

Lemma search_height_regex_val (query : string) (m : mstate) :
  search HEIGHT_REGEX query = Some m ->
  exists v, group "val" m = Some v /\ literal v.
Proof.
  unfold search, group. intros H. apply search_from_sound in H.
  destruct H as (w & gs & L & ->). eapply lang_height_regex_val; eauto.
Qed.

(** ** Rounding to binary64 keeps the sign *)

Lemma iter_pos_invariant {A : Type} (f : A -> A) (P : A -> Prop) :
  (forall x, P x -> P (f x)) -> forall p x, P x -> P (iter_pos f p x).
Proof.
  intros Hf. induction p as [p IH | p IH | ]; intros x Hx; simpl; auto.
Qed.

Lemma shr_1_nonneg (mrs : shr_record) : 0 <= shr_m mrs -> 0 <= shr_m (shr_1 mrs).
Proof.
  destruct mrs as [m r s]. simpl.
  destruct m as [ | [p | p | ] | p]; simpl; lia.
Qed.

Lemma shr_nonneg (mrs : shr_record) (e n : Z) :
  0 <= shr_m mrs -> 0 <= shr_m (fst (shr mrs e n)).
Proof.
  intros H. unfold shr. destruct n as [ | p | p]; simpl; auto.
  apply iter_pos_invariant; auto using shr_1_nonneg.
Qed.

Lemma shr_record_of_loc_m (m : Z) (l : location) :
  shr_m (shr_record_of_loc m l) = m.
Proof. destruct l as [ | []]; reflexivity. Qed.

Lemma shr_fexp_nonneg (m e : Z) (l : location) :
  0 <= m -> 0 <= shr_m (fst (shr_fexp Float.prec Float.emax m e l)).
Proof.
  intros H. unfold shr_fexp. apply shr_nonneg.
  rewrite shr_record_of_loc_m. assumption.
Qed.

Lemma round_nearest_even_bounds (m : Z) (l : location) :
  m <= round_nearest_even m l <= m + 1.
Proof.
  unfold round_nearest_even. destruct l as [ | []]; try lia.
  destruct (Z.even m); lia.
Qed.

Lemma binary_round_aux_nonneg (m e : Z) (l : location) :
  0 <= m -> nonneg (binary_round_aux Float.prec Float.emax false m e l) = true.
Proof.
  intros H. unfold binary_round_aux.
  pose proof (shr_fexp_nonneg m e l H) as H1.
  destruct (shr_fexp Float.prec Float.emax m e l) as [mrs' e'].
  simpl in H1.
  pose proof (round_nearest_even_bounds (shr_m mrs') (loc_of_shr_record mrs')) as Hr.
  match goal with
  | |- context [shr_fexp _ _ ?m1 e' loc_Exact] =>
      pose proof (shr_fexp_nonneg m1 e' loc_Exact ltac:(lia)) as H2;
      destruct (shr_fexp Float.prec Float.emax m1 e' loc_Exact) as [mrs'' e'']
  end.
  simpl in H2. destruct (shr_m mrs'') as [ | p | p]; [reflexivity | | lia].
  destruct (e'' <=? Float.emax - Float.prec); reflexivity.
Qed.

Lemma of_decimal_nonneg (n k : Z) : nonneg (Float.of_decimal n k) = true.
Proof.
  unfold Float.of_decimal. destruct n as [ | p | p]; try reflexivity.
  unfold SFdiv_core_binary.
  match goal with
  | |- context [Z.div_eucl ?a ?b] => set (num := a); set (den := b)
  end.
  assert (Hnum : 0 <= num).
  { subst num. match goal with |- 0 <= match ?s with _ => _ end => destruct s end;
      try lia. apply Z.shiftl_nonneg. lia. }
  assert (Hden : 0 <= den) by (subst den; apply Z.pow_nonneg; lia).
  assert (Hq : 0 <= fst (Z.div_eucl num den)).
  { change (0 <= num / den). destruct (Z.eq_dec den 0) as [-> | Hne].
    - rewrite Z.div_0_r. lia.
    - apply Z.div_pos; lia. }
  destruct (Z.div_eucl num den) as [q r]. simpl in Hq.
  apply binary_round_aux_nonneg. assumption.
Qed.

Lemma split_dot_digits (ip : list ascii) :
  Forall (fun c => is_digit c = true) ip ->
  split_dot ip = (ip, None)
  /\ forall fp, split_dot (ip ++ "."%char :: fp) = (ip, Some fp).
Proof.
  induction 1 as [ | c ip Hc _ [IH1 IH2]]; simpl.
  - split; reflexivity.
  - rewrite (digit_not_dot c Hc), IH1. split; [reflexivity | ].
    intros fp. rewrite IH2. reflexivity.
Qed.

Lemma all_digits_Forall (l : list ascii) :
  all_digits l = true -> Forall (fun c => is_digit c = true) l.
Proof.
  unfold all_digits. destruct l as [ | c l]; [discriminate | ].
  intros H. apply Forall_forall. apply forallb_forall. assumption.
Qed.

Lemma float_of_literal_nonneg (v : list ascii) :
  literal v -> exists x, float_of_literal v = Ok x /\ nonneg x = true.
Proof.
  intros (ip & Hip & [-> | (fp & Hfp & ->)]); unfold float_of_literal;
    destruct (split_dot_digits ip (all_digits_Forall ip Hip)) as [H1 H2].
  - rewrite H1, Hip. eexists. split; [reflexivity | apply of_decimal_nonneg].
  - rewrite H2, Hip, Hfp. eexists. split; [reflexivity | apply of_decimal_nonneg].
Qed.

(** C10. The parser never raises; when it returns a filter, the operator
    is one of the five symbols and the threshold is a float with its sign
    bit clear that is not NaN: zero, a positive finite value, or
    +infinity when the literal lies beyond the binary64 range. *)
Theorem parse_height_filter_range (query : string) :
  exists r, parse_height_filter query = Ok r
            /\ match r with
               | None => True
               | Some f => In (op f) OPERATORS /\ nonneg (val f) = true
               end.
Proof.
  destruct (parse_height_filter query) as [[f | ] | e] eqn:E.
  - exists (Some f). split; [reflexivity | ]. split.
    + eapply parse_operator; eauto.
    + unfold parse_height_filter in E.
      destruct (String.eqb query ""); [discriminate | ].
      destruct (search HEIGHT_REGEX query) as [m | ] eqn:Es; [ | discriminate].
      destruct (search_height_regex_val _ _ Es) as (v & Hv & Hlit).
      destruct (float_of_literal_nonneg _ Hlit) as (x & Hx & Hnn).
      rewrite Hv in E. cbn [or_empty] in E. rewrite Hx in E. cbn [bind] in E.
      injection E as <-. exact Hnn.
  - exists None. split; [reflexivity | exact I].
  - exfalso. unfold parse_height_filter in E.
    destruct (String.eqb query ""); [discriminate | ].
    destruct (search HEIGHT_REGEX query) as [m | ] eqn:Es; [ | discriminate].
    destruct (search_height_regex_val _ _ Es) as (v & Hv & Hlit).
    destruct (float_of_literal_nonneg _ Hlit) as (x & Hx & Hnn).
    rewrite Hv in E. cbn [or_empty] in E. rewrite Hx in E. discriminate.
Qed.

(** ** Rounding to binary64: the shift and the rounding step *)

Lemma digits2_pos_spec (p : positive) :
  2 ^ (Zpos (digits2_pos p) - 1) <= Zpos p < 2 ^ Zpos (digits2_pos p).
Proof.
  induction p as [p IH | p IH | ]; simpl digits2_pos.
  - rewrite Pos2Z.inj_succ.
    replace (Z.succ (Zpos (digits2_pos p)) - 1) with (Z.succ (Zpos (digits2_pos p) - 1)) by lia.
    rewrite !Z.pow_succ_r by lia. lia.
  - rewrite Pos2Z.inj_succ.
    replace (Z.succ (Zpos (digits2_pos p)) - 1) with (Z.succ (Zpos (digits2_pos p) - 1)) by lia.
    rewrite !Z.pow_succ_r by lia. lia.
  - simpl. lia.
Qed.

Lemma Zdigits2_nonneg (m : Z) : 0 <= Zdigits2 m.
Proof. destruct m; simpl; lia. Qed.

Lemma Zdigits2_spec (m : Z) :
  0 < m -> 2 ^ (Zdigits2 m - 1) <= m < 2 ^ Zdigits2 m.
Proof.
  destruct m as [ | p | p]; try lia. intros _. apply digits2_pos_spec.
Qed.

(** A non-negative integer below [2^k] has at most [k] binary digits. *)
Lemma Zdigits2_le (m k : Z) : 0 <= m -> 0 <= k -> m < 2 ^ k -> Zdigits2 m <= k.
Proof.
  intros Hm Hk Hlt. destruct (Z.eq_dec m 0) as [-> | Hne]; [simpl; lia | ].
  destruct (Zdigits2_spec m ltac:(lia)) as [Hlo _].
  destruct (Z_le_gt_dec (Zdigits2 m) k) as [ | Hgt]; [assumption | exfalso].
  assert (2 ^ k <= 2 ^ (Zdigits2 m - 1)) by (apply Z.pow_le_mono_r; lia).
  lia.
Qed.

Lemma iter_pos_nat {A : Type} (f : A -> A) (p : positive) (x : A) :
  iter_pos f p x = Nat.iter (Pos.to_nat p) f x.
Proof.
  revert x. induction p as [p IH | p IH | ]; intros x; cbn [iter_pos].
  - rewrite !IH, <- Nat.iter_succ_r, <- Nat.iter_add.
    replace (Pos.to_nat p~1) with (Pos.to_nat p + S (Pos.to_nat p))%nat
      by (rewrite Pos2Nat.inj_xI; lia).
    reflexivity.
  - rewrite !IH, <- Nat.iter_add.
    replace (Pos.to_nat p~0) with (Pos.to_nat p + Pos.to_nat p)%nat
      by (rewrite Pos2Nat.inj_xO; lia).
    reflexivity.
  - reflexivity.
Qed.

Lemma shr_1_shifted (exact : Prop) (m : Z) (n : nat) (mrs : shr_record) :
  shifted exact m n mrs -> shifted exact m (S n) (shr_1 mrs).
Proof.
  intros (Hm & rem & Hrem & Heq & Hrs).
  unfold shifted. rewrite Nat2Z.inj_succ, Z.pow_succ_r by lia.
  assert (Hp : 0 < 2 ^ Z.of_nat n) by (apply Z.pow_pos_nonneg; lia).
  remember (2 ^ Z.of_nat n) as P eqn:EP. clear EP.
  destruct mrs as [q r s]. cbn [shr_m shr_r shr_s] in *.
  destruct q as [ | [p | p | ] | p]; cbn [shr_1 shr_m shr_r shr_s]; try lia.
  - split; [lia | ]. exists rem. repeat split; try lia.
    cbn [orb]. assumption.
  - split; [lia | ]. exists (P + rem). repeat split; try lia.
  - split; [lia | ]. exists rem. repeat split; try lia.
    cbn [orb]. assumption.
  - split; [lia | ]. exists (P + rem). repeat split; try lia.
Qed.

Lemma iter_shr_1_shifted (exact : Prop) (m : Z) (n : nat) (mrs : shr_record) :
  shifted exact m 0 mrs -> shifted exact m n (Nat.iter n shr_1 mrs).
Proof.
  intros H. induction n as [ | n IH]; [exact H | ].
  simpl. apply shr_1_shifted. exact IH.
Qed.

Lemma shr_record_of_loc_shifted (m : Z) (l : location) :
  0 <= m -> shifted (l = loc_Exact) m 0 (shr_record_of_loc m l).
Proof.
  intros Hm. unfold shifted. rewrite shr_record_of_loc_m.
  split; [assumption | ]. exists 0. simpl. repeat split; try lia.
  intros -> H. discriminate.
Qed.

Lemma loc_of_shr_record_inexact (mrs : shr_record) :
  loc_of_shr_record mrs <> loc_Exact -> orb (shr_r mrs) (shr_s mrs) = true.
Proof. destruct mrs as [m [] []]; simpl; congruence. Qed.

(** [shr] by [n] on a non-negative mantissa: the exponent grows by [n]
    when [n] is positive, the mantissa is divided by [2^n], and an
    inexact location after an exact start means a non-zero remainder. *)
Lemma shr_spec (m e n : Z) (l : location) :
  0 <= m ->
  exists mrs,
    shr (shr_record_of_loc m l) e n = (mrs, Z.max e (e + n))
    /\ shr_m mrs = m / 2 ^ Z.max 0 n
    /\ (l = loc_Exact -> loc_of_shr_record mrs <> loc_Exact ->
        m mod 2 ^ Z.max 0 n <> 0).
Proof.
  intros Hm. destruct n as [ | p | p].
  - exists (shr_record_of_loc m l). simpl.
    rewrite shr_record_of_loc_m, Z.div_1_r, Z.add_0_r, Z.max_id.
    repeat split. intros -> H. simpl in H. congruence.
  - unfold shr. rewrite iter_pos_nat.
    pose proof (iter_shr_1_shifted _ m (Pos.to_nat p) _
                  (shr_record_of_loc_shifted m l Hm)) as (H0 & rem & Hrem & Heq & Hex).
    rewrite positive_nat_Z in *.
    exists (Nat.iter (Pos.to_nat p) shr_1 (shr_record_of_loc m l)).
    replace (Z.max e (e + Zpos p)) with (e + Zpos p) by lia.
    replace (Z.max 0 (Zpos p)) with (Zpos p) by lia.
    assert (Hp : 0 < 2 ^ Zpos p) by (apply Z.pow_pos_nonneg; lia).
    repeat split.
    + apply Z.div_unique with rem; lia.
    + intros Hl Hloc. apply loc_of_shr_record_inexact in Hloc.
      specialize (Hex Hl Hloc).
      rewrite <- (Z.mod_unique m (2 ^ Zpos p)
                    (shr_m (Nat.iter (Pos.to_nat p) shr_1 (shr_record_of_loc m l)))
                    rem); lia.
  - exists (shr_record_of_loc m l). simpl.
    rewrite shr_record_of_loc_m, Z.div_1_r.
    replace (Z.max e (e + Zneg p)) with e by lia.
    repeat split. intros -> H. simpl in H. congruence.
Qed.

Lemma location_eq_dec (l : location) : {l = loc_Exact} + {l <> loc_Exact}.
Proof. destruct l; [left; reflexivity | right; discriminate]. Qed.

Lemma round_nearest_even_exact (m : Z) : round_nearest_even m loc_Exact = m.
Proof. reflexivity. Qed.

(** The two steps of [binary_round_aux] on a non-negative mantissa: shift
    to the exponent [e1] of the format and round to [m1], then shift once
    more to [e2] in case the rounding carried. *)
Lemma binary_round_aux_cases (s : bool) (m e : Z) (l : location) :
  0 <= m ->
  exists m1 m2,
    let e1 := Z.max e (fexp Float.prec Float.emax (Zdigits2 m + e)) in
    let e2 := Z.max e1 (fexp Float.prec Float.emax (Zdigits2 m1 + e1)) in
    m / 2 ^ (e1 - e) <= m1 <= m / 2 ^ (e1 - e) + 1
    /\ (l = loc_Exact -> m mod 2 ^ (e1 - e) = 0 -> m1 = m / 2 ^ (e1 - e))
    /\ m2 = m1 / 2 ^ (e2 - e1)
    /\ binary_round_aux Float.prec Float.emax s m e l
       = match m2 with
         | Z0 => S754_zero s
         | Zpos p =>
             if e2 <=? Float.emax - Float.prec then S754_finite s p e2
             else S754_infinity s
         | Zneg _ => S754_nan
         end.
Proof.
  intros Hm. unfold binary_round_aux, shr_fexp.
  set (f1 := fexp Float.prec Float.emax (Zdigits2 m + e)).
  destruct (shr_spec m e (f1 - e) l Hm) as (mrs1 & -> & Hq1 & Hex1).
  replace (Z.max e (e + (f1 - e))) with (Z.max e f1) in * by lia.
  replace (Z.max 0 (f1 - e)) with (Z.max e f1 - e) in * by lia.
  set (e1 := Z.max e f1) in *.
  set (m1 := round_nearest_even (shr_m mrs1) (loc_of_shr_record mrs1)).
  assert (Hq1pos : 0 <= m / 2 ^ (e1 - e)).
  { apply Z.div_pos; [assumption | apply Z.pow_pos_nonneg; lia]. }
  pose proof (round_nearest_even_bounds (shr_m mrs1) (loc_of_shr_record mrs1)) as Hb.
  fold m1 in Hb. rewrite Hq1 in Hb.
  set (f2 := fexp Float.prec Float.emax (Zdigits2 m1 + e1)).
  destruct (shr_spec m1 e1 (f2 - e1) loc_Exact ltac:(lia)) as (mrs2 & Hs2 & Hq2 & _).
  change (shr_record_of_loc m1 loc_Exact) with (Build_shr_record m1 false false) in Hs2.
  replace (Z.max e1 (e1 + (f2 - e1))) with (Z.max e1 f2) in * by lia.
  replace (Z.max 0 (f2 - e1)) with (Z.max e1 f2 - e1) in * by lia.
  exists m1, (shr_m mrs2). cbv zeta. fold f2.
  split; [exact Hb | ]. split.
  - intros Hl Hmod. subst m1.
    destruct (location_eq_dec (loc_of_shr_record mrs1)) as [-> | Hne].
    + rewrite round_nearest_even_exact. exact Hq1.
    + exfalso. apply (Hex1 Hl Hne). exact Hmod.
  - split; [exact Hq2 | ].
    change (shr_record_of_loc m1 loc_Exact) with (Build_shr_record m1 false false).
    rewrite Hs2. reflexivity.
Qed.

Lemma fexp_eq (x : Z) :
  fexp Float.prec Float.emax x = Z.max (x - 53) (-1074).
Proof. reflexivity. Qed.

Lemma pow2_pos (k : Z) : 0 <= k -> 0 < 2 ^ k.
Proof. intros H. apply Z.pow_pos_nonneg; lia. Qed.

Lemma pow2_split (a b : Z) : 0 <= a -> 0 <= b -> 2 ^ (a + b) = 2 ^ a * 2 ^ b.
Proof. intros. apply Z.pow_add_r; assumption. Qed.

(** Dividing by [2^k] a number below [2^(k+j)] leaves one below [2^j]. *)
Lemma div_pow2_lt (a k j : Z) :
  0 <= k -> 0 <= j -> a < 2 ^ (k + j) -> a / 2 ^ k < 2 ^ j.
Proof.
  intros Hk Hj Ha. apply Z.div_lt_upper_bound; [apply pow2_pos; lia | ].
  rewrite <- pow2_split by lia. assumption.
Qed.

(** A positive number keeps a non-zero quotient when fewer bits are
    shifted out than it has digits. *)
Lemma div_pow2_pos (a k : Z) :
  0 < a -> 0 <= k <= Zdigits2 a - 1 -> 1 <= a / 2 ^ k.
Proof.
  intros Ha Hk. destruct (Zdigits2_spec a Ha) as [Hlo _].
  apply Z.div_le_lower_bound; [apply pow2_pos; lia | ].
  rewrite Z.mul_1_r.
  apply Z.le_trans with (2 ^ (Zdigits2 a - 1)); [ | assumption].
  apply Z.pow_le_mono_r; lia.
Qed.

(** Moving a bound [B * 2^(-e)] from the exponent [e] up to [e']. *)
Lemma div_pow2_scale (a B e e' : Z) :
  e <= e' -> e' <= 0 -> a <= B * 2 ^ (- e) -> a / 2 ^ (e' - e) <= B * 2 ^ (- e').
Proof.
  intros He He' Ha.
  apply Z.div_le_upper_bound; [apply pow2_pos; lia | ].
  replace (- e) with ((e' - e) + (- e')) in Ha by lia.
  rewrite pow2_split in Ha by lia. lia.
Qed.

Lemma div_pow2_scale_strict (a B e e' : Z) :
  e <= e' -> e' <= 0 -> 0 <= a -> a <= B * 2 ^ (- e) ->
  a mod 2 ^ (e' - e) <> 0 -> a / 2 ^ (e' - e) + 1 <= B * 2 ^ (- e').
Proof.
  intros He He' Ha0 Ha Hmod.
  pose proof (div_pow2_scale a B e e' He He' Ha) as Hle.
  pose proof (pow2_pos (e' - e) ltac:(lia)) as Hp.
  pose proof (Z.div_mod a (2 ^ (e' - e)) ltac:(lia)) as Hdm.
  pose proof (Z.mod_pos_bound a (2 ^ (e' - e)) Hp) as Hmb.
  replace (- e) with ((e' - e) + (- e')) in Ha by lia.
  rewrite pow2_split in Ha by lia.
  destruct (Z.eq_dec (a / 2 ^ (e' - e)) (B * 2 ^ (- e'))) as [Heq | Hne]; [ | lia].
  exfalso. rewrite Heq in Hdm. lia.
Qed.

(** A mantissa bounded by [B * 2^(-e)] with [B < 2^53] needs no more than
    [53 - e] digits, so the exponent of the format stays at or below 0. *)
Lemma fexp_nonpos (a B e : Z) :
  0 <= a -> e <= 0 -> 0 < B < 2 ^ 53 -> a <= B * 2 ^ (- e) ->
  Z.max e (fexp Float.prec Float.emax (Zdigits2 a + e)) <= 0.
Proof.
  intros Ha He HB Hle. rewrite fexp_eq.
  assert (Hd : Zdigits2 a <= 53 - e).
  { apply Zdigits2_le; try lia.
    replace (53 - e) with (53 + (- e)) by lia. rewrite pow2_split by lia.
    pose proof (pow2_pos (- e) ltac:(lia)). nia. }
  lia.
Qed.

(** Rounding an exact value that does not exceed the integer [B] gives a
    float that does not exceed [B]: zero, or a positive finite float with
    a non-positive exponent and a mantissa of at most [B * 2^(-e')]. *)
Lemma binary_round_aux_upper (m e B : Z) :
  0 <= m -> e <= 0 -> 0 < B < 2 ^ 53 -> m <= B * 2 ^ (- e) ->
  binary_round_aux Float.prec Float.emax false m e loc_Exact = S754_zero false
  \/ exists p e',
       binary_round_aux Float.prec Float.emax false m e loc_Exact
       = S754_finite false p e'
       /\ e' <= 0 /\ Zpos p <= B * 2 ^ (- e').
Proof.
  intros Hm He HB Hle.
  destruct (binary_round_aux_cases false m e loc_Exact Hm)
    as (m1 & m2 & Hb & Hex & Hm2 & ->).
  cbv zeta in *.
  set (e1 := Z.max e (fexp Float.prec Float.emax (Zdigits2 m + e))) in *.
  assert (He1 : e1 <= 0) by (eapply fexp_nonpos; eauto).
  assert (Hee1 : e <= e1) by (subst e1; lia).
  assert (Hq : 0 <= m / 2 ^ (e1 - e))
    by (apply Z.div_pos; [assumption | apply pow2_pos; lia]).
  assert (Hm1 : m1 <= B * 2 ^ (- e1)).
  { destruct (Z.eq_dec (m mod 2 ^ (e1 - e)) 0) as [Hz | Hnz].
    - rewrite (Hex eq_refl Hz). apply div_pow2_scale; assumption.
    - pose proof (div_pow2_scale_strict m B e e1 Hee1 He1 Hm Hle Hnz). lia. }
  set (e2 := Z.max e1 (fexp Float.prec Float.emax (Zdigits2 m1 + e1))) in *.
  assert (He2 : e2 <= 0) by (eapply fexp_nonpos with (B := B); eauto; lia).
  assert (Hm2' : m2 <= B * 2 ^ (- e2)).
  { rewrite Hm2. apply div_pow2_scale; try assumption. subst e2; lia. }
  assert (Hm2pos : 0 <= m2).
  { rewrite Hm2. apply Z.div_pos; [lia | apply pow2_pos; subst e2; lia]. }
  destruct m2 as [ | p | p]; [left; reflexivity | right | lia].
  exists p, e2.
  replace (e2 <=? Float.emax - Float.prec) with true
    by (symmetry; apply Z.leb_le; unfold Float.emax, Float.prec; lia).
  repeat split; assumption.
Qed.

(** The mantissa of a finite result of rounding has at most 53 digits. *)
Lemma binary_round_aux_digits (s s' : bool) (m e : Z) (l : location)
    (p : positive) (e' : Z) :
  0 <= m ->
  binary_round_aux Float.prec Float.emax s m e l = S754_finite s' p e' ->
  Zpos p < 2 ^ 53.
Proof.
  intros Hm H.
  destruct (binary_round_aux_cases s m e l Hm) as (m1 & m2 & Hb & _ & Hm2 & Hr).
  cbv zeta in *. rewrite Hr in H. clear Hr.
  set (e1 := Z.max e (fexp Float.prec Float.emax (Zdigits2 m + e))) in *.
  set (e2 := Z.max e1 (fexp Float.prec Float.emax (Zdigits2 m1 + e1))) in *.
  assert (Hp : m2 = Zpos p).
  { destruct m2 as [ | q | q]; try discriminate.
    destruct (e2 <=? Float.emax - Float.prec); [ | discriminate].
    injection H as _ -> _. reflexivity. }
  rewrite <- Hp, Hm2.
  assert (Hq : 0 <= m / 2 ^ (e1 - e))
    by (apply Z.div_pos; [assumption | apply pow2_pos; subst e1; lia]).
  assert (Hm1 : 0 <= m1) by lia.
  destruct (Z.eq_dec m1 0) as [-> | Hne].
  { rewrite Z.div_0_l by (apply Z.pow_nonzero; subst e2; lia). reflexivity. }
  destruct (Zdigits2_spec m1 ltac:(lia)) as [_ Hhi].
  pose proof (Zdigits2_nonneg m1) as Hd.
  assert (Hk : Zdigits2 m1 - 53 <= e2 - e1).
  { subst e2. rewrite fexp_eq. lia. }
  assert (Hk0 : 0 <= e2 - e1) by (subst e2; lia).
  apply div_pow2_lt; [exact Hk0 | lia | ].
  apply Z.lt_le_trans with (2 ^ Zdigits2 m1); [assumption | ].
  apply Z.pow_le_mono_r; lia.
Qed.

(** Rounding a positive mantissa whose exponent is not below the least
    exponent of the format never gives zero. *)
Lemma binary_round_aux_nonzero (s : bool) (m e : Z) (l : location) :
  0 < m -> -1074 <= e ->
  Float.is_zero (binary_round_aux Float.prec Float.emax s m e l) = false.
Proof.
  intros Hm He.
  destruct (binary_round_aux_cases s m e l ltac:(lia)) as (m1 & m2 & Hb & _ & Hm2 & ->).
  cbv zeta in *.
  set (e1 := Z.max e (fexp Float.prec Float.emax (Zdigits2 m + e))) in *.
  set (e2 := Z.max e1 (fexp Float.prec Float.emax (Zdigits2 m1 + e1))) in *.
  destruct (Zdigits2_spec m Hm) as [Hlo Hhi].
  assert (Hd : 1 <= Zdigits2 m).
  { destruct m; simpl; lia. }
  assert (Hq : 1 <= m / 2 ^ (e1 - e)).
  { apply div_pow2_pos; [assumption | ]. subst e1. rewrite fexp_eq. lia. }
  assert (Hm1 : 0 < m1) by lia.
  assert (Hd1 : 1 <= Zdigits2 m1).
  { destruct m1; simpl; lia. }
  assert (Hq2 : 1 <= m2).
  { rewrite Hm2. apply div_pow2_pos; [assumption | ].
    subst e2. rewrite fexp_eq. subst e1. lia. }
  destruct m2 as [ | p | p]; try lia.
  destruct (e2 <=? Float.emax - Float.prec); reflexivity.
Qed.

(** ** Facts on binary64 operations used by the colour mapper *)

Lemma SFdiv_core_binary_nonneg (m1 e1 m2 e2 : Z) :
  0 <= m1 -> 0 <= m2 ->
  0 <= fst (fst (SFdiv_core_binary Float.prec Float.emax m1 e1 m2 e2)).
Proof.
  intros H1 H2. unfold SFdiv_core_binary.
  match goal with
  | |- context [Z.div_eucl ?a ?b] => set (num := a); set (den := b)
  end.
  assert (Hnum : 0 <= num).
  { subst num. match goal with |- 0 <= match ?s with _ => _ end => destruct s end;
      try lia. apply Z.shiftl_nonneg. lia. }
  assert (Hq : 0 <= fst (Z.div_eucl num den)).
  { change (0 <= num / den). destruct (Z.eq_dec den 0) as [-> | Hne].
    - rewrite Z.div_0_r. lia.
    - apply Z.div_pos; subst den; lia. }
  destruct (Z.div_eucl num den) as [q r]. exact Hq.
Qed.

Lemma SFdiv_digits (x y : Float.float) (s : bool) (m : positive) (e : Z) :
  SFdiv Float.prec Float.emax x y = S754_finite s m e -> Zpos m < 2 ^ 53.
Proof.
  destruct x as [sx | sx | | sx mx ex], y as [sy | sy | | sy my ey];
    simpl; try discriminate.
  pose proof (SFdiv_core_binary_nonneg (Zpos mx) ex (Zpos my) ey
                ltac:(lia) ltac:(lia)) as Hq.
  destruct (SFdiv_core_binary Float.prec Float.emax (Zpos mx) ex (Zpos my) ey)
    as [[q e'] l].
  simpl in Hq. intros H. eapply binary_round_aux_digits; eauto.
Qed.

Lemma shl_align_spec (mx : positive) (ex ex' : Z) :
  snd (shl_align mx ex ex') = Z.min ex ex'
  /\ Zpos (fst (shl_align mx ex ex')) = Zpos mx * 2 ^ (ex - Z.min ex ex').
Proof.
  unfold shl_align. destruct (ex' - ex) as [ | d | d] eqn:E; simpl.
  - replace (Z.min ex ex') with ex by lia. rewrite Z.sub_diag. simpl. lia.
  - replace (Z.min ex ex') with ex by lia. rewrite Z.sub_diag. simpl. lia.
  - replace (Z.min ex ex') with ex' by lia. split; [reflexivity | ].
    replace (ex - ex') with (Zpos d) by lia.
    change (Pos.iter xO mx d) with (shift_pos d mx).
    rewrite shift_pos_correct. rewrite Z.mul_comm. reflexivity.
Qed.

(** What a canonical finite float satisfies. *)
Lemma valid_finite (s : bool) (m : positive) (e : Z) :
  Float.valid (S754_finite s m e) = true ->
  -1074 <= e /\ Zpos m < 2 ^ 53 /\ (-1074 < e -> 2 ^ 52 <= Zpos m).
Proof.
  unfold Float.valid, valid_binary, bounded, canonical_mantissa.
  intros H. apply andb_prop in H. destruct H as [Hc _].
  apply Z.eqb_eq in Hc. rewrite fexp_eq in Hc.
  destruct (digits2_pos_spec m) as [Hlo Hhi].
  set (d := Zpos (digits2_pos m)) in *.
  split; [lia | ]. split.
  - apply Z.lt_le_trans with (2 ^ d); [assumption | ].
    apply Z.pow_le_mono_r; lia.
  - intros He. replace d with 53 in Hlo by lia. exact Hlo.
Qed.

Lemma binary_round_nonzero (s : bool) (m : positive) (e : Z) :
  -1074 <= e ->
  Float.is_zero (binary_round Float.prec Float.emax s m e) = false.
Proof.
  intros He. unfold binary_round.
  destruct (shl_align_spec m e
              (fexp Float.prec Float.emax (Zpos (digits2_pos m) + e))) as [He' _].
  destruct (shl_align m e _) as [mz ez]. simpl in He'.
  apply binary_round_aux_nonzero; [lia | ].
  rewrite He', fexp_eq. lia.
Qed.

Lemma binary_normalize_nonzero (m e : Z) :
  m <> 0 -> -1074 <= e ->
  Float.is_zero (binary_normalize Float.prec Float.emax m e false) = false.
Proof.
  intros Hm He. destruct m as [ | p | p]; [contradiction | | ];
    apply binary_round_nonzero; assumption.
Qed.

Lemma scaled_mantissa_gt (a b k : Z) :
  2 ^ 52 <= a -> b < 2 ^ 53 -> 1 <= k -> b < a * 2 ^ k.
Proof.
  intros Ha Hb Hk.
  assert (2 ^ 1 <= 2 ^ k) by (apply Z.pow_le_mono_r; lia).
  change (2 ^ 1) with 2 in *. change (2 ^ 53) with (2 ^ 52 * 2) in Hb. nia.
Qed.

Lemma compare_cont_Lt (a b : positive) :
  Pos.compare_cont Eq a b = Lt -> Zpos a < Zpos b.
Proof. intros H. apply Z.compare_lt_iff. exact H. Qed.

Lemma compare_cont_Gt (a b : positive) :
  Pos.compare_cont Eq a b = Gt -> Zpos b < Zpos a.
Proof. intros H. apply Z.compare_gt_iff. exact H. Qed.

(** For canonical floats, [low < high] makes the exact difference
    [high - low] positive, so the rounded difference is not zero and the
    division of [height_to_color] does not raise. *)
Lemma sub_nonzero (high low : Float.float) :
  Float.valid high = true -> Float.valid low = true ->
  Float.ltb low high = true ->
  Float.is_zero (Float.sub high low) = false.
Proof.
  intros Vh Vl Hlt. unfold Float.ltb, SFltb in Hlt. unfold Float.sub.
  destruct high as [sh | sh | | sh mh eh], low as [sl | sl | | sl ml el];
    try (simpl in Hlt; discriminate); try reflexivity;
    try (destruct sh, sl; simpl in Hlt; try discriminate; reflexivity).
  apply valid_finite in Vh. apply valid_finite in Vl.
  destruct Vh as (Heh & Hmh & Hnh), Vl as (Hel & Hml & Hnl).
  unfold SFsub. apply binary_normalize_nonzero; [ | lia].
  change (IntDef.Z.min eh el) with (Z.min eh el).
  destruct (shl_align_spec mh eh (Z.min eh el)) as [_ ->].
  destruct (shl_align_spec ml el (Z.min eh el)) as [_ ->].
  replace (Z.min eh (Z.min eh el)) with (Z.min eh el) by lia.
  replace (Z.min el (Z.min eh el)) with (Z.min eh el) by lia.
  assert (Ph : 0 < 2 ^ (eh - Z.min eh el)) by (apply pow2_pos; lia).
  assert (Pl : 0 < 2 ^ (el - Z.min eh el)) by (apply pow2_pos; lia).
  simpl in Hlt.
  destruct sl, sh; unfold cond_Zopp; try discriminate; try nia.
  - (* both negative *)
    destruct (Z.compare_spec el eh) as [E | E | E]; simpl in Hlt; try discriminate.
    + subst el. rewrite Z.min_id, Z.sub_diag. change (2 ^ 0) with 1.
      destruct (Pos.compare_cont Eq ml mh) eqn:C; try discriminate.
      apply compare_cont_Gt in C. lia.
    + replace (Z.min eh el) with eh by lia. rewrite Z.sub_diag.
      pose proof (scaled_mantissa_gt (Zpos ml) (Zpos mh) (el - eh)
                    ltac:(apply Hnl; lia) Hmh ltac:(lia)).
      change (2 ^ 0) with 1. lia.
  - (* both positive *)
    destruct (Z.compare_spec el eh) as [E | E | E]; simpl in Hlt; try discriminate.
    + subst el. rewrite Z.min_id, Z.sub_diag. change (2 ^ 0) with 1.
      destruct (Pos.compare_cont Eq ml mh) eqn:C; try discriminate.
      apply compare_cont_Lt in C. lia.
    + replace (Z.min eh el) with el by lia. rewrite Z.sub_diag.
      pose proof (scaled_mantissa_gt (Zpos mh) (Zpos ml) (eh - el)
                    ltac:(apply Hnh; lia) Hml ltac:(lia)).
      change (2 ^ 0) with 1. lia.
Qed.

Lemma of_Z_255 : Float.of_Z 255 = S754_finite false (255 * 2 ^ 45) (-45).
Proof. vm_compute. reflexivity. Qed.

Lemma of_Z_1 : Float.of_Z 1 = S754_finite false (2 ^ 52) (-52).
Proof. vm_compute. reflexivity. Qed.

Lemma within_one : within 1 Float.one.
Proof.
  right. exists (2 ^ 52)%positive, (-52). split; [apply of_Z_1 | ].
  split; [lia | ]. vm_compute. discriminate.
Qed.

(** The clamped ratio lies between 0 and 1, whatever the ratio is (NaN
    and the infinities included), as soon as a finite ratio has a
    mantissa of at most 53 digits. *)
Lemma clamp_within (ratio : Float.float) :
  (forall s m e, ratio = S754_finite s m e -> Zpos m < 2 ^ 53) ->
  within 1 (clamp ratio Float.zero Float.one).
Proof.
  intros Hd. unfold clamp, Float.py_max, Float.py_min, Float.gtb, Float.ltb.
  destruct (SFltb ratio Float.one) eqn:H1.
  - destruct (SFltb Float.zero ratio) eqn:H0; [ | left; reflexivity].
    destruct ratio as [s | s | | s m e]; try discriminate.
    + destruct s; discriminate.
    + destruct s; [discriminate | ].
      specialize (Hd false m e eq_refl).
      right. exists m, e. split; [reflexivity | ].
      unfold SFltb, Float.one in H1. rewrite of_Z_1 in H1.
      unfold SFcompare in H1.
      destruct (Z.compare_spec e (-52)) as [E | E | E]; try discriminate.
      * subst e. split; [lia | ].
        destruct (Pos.compare_cont Eq m (2 ^ 52)) eqn:C; try discriminate.
        apply compare_cont_Lt in C.
        change (- -52) with 52. lia.
      * split; [lia | ]. rewrite Z.mul_1_l.
        apply Z.lt_le_incl, Z.lt_le_trans with (2 ^ 53); [assumption | ].
        apply Z.pow_le_mono_r; lia.
  - replace (SFltb Float.zero Float.one) with true by (vm_compute; reflexivity).
    apply within_one.
Qed.

Lemma mul_255_within (c : Float.float) :
  within 1 c -> within 255 (Float.mul (Float.of_Z 255) c).
Proof.
  intros [-> | (p & e & -> & He & Hp)]; unfold Float.mul; rewrite of_Z_255.
  - left. reflexivity.
  - unfold SFmul. cbn [xorb].
    apply binary_round_aux_upper; [lia | lia | split; [lia | reflexivity] | ].
    rewrite Pos2Z.inj_mul.
    replace (- (-45 + e)) with (45 + - e) by lia.
    rewrite pow2_split by lia.
    change (Zpos (255 * 2 ^ 45)) with (255 * 2 ^ 45). nia.
Qed.

Lemma binary_round_within (m : positive) (e : Z) :
  e <= 0 -> Zpos m <= 2 ^ (- e) ->
  within 1 (binary_round Float.prec Float.emax false m e).
Proof.
  intros He Hm. unfold binary_round.
  set (f := fexp Float.prec Float.emax (Zpos (digits2_pos m) + e)).
  destruct (shl_align_spec m e f) as [He' Hm'].
  destruct (shl_align m e f) as [mz ez]. cbn [fst snd] in He', Hm'.
  apply binary_round_aux_upper; [lia | lia | split; [lia | reflexivity] | ].
  rewrite Hm', Z.mul_1_l, He'.
  replace (- Z.min e f) with ((e - Z.min e f) + - e) by lia.
  rewrite pow2_split by lia.
  pose proof (pow2_pos (e - Z.min e f) ltac:(lia)).
  nia.
Qed.

Lemma one_minus_within (c : Float.float) :
  within 1 c -> within 1 (Float.sub (Float.of_Z 1) c).
Proof.
  intros [-> | (p & e & -> & He & Hp)]; unfold Float.sub; rewrite of_Z_1.
  - apply within_one.
  - unfold SFsub.
    change (IntDef.Z.min (-52) e) with (Z.min (-52) e).
    destruct (shl_align_spec (2 ^ 52) (-52) (Z.min (-52) e)) as [_ ->].
    destruct (shl_align_spec p e (Z.min (-52) e)) as [_ ->].
    replace (Z.min (-52) (Z.min (-52) e)) with (Z.min (-52) e) by lia.
    replace (Z.min e (Z.min (-52) e)) with (Z.min (-52) e) by lia.
    unfold cond_Zopp. set (ez := Z.min (-52) e) in *.
    assert (Ha : Zpos (2 ^ 52) * 2 ^ (-52 - ez) = 2 ^ (- ez)).
    { change (Zpos (2 ^ 52)) with (2 ^ 52). rewrite <- pow2_split by lia.
      f_equal. lia. }
    assert (Hb : Zpos p * 2 ^ (e - ez) <= 2 ^ (- ez)).
    { replace (- ez) with ((e - ez) + - e) by lia. rewrite pow2_split by lia.
      pose proof (pow2_pos (e - ez) ltac:(lia)). nia. }
    rewrite Ha.
    assert (Hpos : 0 < Zpos p * 2 ^ (e - ez)).
    { pose proof (pow2_pos (e - ez) ltac:(lia)). nia. }
    destruct (2 ^ (- ez) - Zpos p * 2 ^ (e - ez)) as [ | q | q] eqn:E;
      unfold binary_normalize.
    + left. reflexivity.
    + apply binary_round_within; lia.
    + lia.
Qed.

Lemma to_int_within (B : Z) (x : Float.float) :
  0 <= B -> within B x -> exists r, Float.to_int x = Ok r /\ 0 <= r <= B.
Proof.
  intros HB [-> | (p & e & -> & He & Hp)].
  - exists 0. split; [reflexivity | lia].
  - unfold Float.to_int, cond_Zopp. eexists. split; [reflexivity | ].
    destruct (Z.leb_spec 0 e) as [H0 | H0].
    + replace e with 0 in * by lia. change (2 ^ 0) with 1. change (2 ^ (- 0)) with 1 in Hp.
      lia.
    + split.
      * apply Z.div_pos; [lia | apply pow2_pos; lia].
      * apply Z.div_le_upper_bound; [apply pow2_pos; lia | ]. lia.
Qed.

Lemma format_02x_two_hex (n : Z) : 0 <= n <= 255 -> format_02x n = two_hex n.
Proof.
  intros H.
  assert (Hall : forallb (fun k => String.eqb (format_02x (Z.of_nat k))
                                              (two_hex (Z.of_nat k)))
                         (seq 0 256) = true) by (vm_compute; reflexivity).
  rewrite forallb_forall in Hall.
  specialize (Hall (Z.to_nat n)). rewrite Z2Nat.id in Hall by lia.
  apply String.eqb_eq. apply Hall. apply in_seq. lia.
Qed.

Lemma SFcompare_Eq_sym (x y : Float.float) :
  SFcompare x y = Some Eq -> SFcompare y x = Some Eq.
Proof.
  destruct x as [sx | sx | | sx mx ex], y as [sy | sy | | sy my ey];
    simpl; try discriminate; try reflexivity;
    try (destruct sx; discriminate); try (destruct sy; discriminate);
    try (destruct sx, sy; (discriminate || reflexivity)).
  destruct sx, sy; try discriminate;
    destruct (Z.compare_spec ex ey) as [E | E | E]; try discriminate;
    subst ey; rewrite Z.compare_refl;
    destruct (Pos.compare_cont Eq mx my) eqn:C; try discriminate;
    apply Pos.compare_eq in C; subst my; rewrite Pos.compare_cont_refl;
    reflexivity.
Qed.

Lemma ltb_not_eqb (low high : Float.float) :
  Float.ltb low high = true -> Float.eqb high low = false.
Proof.
  unfold Float.ltb, Float.eqb, SFltb, SFeqb. intros H.
  destruct (SFcompare high low) as [[ | | ] | ] eqn:E; try reflexivity.
  apply SFcompare_Eq_sym in E. rewrite E in H. discriminate.
Qed.

(** C2, amended. For canonical bounds with [low_h < high_h] and a height
    that is not NaN, the division does not raise; with the ratio clamped
    to 0..1, the red channel is [int(255 * ratio)] and the green channel
    is [int(255 * (1 - ratio))] (truncation, in binary64 arithmetic), both
    lie in 0..255, the blue channel is 0, and the colour is [#] followed by
    the two lowercase hexadecimal digits of each channel. *)
Theorem height_to_color_channels (height low_h high_h : Float.float) :
  Float.valid low_h = true ->
  Float.valid high_h = true ->
  Float.ltb low_h high_h = true ->
  Float.is_nan height = false ->
  exists raw r g,
    Float.div (Float.sub height low_h) (Float.sub high_h low_h) = Ok raw
    /\ Float.to_int (Float.mul (Float.of_Z 255) (clamp raw Float.zero Float.one))
       = Ok r
    /\ Float.to_int (Float.mul (Float.of_Z 255)
                       (Float.sub (Float.of_Z 1) (clamp raw Float.zero Float.one)))
       = Ok g
    /\ 0 <= r <= 255
    /\ 0 <= g <= 255
    /\ height_to_color height low_h high_h
       = Ok ("#" ++ two_hex r ++ two_hex g ++ "00")%string.
Proof.
  intros Vl Vh Hlt Hnan.
  pose proof (sub_nonzero high_h low_h Vh Vl Hlt) as Hnz.
  pose proof (ltb_not_eqb low_h high_h Hlt) as Hne.
  set (raw := SFdiv Float.prec Float.emax (Float.sub height low_h)
                (Float.sub high_h low_h)).
  assert (Hdiv : Float.div (Float.sub height low_h) (Float.sub high_h low_h) = Ok raw).
  { unfold Float.div. rewrite Hnz. reflexivity. }
  assert (Hc : within 1 (clamp raw Float.zero Float.one)).
  { apply clamp_within. intros s m e Hr. eapply SFdiv_digits. exact Hr. }
  destruct (to_int_within 255 _ ltac:(lia) (mul_255_within _ Hc)) as (r & Hr & Hrb).
  destruct (to_int_within 255 _ ltac:(lia)
              (mul_255_within _ (one_minus_within _ Hc))) as (g & Hg & Hgb).
  exists raw, r, g. repeat (split; [assumption || lia | ]).
  unfold height_to_color. rewrite Hnan, Hne, Hdiv. cbn [bind].
  fold (clamp raw Float.zero Float.one). rewrite Hr. cbn [bind].
  rewrite Hg. cbn [bind].
  rewrite (format_02x_two_hex r Hrb), (format_02x_two_hex g Hgb). reflexivity.
Qed.

Lemma height_to_color_channels_witness :
  exists raw r g,
    Float.div (Float.sub (Float.of_Z 1) (Float.of_Z 0))
              (Float.sub (Float.of_Z 4) (Float.of_Z 0)) = Ok raw
    /\ Float.to_int (Float.mul (Float.of_Z 255) (clamp raw Float.zero Float.one))
       = Ok r
    /\ Float.to_int (Float.mul (Float.of_Z 255)
                       (Float.sub (Float.of_Z 1) (clamp raw Float.zero Float.one)))
       = Ok g
    /\ 0 <= r <= 255
    /\ 0 <= g <= 255
    /\ height_to_color (Float.of_Z 1) (Float.of_Z 0) (Float.of_Z 4)
       = Ok ("#" ++ two_hex r ++ two_hex g ++ "00")%string.
Proof.
  apply (height_to_color_channels (Float.of_Z 1) (Float.of_Z 0) (Float.of_Z 4));
    vm_compute; reflexivity.
Defined.

(** ** Float comparison is the comparison of the real values *)

Lemma valid_sign (s s' : bool) (m : positive) (e : Z) :
  Float.valid (S754_finite s m e) = Float.valid (S754_finite s' m e).
Proof. reflexivity. Qed.

Lemma mantissa_compare (m1 m2 : positive) (e1 e2 : Z) :
  Float.valid (S754_finite false m1 e1) = true ->
  Float.valid (S754_finite false m2 e2) = true ->
  match e1 ?= e2 with
  | Lt => Lt
  | Gt => Gt
  | Eq => Pos.compare_cont Eq m1 m2
  end = (Zpos m1 * 2 ^ (e1 + 1074) ?= Zpos m2 * 2 ^ (e2 + 1074)).
Proof.
  intros V1 V2. apply valid_finite in V1, V2.
  destruct V1 as (He1 & Hm1 & Hn1), V2 as (He2 & Hm2 & Hn2).
  destruct (Z.compare_spec e1 e2) as [E | E | E].
  - subst e2. pose proof (pow2_pos (e1 + 1074) ltac:(lia)) as HP.
    change (Pos.compare_cont Eq m1 m2) with (Zpos m1 ?= Zpos m2).
    apply Zmult_compare_compat_r. lia.
  - symmetry. apply Z.compare_lt_iff.
    pose proof (scaled_mantissa_gt (Zpos m2) (Zpos m1) (e2 - e1)
                  ltac:(apply Hn2; lia) Hm1 ltac:(lia)) as H.
    replace (e2 + 1074) with ((e2 - e1) + (e1 + 1074)) by lia.
    rewrite (pow2_split (e2 - e1) (e1 + 1074)) by lia.
    pose proof (pow2_pos (e1 + 1074) ltac:(lia)). nia.
  - symmetry. apply Z.compare_gt_iff.
    pose proof (scaled_mantissa_gt (Zpos m1) (Zpos m2) (e1 - e2)
                  ltac:(apply Hn1; lia) Hm2 ltac:(lia)) as H.
    replace (e1 + 1074) with ((e1 - e2) + (e2 + 1074)) by lia.
    rewrite (pow2_split (e1 - e2) (e2 + 1074)) by lia.
    pose proof (pow2_pos (e2 + 1074) ltac:(lia)). nia.
Qed.

Lemma scaled_finite_pos (m : positive) (e : Z) :
  Float.valid (S754_finite false m e) = true -> 0 < Zpos m * 2 ^ (e + 1074).
Proof.
  intros V. apply valid_finite in V. destruct V as (He & _ & _).
  pose proof (pow2_pos (e + 1074) ltac:(lia)). nia.
Qed.

Lemma SFcompare_scaled (x y : Float.float) :
  Float.valid x = true -> Float.valid y = true ->
  Float.is_finite x = true -> Float.is_finite y = true ->
  SFcompare x y = Some (scaled x ?= scaled y).
Proof.
  intros Vx Vy Fx Fy.
  destruct x as [sx | sx | | sx mx ex], y as [sy | sy | | sy my ey];
    try discriminate; unfold SFcompare, scaled.
  - reflexivity.
  - rewrite (valid_sign sy false) in Vy. apply scaled_finite_pos in Vy.
    f_equal. symmetry. destruct sy; unfold cond_Zopp.
    + apply Z.compare_gt_iff. lia.
    + apply Z.compare_lt_iff. lia.
  - rewrite (valid_sign sx false) in Vx. apply scaled_finite_pos in Vx.
    f_equal. symmetry. destruct sx; unfold cond_Zopp.
    + apply Z.compare_lt_iff. lia.
    + apply Z.compare_gt_iff. lia.
  - rewrite (valid_sign sx false) in Vx. rewrite (valid_sign sy false) in Vy.
    pose proof (scaled_finite_pos _ _ Vx) as Px.
    pose proof (scaled_finite_pos _ _ Vy) as Py.
    pose proof (mantissa_compare mx my ex ey Vx Vy) as Hc.
    f_equal. destruct sx, sy; unfold cond_Zopp.
    + rewrite Z.compare_opp.
      rewrite (Z.compare_antisym (Zpos mx * 2 ^ (ex + 1074))
                                 (Zpos my * 2 ^ (ey + 1074))), <- Hc.
      destruct (ex ?= ey); reflexivity.
    + symmetry. apply Z.compare_lt_iff. lia.
    + symmetry. apply Z.compare_gt_iff. lia.
    + exact Hc.
Qed.

Lemma to_Q_scaled (x : Float.float) (q : Q) :
  Float.valid x = true -> Float.to_Q x = Some q ->
  (q == inject_Z (scaled x) * Qpower 2 (-1074))%Q.
Proof.
  intros V H. destruct x as [s | s | | s m e]; try discriminate;
    injection H as <-; unfold scaled.
  - rewrite Qmult_0_l. reflexivity.
  - apply valid_finite in V. destruct V as (He & _ & _).
    assert (Hs : cond_Zopp s (Zpos m * 2 ^ (e + 1074))
                 = cond_Zopp s (Zpos m) * 2 ^ (e + 1074)).
    { destruct s; unfold cond_Zopp; lia. }
    rewrite Hs, inject_Z_mult, Zpower_Qpower by lia.
    rewrite <- Qmult_assoc. change (inject_Z 2) with (2%Q).
    rewrite <- Qpower_plus by discriminate.
    replace (e + 1074 + -1074) with e by lia. reflexivity.
Qed.

Lemma unit_pos : (0 < Qpower 2 (-1074))%Q.
Proof. apply Qpower_0_lt. reflexivity. Qed.

Section RealComparison.
Variables x y : Float.float.
Variables qx qy : Q.
Hypothesis Vx : Float.valid x = true.
Hypothesis Vy : Float.valid y = true.
Hypothesis Hx : Float.to_Q x = Some qx.
Hypothesis Hy : Float.to_Q y = Some qy.

Lemma to_Q_finite : Float.is_finite x = true /\ Float.is_finite y = true.
Proof.
  destruct x as [ | | | ], y as [ | | | ]; try discriminate; split; reflexivity.
Qed.

Lemma Qlt_scaled : (qx < qy)%Q <-> scaled x < scaled y.
Proof.
  rewrite (to_Q_scaled x qx Vx Hx), (to_Q_scaled y qy Vy Hy).
  rewrite Qmult_lt_r by apply unit_pos. rewrite <- Zlt_Qlt. reflexivity.
Qed.

Lemma Qle_scaled : (qx <= qy)%Q <-> scaled x <= scaled y.
Proof.
  rewrite (to_Q_scaled x qx Vx Hx), (to_Q_scaled y qy Vy Hy).
  rewrite Qmult_le_r by apply unit_pos. rewrite <- Zle_Qle. reflexivity.
Qed.

Lemma Qeq_scaled : (qx == qy)%Q <-> scaled x = scaled y.
Proof.
  rewrite (to_Q_scaled x qx Vx Hx), (to_Q_scaled y qy Vy Hy).
  rewrite Qmult_inj_r by (apply Qnot_eq_sym, Qlt_not_eq, unit_pos).
  apply inject_Z_injective.
Qed.

Lemma ltb_real : Float.ltb x y = true <-> (qx < qy)%Q.
Proof.
  destruct to_Q_finite as [Fx Fy].
  unfold Float.ltb, SFltb. rewrite (SFcompare_scaled x y Vx Vy Fx Fy), Qlt_scaled.
  destruct (Z.compare_spec (scaled x) (scaled y)); split; intros; try lia;
    try discriminate; reflexivity.
Qed.

Lemma leb_real : Float.leb x y = true <-> (qx <= qy)%Q.
Proof.
  destruct to_Q_finite as [Fx Fy].
  unfold Float.leb, SFleb. rewrite (SFcompare_scaled x y Vx Vy Fx Fy), Qle_scaled.
  destruct (Z.compare_spec (scaled x) (scaled y)); split; intros; try lia;
    try discriminate; reflexivity.
Qed.

Lemma eqb_real : Float.eqb x y = true <-> (qx == qy)%Q.
Proof.
  destruct to_Q_finite as [Fx Fy].
  unfold Float.eqb, SFeqb. rewrite (SFcompare_scaled x y Vx Vy Fx Fy), Qeq_scaled.
  destruct (Z.compare_spec (scaled x) (scaled y)); split; intros; try lia;
    try discriminate; reflexivity.
Qed.

End RealComparison.

(** ** The filter engine *)

Lemma real_holds_proper (o : string) (h h' v v' : Q) :
  (h == h')%Q -> (v == v')%Q -> real_holds o h v <-> real_holds o h' v'.
Proof.
  intros Hh Hv. unfold real_holds.
  destruct (String.eqb o ">"); [rewrite Hh, Hv; reflexivity | ].
  destruct (String.eqb o ">="); [rewrite Hh, Hv; reflexivity | ].
  destruct (String.eqb o "<"); [rewrite Hh, Hv; reflexivity | ].
  destruct (String.eqb o "<="); rewrite Hh, Hv; reflexivity.
Qed.

Lemma select_filter {geom : Type} (P : Row geom -> bool) (gdf : GeoDataFrame geom) :
  select gdf (map P gdf) = filter P gdf.
Proof.
  induction gdf as [ | r gdf IH]; simpl; [reflexivity | ].
  rewrite IH. reflexivity.
Qed.

Lemma column_height {geom : Type} (gdf : GeoDataFrame geom) :
  has_height gdf = true -> column "height" gdf = Ok (map height_cell gdf).
Proof.
  unfold has_height, column, height_cell.
  induction gdf as [ | r gdf IH]; simpl; [reflexivity | ].
  destruct (lookup "height" (attrs r)); [ | discriminate].
  simpl. intros H. rewrite (IH H). reflexivity.
Qed.

(** On a height that is NaN or finite and a finite threshold, the float
    comparison of the filter holds exactly when the height is a real
    number in the stated relation with the threshold. *)
Lemma compare_op_real (o : string) (h v : Float.float) (qv : Q) :
  Float.valid h = true -> Float.valid v = true ->
  Float.is_nan h = true \/ Float.is_finite h = true ->
  Float.is_real v qv ->
  compare_op o h v = true
  <-> exists qh, Float.is_real h qh /\ real_holds o qh qv.
Proof.
  intros Vh Vv Hh Hv. unfold Float.is_real in *.
  destruct (Float.to_Q v) as [qv' | ] eqn:Ev; [ | contradiction].
  destruct (Float.to_Q h) as [qh' | ] eqn:Eh.
  - assert (Hfl : compare_op o h v = true <-> real_holds o qh' qv').
    { unfold compare_op, real_holds, Float.gtb, Float.geb.
      destruct (String.eqb o ">"); [apply (ltb_real v h qv' qh'); assumption | ].
      destruct (String.eqb o ">="); [apply (leb_real v h qv' qh'); assumption | ].
      destruct (String.eqb o "<"); [apply (ltb_real h v qh' qv'); assumption | ].
      destruct (String.eqb o "<="); [apply (leb_real h v qh' qv'); assumption | ].
      apply (eqb_real h v qh' qv'); assumption. }
    rewrite Hfl. split.
    + intros H. exists qh'. split; [reflexivity | ].
      apply (real_holds_proper o qh' qh' qv' qv); [reflexivity | assumption | assumption].
    + intros (qh & Hq & H).
      apply (real_holds_proper o qh' qh qv' qv); assumption.
  - assert (Hnan : Float.is_nan h = true).
    { destruct Hh as [ | Hf]; [assumption | ].
      destruct h; try discriminate. }
    destruct h; try discriminate. split.
    + unfold compare_op, Float.gtb, Float.geb, Float.ltb, Float.leb, Float.eqb,
        SFltb, SFleb, SFeqb.
      destruct v; simpl;
        repeat match goal with |- context [if ?b then _ else _] => destruct b end;
        discriminate.
    + intros (qh & [] & _).
Qed.

Section FilterProperties.

Variable geom : Type.
Variable str_to_numeric : string -> Float.float.

(** C4. With a non-null filter whose threshold is a real number [v], the
    filter keeps exactly the rows whose height, coerced to a number, is a
    real number [h] in the relation the operator names with [v]; a height
    that is missing or not coercible (NaN after coercion) is no real
    number and is kept by no operator, [==] included. *)
Theorem apply_height_filter_spec (gdf : GeoDataFrame geom) (f : HeightFilter)
    (v : Q) :
  has_height gdf = true ->
  Float.valid (val f) = true ->
  Float.is_real (val f) v ->
  (forall r, In r gdf ->
     Float.valid (to_numeric str_to_numeric (height_cell r)) = true
     /\ (Float.is_nan (to_numeric str_to_numeric (height_cell r)) = true
         \/ Float.is_finite (to_numeric str_to_numeric (height_cell r)) = true)) ->
  exists subset,
    apply_height_filter str_to_numeric gdf (Some f) = Ok subset
    /\ forall r,
         In r subset
         <-> In r gdf
             /\ exists h, Float.is_real (to_numeric str_to_numeric (height_cell r)) h
                          /\ real_holds (op f) h v.
Proof.
  intros Hcol Vv Hv Hrows.
  exists (filter (fun r => compare_op (op f)
                             (to_numeric str_to_numeric (height_cell r)) (val f)) gdf).
  split.
  - unfold apply_height_filter, numeric_heights.
    rewrite (column_height gdf Hcol). cbn [bind].
    rewrite !map_map.
    rewrite (select_filter
               (fun r => compare_op (op f)
                           (to_numeric str_to_numeric (height_cell r)) (val f))).
    reflexivity.
  - intros r. rewrite filter_In. split.
    + intros [Hin Hc]. split; [assumption | ].
      destruct (Hrows r Hin) as [Vh Hh].
      apply (compare_op_real (op f) _ _ v Vh Vv Hh Hv). exact Hc.
    + intros [Hin Hc]. split; [assumption | ].
      destruct (Hrows r Hin) as [Vh Hh].
      apply (compare_op_real (op f) _ _ v Vh Vv Hh Hv). exact Hc.
Qed.

End FilterProperties.

(** ** The theorems on the demonstration collection *)

Lemma apply_height_filter_spec_witness :
  exists subset,
    apply_height_filter demo_str_to_numeric demo_buildings
      (Some (mkFilter ">" (Float.of_Z 40))) = Ok subset
    /\ forall r,
         In r subset
         <-> In r demo_buildings
             /\ exists h,
                  Float.is_real (to_numeric demo_str_to_numeric (height_cell r)) h
                  /\ real_holds ">" h 40.
Proof.
  apply (apply_height_filter_spec unit demo_str_to_numeric demo_buildings
           (mkFilter ">" (Float.of_Z 40)) 40%Q).
  - vm_compute. reflexivity.
  - vm_compute. reflexivity.
  - vm_compute. reflexivity.
  - intros r Hin. simpl in Hin.
    destruct Hin as [<- | [<- | [<- | [<- | []]]]]; vm_compute; auto.
Defined.

Lemma query_geo_empty_subset_witness :
  exists first,
    query_geo demo_geo_interface demo_total_bounds demo_str_to_numeric
      demo_empty_array_truth demo_repr demo_mean (Some demo_buildings)
      "height > 400"
    = Ok (mkResponse []
            [Float.of_Z 0; Float.of_Z 0; Float.of_Z 1; Float.of_Z 1]
            [first;
             ("0 of " ++ format_thousands (len demo_buildings)
                ++ " buildings match the query.")%string]
            (mkLegend SENTINEL SENTINEL)).
Proof.
  apply (query_geo_empty_subset unit unit demo_geo_interface demo_total_bounds
           demo_str_to_numeric demo_empty_array_truth demo_repr demo_mean
           demo_buildings "height > 400"
           (Some (mkFilter ">" (Float.of_Z 400))));
    vm_compute; reflexivity.
Defined.

Lemma query_geo_colours_from_subset_witness :
  exists filt subset hn,
    parse_height_filter "height > 40" = Ok filt
    /\ apply_height_filter demo_str_to_numeric demo_buildings filt = Ok subset
    /\ numeric_heights demo_str_to_numeric subset = Ok hn
    /\ let lo := series_min (dropna hn) in
       let hi := series_max (dropna hn) in
       Forall2 (fun f h =>
                  exists c, lookup "color" (properties f) = Some (VScalar (SStr c))
                            /\ colour_in_range lo hi h = Ok c)
               (features demo_response) hn
       /\ match subset with
          | [] => color_legend demo_response = mkLegend SENTINEL SENTINEL
          | _ => height_to_color lo lo hi = Ok (low (color_legend demo_response))
                 /\ height_to_color hi lo hi = Ok (high (color_legend demo_response))
          end.
Proof.
  apply (query_geo_colours_from_subset unit unit demo_geo_interface
           demo_total_bounds demo_str_to_numeric demo_empty_array_truth
           demo_repr demo_mean demo_buildings "height > 40" demo_response).
  vm_compute. reflexivity.
Defined.

(** The same building, of height 50, is coloured as the midpoint of the
    whole collection (10..90) without a filter and as the low end of the
    subset (50..90) under "height > 40": the gradient is normalised per
    response. *)
Lemma gradient_scoped_to_subset :
  colours_of (demo_query "show all buildings")
  = [Some (VScalar (SStr "#00ff00")); Some (VScalar (SStr "#7f7f00"));
     Some (VScalar (SStr SENTINEL)); Some (VScalar (SStr "#ff0000"))]
  /\ colours_of (demo_query "height > 40")
     = [Some (VScalar (SStr "#00ff00")); Some (VScalar (SStr "#ff0000"))].
Proof. split; vm_compute; reflexivity. Qed.

(** The end-to-end scenario of the documentation: the sentences of the
    response to "height > 40". *)
Lemma demo_insights :
  insights demo_response
  = ["Showing buildings with height greater than 40.0 m.";
     "2 of 4 buildings match the query.";
     "Height range in result: 50.0 m – 90.0 m (average 70.0 m)"].
Proof. vm_compute. reflexivity. Qed.

(** * Further properties of the pipeline *)

(** ** The parser *)

Lemma search_from_segment (r : regex) (rest : list ascii) :
  forall (prev : option ascii) (pos : nat) (m : mstate),
    search_from r rest prev pos = Some m ->
    exists pre w post gs, rest = pre ++ w ++ post /\ lang r w gs.
Proof.
  induction rest as [ | c rest IH]; intros prev pos m H; simpl in H.
  - destruct (re_match r [] _ _) eqn:E; [ | discriminate].
    apply re_match_sound in E. destruct E as (w & rest' & gs & Hw & L & _).
    exists [], w, rest', gs. split; [exact Hw | exact L].
  - destruct (re_match r (c :: rest) _ _) eqn:E.
    + apply re_match_sound in E. destruct E as (w & rest' & gs & Hw & L & _).
      exists [], w, rest', gs. split; [exact Hw | exact L].
    + apply IH in H. destruct H as (pre & w & post & gs & -> & L).
      exists (c :: pre), w, post, gs. split; [reflexivity | exact L].
Qed.

Lemma literal_has_digit (v : list ascii) :
  literal v -> exists c, In c v /\ is_digit c = true.
Proof.
  intros (ip & Hip & Hv).
  pose proof (all_digits_Forall ip Hip) as Hd.
  destruct ip as [ | c ip]; [discriminate | ].
  exists c. split.
  - destruct Hv as [-> | (fp & _ & ->)]; left; reflexivity.
  - inversion Hd; assumption.
Qed.

Lemma lang_height_regex_digit (w : list ascii) (gs : list (string * list ascii)) :
  lang HEIGHT_REGEX w gs -> exists c, In c w /\ is_digit c = true.
Proof.
  unfold HEIGHT_REGEX, seqs. intros L.
  inversion L as [ | | | r1 r2 w1 w2 g1 g2 _ L2 | | | | ]; subst. clear L.
  inversion L2 as [ | | | r1 r2 w3 w4 g3 g4 _ L4 | | | | ]; subst. clear L2.
  inversion L4 as [ | | | r1 r2 w5 w6 g5 g6 _ L6 | | | | ]; subst. clear L4.
  inversion L6 as [ | | | r1 r2 w7 w8 g7 g8 _ L8 | | | | ]; subst. clear L6.
  inversion L8 as [ | | | r1 r2 w9 w10 g9 g10 Lv Lu | | | | ]; subst. clear L8.
  apply lang_val_literal in Lv. destruct Lv as [_ Hlit].
  destruct (literal_has_digit _ Hlit) as (c & Hin & Hc).
  exists c. split; [ | exact Hc].
  do 4 (apply in_or_app; right). apply in_or_app. left. exact Hin.
Qed.

(** A match of the pattern holds a decimal digit. *)
Lemma search_needs_digit (query : string) (m : mstate) :
  search HEIGHT_REGEX query = Some m ->
  exists c, In c (chars query) /\ is_digit c = true.
Proof.
  intros Es. unfold search in Es. apply search_from_segment in Es.
  destruct Es as (pre & w & post & gs & Hq & L).
  destruct (lang_height_regex_digit _ _ L) as (c & Hin & Hc).
  exists c. split; [ | exact Hc].
  rewrite Hq. apply in_or_app. right. apply in_or_app. left. exact Hin.
Qed.

(** A query that holds no decimal digit gives no filter: the pattern
    needs a number. *)
Theorem parse_without_digit (query : string) :
  forallb (fun c => negb (is_digit c)) (chars query) = true ->
  parse_height_filter query = Ok None.
Proof.
  intros Hnd. unfold parse_height_filter.
  destruct (String.eqb query ""); [reflexivity | ].
  destruct (search HEIGHT_REGEX query) as [m | ] eqn:Es; [ | reflexivity].
  exfalso. destruct (search_needs_digit _ _ Es) as (c & Hin & Hc).
  rewrite forallb_forall in Hnd.
  specialize (Hnd c Hin). rewrite Hc in Hnd. discriminate.
Qed.

Lemma parse_without_digit_witness :
  parse_height_filter "which buildings are taller than the tower" = Ok None.
Proof.
  apply (parse_without_digit "which buildings are taller than the tower").
  vm_compute. reflexivity.
Defined.

(** The example queries of the API are all understood by the parser: the
    first asks for everything, the others give the operator and the
    number they spell. *)
Theorem examples_parse :
  map parse_height_filter EXAMPLES
  = [Ok None;
     Ok (Some (mkFilter ">" (Float.of_Z 30)));
     Ok (Some (mkFilter ">" (Float.of_Z 80)));
     Ok (Some (mkFilter "<" (Float.of_Z 50)));
     Ok (Some (mkFilter ">=" (Float.of_Z 100)));
     Ok (Some (mkFilter "==" (Float.of_Z 45)));
     Ok (Some (mkFilter ">" (Float.of_Z 25)))].
Proof. vm_compute. reflexivity. Qed.

(** *** Lowering the query does not change the filter *)













Section MatcherOnLowered.
Context {R : Type}.





End MatcherOnLowered.




Lemma search_from_eq (r : regex) (rest : list ascii) (prev : option ascii)
    (pos : nat) :
  search_from r rest prev pos
  = match re_match r rest (MState prev pos []) (fun _ st => Some st) with
    | Some st => Some st
    | None =>
        match rest with
        | c :: rest' => search_from r rest' (Some c) (S pos)
        | [] => None
        end
    end.
Proof. destruct rest; reflexivity. Qed.


Lemma chars_text (l : list ascii) : chars (text l) = l.
Proof. apply list_ascii_of_string_of_list_ascii. Qed.

Lemma text_chars (s : string) : text (chars s) = s.
Proof. apply string_of_list_ascii_of_string. Qed.











Lemma parse_lower_example :
  parse_height_filter "Buildings TALLER Than 30M"
  = Ok (Some (mkFilter ">" (Float.of_Z 30))).
Proof. vm_compute. reflexivity. Qed.

(** ** The colour mapper *)


Lemma scaled_split (s : bool) (m : positive) (e ez : Z) :
  -1074 <= ez -> ez <= e ->
  scaled (S754_finite s m e)
  = cond_Zopp s (Zpos m * 2 ^ (e - ez)) * 2 ^ (ez + 1074).
Proof.
  intros H1 H2. unfold scaled.
  replace (e + 1074) with ((e - ez) + (ez + 1074)) by lia.
  rewrite (pow2_split (e - ez) (ez + 1074)) by lia.
  destruct s; unfold cond_Zopp; lia.
Qed.

(** For canonical floats that are not equal, the rounded difference is
    not zero: the division of [height_to_color] never raises. *)
Lemma sub_nonzero_neq (high low : Float.float) :
  Float.valid high = true -> Float.valid low = true ->
  Float.eqb high low = false ->
  Float.is_zero (Float.sub high low) = false.
Proof.
  intros Vh Vl Hne. unfold Float.sub.
  destruct high as [sh | sh | | sh mh eh], low as [sl | sl | | sl ml el];
    try reflexivity;
    try (destruct sh, sl; (reflexivity || discriminate)).
  pose proof (SFcompare_scaled _ _ Vh Vl eq_refl eq_refl) as Hc.
  unfold Float.eqb, SFeqb in Hne. rewrite Hc in Hne.
  assert (Hs : scaled (S754_finite sh mh eh) <> scaled (S754_finite sl ml el)).
  { intros E. rewrite E, Z.compare_refl in Hne. discriminate. }
  pose proof (valid_finite _ _ _ Vh) as (Heh & _ & _).
  pose proof (valid_finite _ _ _ Vl) as (Hel & _ & _).
  rewrite (scaled_split sh mh eh (Z.min eh el)) in Hs by lia.
  rewrite (scaled_split sl ml el (Z.min eh el)) in Hs by lia.
  unfold SFsub. apply binary_normalize_nonzero; [ | lia].
  change (IntDef.Z.min eh el) with (Z.min eh el).
  destruct (shl_align_spec mh eh (Z.min eh el)) as [_ ->].
  destruct (shl_align_spec ml el (Z.min eh el)) as [_ ->].
  replace (Z.min eh (Z.min eh el)) with (Z.min eh el) by lia.
  replace (Z.min el (Z.min eh el)) with (Z.min eh el) by lia.
  intros E. apply Hs.
  assert (E' : cond_Zopp sh (Zpos mh * 2 ^ (eh - Z.min eh el))
               = cond_Zopp sl (Zpos ml * 2 ^ (el - Z.min eh el))) by lia.
  rewrite E'. reflexivity.
Qed.

(** On canonical bounds, [height_to_color] returns the sentinel or the
    two-digit hexadecimal forms of two channels in 0..255 and of 0. *)
Lemma height_to_color_shape (height low_h high_h : Float.float) :
  Float.valid low_h = true ->
  Float.valid high_h = true ->
  height_to_color height low_h high_h = Ok SENTINEL
  \/ exists r g, 0 <= r <= 255 /\ 0 <= g <= 255
                 /\ height_to_color height low_h high_h
                    = Ok ("#" ++ two_hex r ++ two_hex g ++ "00")%string.
Proof.
  intros Vl Vh. unfold height_to_color.
  destruct (Float.is_nan height); [left; reflexivity | ].
  destruct (Float.eqb high_h low_h) eqn:Hne; [left; reflexivity | ].
  right.
  pose proof (sub_nonzero_neq high_h low_h Vh Vl Hne) as Hnz.
  unfold Float.div. rewrite Hnz. cbn [bind].
  set (raw := SFdiv Float.prec Float.emax (Float.sub height low_h)
                (Float.sub high_h low_h)).
  assert (Hc : within 1 (clamp raw Float.zero Float.one)).
  { apply clamp_within. intros s m e Hr. eapply SFdiv_digits. exact Hr. }
  destruct (to_int_within 255 _ ltac:(lia) (mul_255_within _ Hc)) as (r & Hr & Hrb).
  destruct (to_int_within 255 _ ltac:(lia)
              (mul_255_within _ (one_minus_within _ Hc))) as (g & Hg & Hgb).
  fold (clamp raw Float.zero Float.one). rewrite Hr. cbn [bind].
  rewrite Hg. cbn [bind].
  rewrite (format_02x_two_hex r Hrb), (format_02x_two_hex g Hgb).
  exists r, g. repeat split; lia.
Qed.

(** On canonical bounds, [height_to_color] never raises, whatever the
    height: it returns the sentinel or [#] and six hexadecimal digits, a
    string of seven characters in both cases. *)
Theorem height_to_color_total (height low_h high_h : Float.float) :
  Float.valid low_h = true ->
  Float.valid high_h = true ->
  exists c, height_to_color height low_h high_h = Ok c /\ String.length c = 7%nat.
Proof.
  intros Vl Vh.
  destruct (height_to_color_shape height low_h high_h Vl Vh)
    as [-> | (r & g & _ & _ & ->)]; eexists; split; reflexivity.
Qed.

Lemma height_to_color_total_witness :
  exists c, height_to_color (Float.of_Z 7) (Float.of_Z (-3)) Float.inf = Ok c
            /\ String.length c = 7%nat.
Proof.
  apply (height_to_color_total (Float.of_Z 7) (Float.of_Z (-3)) Float.inf);
    vm_compute; reflexivity.
Defined.

Lemma binary_round_aux_not_nan (s : bool) (m e : Z) (l : location) :
  0 <= m -> Float.is_nan (binary_round_aux Float.prec Float.emax s m e l) = false.
Proof.
  intros Hm.
  destruct (binary_round_aux_cases s m e l Hm) as (m1 & m2 & Hb & _ & Hm2 & ->).
  cbv zeta in *.
  set (e1 := Z.max e (fexp Float.prec Float.emax (Zdigits2 m + e))) in *.
  set (e2 := Z.max e1 (fexp Float.prec Float.emax (Zdigits2 m1 + e1))) in *.
  assert (Hq : 0 <= m / 2 ^ (e1 - e))
    by (apply Z.div_pos; [assumption | apply pow2_pos; subst e1; lia]).
  assert (H2 : 0 <= m2).
  { rewrite Hm2. apply Z.div_pos; [lia | apply pow2_pos; subst e2; lia]. }
  destruct m2 as [ | p | p]; [reflexivity | | lia].
  destruct (e2 <=? Float.emax - Float.prec); reflexivity.
Qed.

Lemma binary_normalize_not_nan (m e : Z) (sz : bool) :
  Float.is_nan (binary_normalize Float.prec Float.emax m e sz) = false.
Proof.
  destruct m as [ | p | p]; [reflexivity | | ]; unfold binary_normalize, binary_round;
    destruct (shl_align p e _) as [mz ez]; apply binary_round_aux_not_nan; lia.
Qed.

(** A finite float divided by itself is exactly 1.0. *)
Lemma div_self (s : bool) (m : positive) (e : Z) :
  SFdiv Float.prec Float.emax (S754_finite s m e) (S754_finite s m e) = Float.one.
Proof.
  unfold SFdiv, SFdiv_core_binary.
  replace (Zdigits2 (Zpos m) + e - (Zdigits2 (Zpos m) + e)) with 0 by lia.
  rewrite Z.sub_diag.
  change (Z.min (fexp Float.prec Float.emax 0) 0) with (-53).
  change (0 - -53) with 53.
  rewrite Z.shiftl_mul_pow2 by lia.
  assert (Hd : Z.div_eucl (Zpos m * 2 ^ 53) (Zpos m) = (2 ^ 53, 0)).
  { pose proof (Z.div_eucl_eq (Zpos m * 2 ^ 53) (Zpos m) ltac:(lia)) as Heq.
    pose proof (Z.mod_pos_bound (Zpos m * 2 ^ 53) (Zpos m) ltac:(lia)) as Hb.
    unfold Z.modulo in Hb.
    destruct (Z.div_eucl (Zpos m * 2 ^ 53) (Zpos m)) as [q r].
    assert (r = 0 /\ q = 2 ^ 53) as [-> ->]; [ | reflexivity].
    assert (Hr : Zpos m * (2 ^ 53 - q) = r) by lia.
    assert (2 ^ 53 - q = 0) by nia. lia. }
  rewrite Hd.
  replace (new_location (Zpos m) 0) with loc_Exact
    by (unfold new_location, new_location_even, new_location_odd;
        destruct (Z.even (Zpos m)); reflexivity).
  destruct s; vm_compute; reflexivity.
Qed.

Lemma clamp_nan : clamp S754_nan Float.zero Float.one = Float.one.
Proof. vm_compute. reflexivity. Qed.

Lemma clamp_one : clamp Float.one Float.zero Float.one = Float.one.
Proof. vm_compute. reflexivity. Qed.

Lemma clamp_zero (s : bool) : clamp (S754_zero s) Float.zero Float.one = Float.zero.
Proof. destruct s; vm_compute; reflexivity. Qed.

Lemma ltb_not_nan (x y : Float.float) :
  Float.ltb x y = true -> Float.is_nan x = false /\ Float.is_nan y = false.
Proof.
  destruct x, y; try discriminate; split; reflexivity.
Qed.

Lemma sub_self_finite (x : Float.float) :
  Float.is_finite x = true -> Float.sub x x = S754_zero false.
Proof.
  destruct x as [s | s | | s m e]; try discriminate; intros _.
  - destruct s; reflexivity.
  - unfold Float.sub, SFsub. rewrite Z.sub_diag. reflexivity.
Qed.

(** The colour of the upper bound of a range with [low_h < high_h]. *)
Lemma height_to_color_upper (low_h high_h : Float.float) :
  Float.valid low_h = true ->
  Float.valid high_h = true ->
  Float.ltb low_h high_h = true ->
  height_to_color high_h low_h high_h = Ok "#ff0000".
Proof.
  intros Vl Vh Hlt.
  pose proof (sub_nonzero high_h low_h Vh Vl Hlt) as Hnz.
  pose proof (ltb_not_eqb low_h high_h Hlt) as Hne.
  destruct (ltb_not_nan _ _ Hlt) as [Hnl Hnh].
  unfold height_to_color. rewrite Hnh, Hne. unfold Float.div. rewrite Hnz.
  cbn [bind].
  assert (Hc : Float.py_max Float.zero
                 (Float.py_min Float.one
                    (SFdiv Float.prec Float.emax (Float.sub high_h low_h)
                       (Float.sub high_h low_h))) = Float.one).
  { destruct (Float.sub high_h low_h) as [s | s | | s m e]; try discriminate.
    - exact clamp_nan.
    - exact clamp_nan.
    - rewrite div_self. exact clamp_one. }
  rewrite Hc. vm_compute. reflexivity.
Qed.

(** The colour of a finite lower bound of a range with [low_h < high_h]. *)
Lemma height_to_color_lower (low_h high_h : Float.float) :
  Float.valid low_h = true ->
  Float.valid high_h = true ->
  Float.ltb low_h high_h = true ->
  Float.is_finite low_h = true ->
  height_to_color low_h low_h high_h = Ok "#00ff00".
Proof.
  intros Vl Vh Hlt Hf.
  pose proof (sub_nonzero high_h low_h Vh Vl Hlt) as Hnz.
  pose proof (ltb_not_eqb low_h high_h Hlt) as Hne.
  destruct (ltb_not_nan _ _ Hlt) as [Hnl Hnh].
  unfold height_to_color. rewrite Hnl, Hne. unfold Float.div. rewrite Hnz.
  cbn [bind]. rewrite (sub_self_finite low_h Hf).
  assert (Hd : Float.is_nan (Float.sub high_h low_h) = false).
  { destruct high_h as [sh | sh | | sh mh eh], low_h as [sl | sl | | sl ml el];
      try discriminate; try reflexivity;
      try (destruct sh, sl; reflexivity).
    apply binary_normalize_not_nan. }
  assert (Hc : Float.py_max Float.zero
                 (Float.py_min Float.one
                    (SFdiv Float.prec Float.emax (S754_zero false)
                       (Float.sub high_h low_h))) = Float.zero).
  { destruct (Float.sub high_h low_h) as [s | s | | s m e]; try discriminate.
    - exact (clamp_zero (xorb false s)).
    - exact (clamp_zero (xorb false s)). }
  rewrite Hc. vm_compute. reflexivity.
Qed.

(** The two ends of the gradient. On canonical bounds with
    [low_h < high_h], the colour of the upper bound itself is pure red;
    when the lower bound is finite, its own colour is [#00ff00]. These are
    the two colours of the legend of every response with a spread of
    heights. *)
Theorem gradient_ends (low_h high_h : Float.float) :
  Float.valid low_h = true ->
  Float.valid high_h = true ->
  Float.ltb low_h high_h = true ->
  height_to_color high_h low_h high_h = Ok "#ff0000"
  /\ (Float.is_finite low_h = true ->
      height_to_color low_h low_h high_h = Ok "#00ff00").
Proof.
  intros Vl Vh Hlt. split.
  - apply height_to_color_upper; assumption.
  - intros Hf. apply height_to_color_lower; assumption.
Qed.

Lemma gradient_ends_witness :
  height_to_color (Float.of_Z 90) (Float.of_Z 50) (Float.of_Z 90) = Ok "#ff0000"
  /\ (Float.is_finite (Float.of_Z 50) = true ->
      height_to_color (Float.of_Z 50) (Float.of_Z 50) (Float.of_Z 90)
      = Ok "#00ff00").
Proof.
  apply (gradient_ends (Float.of_Z 50) (Float.of_Z 90)); vm_compute; reflexivity.
Defined.

(** ** The filter engine and the colour column *)

Lemma filter_idem {A : Type} (P : A -> bool) (l : list A) :
  filter P (filter P l) = filter P l.
Proof.
  induction l as [ | a l IH]; simpl; [reflexivity | ].
  destruct (P a) eqn:E; simpl; rewrite ?E, IH; reflexivity.
Qed.


Lemma compare_nan_l (o : string) (h v : Float.float) :
  Float.is_nan h = true -> compare_op o h v = false.
Proof.
  intros H. destruct h; try discriminate.
  unfold compare_op.
  repeat match goal with |- context [if ?b then _ else _] => destruct b end;
    destruct v; reflexivity.
Qed.


Section FilterAndColour.

Variable geom : Type.
Variable str_to_numeric : string -> Float.float.

Lemma column_ok_has_height (gdf : GeoDataFrame geom) (hs : list pyval) :
  column "height" gdf = Ok hs -> has_height gdf = true.
Proof.
  unfold column, has_height. revert hs.
  induction gdf as [ | r gdf IH]; intros hs H; simpl in *; [reflexivity | ].
  destruct (lookup "height" (attrs r)); [ | discriminate].
  simpl in H. bind_inv H. eauto.
Qed.

Lemma apply_height_filter_eq (gdf : GeoDataFrame geom) (f : HeightFilter) :
  has_height gdf = true ->
  apply_height_filter str_to_numeric gdf (Some f)
  = Ok (filter (fun r => compare_op (op f)
                           (to_numeric str_to_numeric (height_cell r)) (val f))
               gdf).
Proof.
  intros H. unfold apply_height_filter, numeric_heights.
  rewrite (column_height gdf H). cbn [bind]. rewrite !map_map.
  rewrite (select_filter
             (fun r => compare_op (op f)
                         (to_numeric str_to_numeric (height_cell r)) (val f))).
  reflexivity.
Qed.

Lemma apply_height_filter_ok (gdf subset : GeoDataFrame geom) (f : HeightFilter) :
  apply_height_filter str_to_numeric gdf (Some f) = Ok subset ->
  has_height gdf = true.
Proof.
  unfold apply_height_filter, numeric_heights. intros H.
  bind_inv H. bind_inv Hx. eapply column_ok_has_height; eauto.
Qed.

Lemma has_height_filter (P : Row geom -> bool) (gdf : GeoDataFrame geom) :
  has_height gdf = true -> has_height (filter P gdf) = true.
Proof.
  unfold has_height. rewrite !forallb_forall. intros H r Hin.
  apply filter_In in Hin. apply H. tauto.
Qed.

(** Filtering is idempotent: the filter applied to its own result returns
    that result. *)
Theorem apply_height_filter_idempotent (gdf subset : GeoDataFrame geom)
    (f : HeightFilter) :
  apply_height_filter str_to_numeric gdf (Some f) = Ok subset ->
  apply_height_filter str_to_numeric subset (Some f) = Ok subset.
Proof.
  intros H. pose proof (apply_height_filter_ok _ _ _ H) as Hh.
  rewrite (apply_height_filter_eq gdf f Hh) in H. injection H as <-.
  rewrite apply_height_filter_eq by (apply has_height_filter; exact Hh).
  rewrite filter_idem. reflexivity.
Qed.



(** [add_colour_column] keeps the rows in place: same number of rows,
    each with its geometry and every cell other than [color] and
    [height_numeric] untouched; the row gains a string colour and the
    coerced height. *)
Theorem add_colour_column_preserves (gdf coloured : GeoDataFrame geom) :
  add_colour_column str_to_numeric gdf = Ok coloured ->
  Forall2 (fun r r' =>
             geometry r' = geometry r
             /\ (exists c, lookup "color" (attrs r') = Some (VScalar (SStr c)))
             /\ lookup "height_numeric" (attrs r')
                = Some (VScalar (SNpFloat
                                   (to_numeric str_to_numeric (height_cell r))))
             /\ forall k, k <> "color" -> k <> "height_numeric" ->
                          lookup k (attrs r') = lookup k (attrs r))
          gdf coloured.
Proof.
  intros H. apply add_colour_column_inv in H.
  destruct H as (hn & cs & Hh & Hc & ->).
  apply Forall2_length in Hc.
  unfold numeric_heights in Hh. bind_inv Hh. injection Hh as <-.
  pose proof (column_ok_has_height _ _ Hx) as Hhas.
  rewrite (column_height gdf Hhas) in Hx. injection Hx as <-.
  rewrite !length_map in Hc. rewrite !map_map.
  clear Hhas. revert cs Hc.
  induction gdf as [ | r gdf IH]; intros [ | c cs] Hc; try discriminate;
    [constructor | ].
  unfold set_column in *. simpl. constructor.
  - simpl. split; [reflexivity | ]. split.
    + exists c. apply lookup_set_attr_same.
    + split.
      * rewrite lookup_set_attr_other by discriminate.
        apply lookup_set_attr_same.
      * intros k Hk1 Hk2.
        rewrite !lookup_set_attr_other by (intros E; subst; contradiction).
        reflexivity.
  - apply IH. simpl in Hc. lia.
Qed.

End FilterAndColour.

Lemma apply_height_filter_idempotent_witness :
  apply_height_filter demo_str_to_numeric
    [demo_row "b" (SInt 50); demo_row "d" (SInt 90)]
    (Some (mkFilter ">" (Float.of_Z 40)))
  = Ok [demo_row "b" (SInt 50); demo_row "d" (SInt 90)].
Proof.
  apply (apply_height_filter_idempotent unit demo_str_to_numeric demo_buildings).
  vm_compute. reflexivity.
Defined.


Lemma add_colour_column_preserves_witness :
  Forall2 (fun r r' =>
             geometry r' = geometry r
             /\ (exists c, lookup "color" (attrs r') = Some (VScalar (SStr c)))
             /\ lookup "height_numeric" (attrs r')
                = Some (VScalar (SNpFloat
                                   (to_numeric demo_str_to_numeric (height_cell r))))
             /\ forall k, k <> "color" -> k <> "height_numeric" ->
                          lookup k (attrs r') = lookup k (attrs r))
          demo_buildings demo_coloured.
Proof.
  apply (add_colour_column_preserves unit demo_str_to_numeric).
  vm_compute. reflexivity.
Defined.

(** ** The property normaliser *)


Section NormaliserProperties.

Variable empty_array_truth : pyres bool.



(** Normalising is idempotent on every value that is not a numpy
    [bool_]: what the normaliser returns, it returns again unchanged. *)
Theorem normalize_property_idempotent (v w : pyval) :
  (forall b, v <> VScalar (SNpBool b)) ->
  normalize_property empty_array_truth v = Ok w ->
  normalize_property empty_array_truth w = Ok w.
Proof.
  intros Hnb H. destruct v as [x | l | d].
  - destruct x as [ | b | n | f | s | n | f | b | iso | ];
      try (injection H as <-; reflexivity);
      try (exfalso; apply (Hnb b); reflexivity);
      unfold normalize_property in H; simpl in H;
      destruct (Float.is_nan f) eqn:E; simpl in H; injection H as <-;
      try reflexivity;
      unfold normalize_property; simpl; rewrite E; reflexivity.
  - destruct l as [ | a [ | b l]]; unfold normalize_property in H; simpl in H.
    + destruct empty_array_truth as [[ | ] | e'] eqn:Et; try discriminate;
        simpl in H; injection H as <-; reflexivity.
    + destruct (checknull a) eqn:Ea; simpl in H; injection H as <-;
        [reflexivity | ].
      unfold normalize_property. simpl. rewrite Ea. reflexivity.
    + discriminate.
  - injection H as <-. reflexivity.
Qed.

(** A numpy [bool_] is the one exception: it is normalised to a [bool],
    and a [bool] to an [int]. *)
Lemma normalize_property_npbool_twice (b : bool) :
  normalize_property empty_array_truth (VScalar (SNpBool b))
  = Ok (VScalar (SBool b))
  /\ normalize_property empty_array_truth (VScalar (SBool b))
     = Ok (VScalar (SInt (if b then 1 else 0))).
Proof. split; reflexivity. Qed.

End NormaliserProperties.

Lemma normalize_property_idempotent_witness :
  normalize_property demo_empty_array_truth (VScalar (SStr "2024-01-31T00:00:00"))
  = Ok (VScalar (SStr "2024-01-31T00:00:00")).
Proof.
  apply (normalize_property_idempotent demo_empty_array_truth
           (VScalar (STimestamp "2024-01-31T00:00:00"))).
  - intros b. discriminate.
  - reflexivity.
Defined.

(** ** The response as a whole *)



Lemma fold_left_choice {A : Type} (g : A -> A -> A) (l : list A) (x : A) :
  (forall a y, g a y = a \/ g a y = y) -> In (fold_left g l x) (x :: l).
Proof.
  intros Hg. revert x. induction l as [ | y l IH]; intros x; simpl; [auto | ].
  destruct (IH (g x y)) as [H | H].
  - rewrite <- H. destruct (Hg x y) as [E | E]; rewrite E; auto.
  - right. right. exact H.
Qed.

Lemma series_min_in (l : list Float.float) : l <> [] -> In (series_min l) l.
Proof.
  destruct l as [ | x l]; [contradiction | ]. intros _. unfold series_min.
  apply fold_left_choice. intros a y. destruct (Float.ltb y a); auto.
Qed.

Lemma series_max_in (l : list Float.float) : l <> [] -> In (series_max l) l.
Proof.
  destruct l as [ | x l]; [contradiction | ]. intros _. unfold series_max.
  apply fold_left_choice. intros a y. destruct (Float.ltb a y); auto.
Qed.

Lemma series_valid (l : list Float.float) :
  Forall (fun h => Float.valid h = true) l ->
  Float.valid (series_min l) = true /\ Float.valid (series_max l) = true.
Proof.
  intros H. destruct l as [ | x l']; [split; reflexivity | ].
  rewrite Forall_forall in H.
  split; apply H; [apply series_min_in | apply series_max_in]; discriminate.
Qed.


Lemma dropna_map_nil {A : Type} (g : A -> Float.float) (l : list A) :
  match dropna (map g l) with
  | [] => existsb (fun a => notnull (g a)) l = false
  | _ :: _ => existsb (fun a => notnull (g a)) l = true
  end.
Proof.
  induction l as [ | a l IH]; simpl; [reflexivity | ].
  destruct (notnull (g a)); simpl; [reflexivity | exact IH].
Qed.


Section ResponseProperties.

Variable geom : Type.
Variable geojson : Type.
Variable geo_interface : geom -> pyres geojson.
Variable total_bounds : list (option geom) -> list Float.float.
Variable str_to_numeric : string -> Float.float.
Variable empty_array_truth : pyres bool.
Variable float_repr : Float.float -> string.
Variable series_mean : list Float.float -> Float.float.

Lemma numeric_heights_has_height (gdf : GeoDataFrame geom) :
  has_height gdf = true ->
  numeric_heights str_to_numeric gdf
  = Ok (map (fun r => to_numeric str_to_numeric (height_cell r)) gdf).
Proof.
  intros H. unfold numeric_heights. rewrite (column_height gdf H).
  cbn [bind]. rewrite map_map. reflexivity.
Qed.

Lemma build_insights_cases (filtered : GeoDataFrame geom)
    (filt : option HeightFilter) (total : Z) :
  match filt with Some f => In (op f) OPERATORS | None => True end ->
  exists first rest,
    build_insights str_to_numeric float_repr series_mean filtered filt total
    = Ok (first :: match_sentence (len filtered) total :: rest)
    /\ List.length rest
       = if has_height filtered && some_numeric_height str_to_numeric filtered
         then 1%nat else 0%nat.
Proof.
  intros Hop. unfold build_insights.
  assert (Hfirst : exists first,
    match filt with
    | Some f =>
        match lookup (op f) op_text with
        | Some t =>
            Ok ("Showing buildings with height " ++ t ++ " "
                  ++ float_repr (val f) ++ " m.")%string
        | None => Raise KeyError
        end
    | None => Ok "Showing all buildings."
    end = Ok first).
  { destruct filt as [f | ]; [ | eauto].
    destruct (operator_has_text (op f) Hop) as [t ->]. eauto. }
  destruct Hfirst as [first ->]. exists first. cbn [bind]. cbv zeta.
  destruct filtered as [ | r0 filtered'] eqn:Ef.
  - exists []. split; reflexivity.
  - rewrite <- Ef. replace (empty filtered) with false by (rewrite Ef; reflexivity).
    cbn [negb andb].
    destruct (has_height filtered) eqn:Hh; cbn [andb].
    + rewrite (numeric_heights_has_height filtered Hh). cbn [bind].
      unfold some_numeric_height.
      pose proof (dropna_map_nil
                    (fun r => to_numeric str_to_numeric (height_cell r))
                    filtered) as Hd.
      destruct (dropna (map (fun r => to_numeric str_to_numeric (height_cell r))
                            filtered)) as [ | h0 hs];
        rewrite Hd.
      * exists []. split; reflexivity.
      * eexists. split; reflexivity.
    + exists []. split; reflexivity.
Qed.


Lemma filter_length_le {A : Type} (P : A -> bool) (l : list A) :
  (List.length (filter P l) <= List.length l)%nat.
Proof.
  induction l as [ | a l IH]; simpl; [lia | ].
  destruct (P a); simpl; lia.
Qed.

Lemma apply_height_filter_incl (gdf subset : GeoDataFrame geom)
    (filt : option HeightFilter) :
  apply_height_filter str_to_numeric gdf filt = Ok subset ->
  incl subset gdf /\ (List.length subset <= List.length gdf)%nat
  /\ (filt = None -> subset = gdf)
  /\ (has_height gdf = true -> has_height subset = true).
Proof.
  intros H. destruct filt as [f | ].
  - pose proof (apply_height_filter_ok _ _ _ _ _ H) as Hh.
    rewrite (apply_height_filter_eq _ _ gdf f Hh) in H. injection H as <-.
    split; [ | split; [ | split]].
    + intros r Hr. apply filter_In in Hr. tauto.
    + apply filter_length_le.
    + discriminate.
    + intros _. apply has_height_filter. exact Hh.
  - injection H as <-. split; [ | split; [ | split]]; auto.
    apply incl_refl.
Qed.


Lemma canonical_heights_incl (gdf subset : GeoDataFrame geom) :
  incl subset gdf ->
  canonical_heights str_to_numeric gdf = true ->
  canonical_heights str_to_numeric subset = true.
Proof.
  unfold canonical_heights. rewrite !forallb_forall. intros Hi H r Hr.
  apply H, Hi, Hr.
Qed.


Lemma range_valid (gdf : GeoDataFrame geom) :
  canonical_heights str_to_numeric gdf = true ->
  Float.valid
    (series_min (dropna (map (fun r => to_numeric str_to_numeric (height_cell r))
                             gdf))) = true
  /\ Float.valid
       (series_max (dropna (map (fun r => to_numeric str_to_numeric (height_cell r))
                                gdf))) = true.
Proof.
  intros Hv. apply series_valid. apply Forall_forall. intros h Hin.
  unfold dropna in Hin. apply filter_In in Hin. destruct Hin as [Hin _].
  apply in_map_iff in Hin. destruct Hin as (r & <- & Hr).
  unfold canonical_heights in Hv. rewrite forallb_forall in Hv. auto.
Qed.


Lemma add_colour_column_length (gdf coloured : GeoDataFrame geom) :
  add_colour_column str_to_numeric gdf = Ok coloured ->
  List.length coloured = List.length gdf.
Proof.
  intros H. apply add_colour_column_inv in H.
  destruct H as (hn & cs & Hh & Hc & ->).
  pose proof (numeric_heights_length _ _ _ _ Hh) as Hlen.
  pose proof (Forall2_length Hc) as Hlen'.
  rewrite !set_column_length; rewrite ?length_map; try lia.
  rewrite set_column_length; rewrite ?length_map; lia.
Qed.





(** The count reported is the count returned: the second insight of
    every response is the match sentence on the number of features of
    that response and the size of the collection; the features are never
    more than the collection holds, and at most one sentence follows. *)
Theorem query_geo_counts (buildings : GeoDataFrame geom)
    (request_text : string) (resp : GeoResponse geojson) :
  query_geo geo_interface total_bounds str_to_numeric empty_array_truth
    float_repr series_mean (Some buildings) request_text = Ok resp ->
  exists first rest,
    insights resp
    = first :: match_sentence (Z.of_nat (List.length (features resp)))
                 (len buildings) :: rest
    /\ (List.length rest <= 1)%nat
    /\ (List.length (features resp) <= List.length buildings)%nat.
Proof.
  unfold query_geo. intros H.
  bind_inv H. rename x into filt, Hx into Hp.
  bind_inv H. rename x into subset, Hx into Ha.
  bind_inv H. rename x into coloured, Hx into Hc.
  bind_inv H. rename x into fs, Hx into Hs.
  bind_inv H. rename x into ins, Hx into Hi.
  bind_inv H. rename x into leg, Hx into Hl.
  injection H as <-. cbn [features insights].
  assert (Hop : match filt with
                | Some f => In (op f) OPERATORS
                | None => True
                end).
  { destruct filt as [f | ]; [ | exact I]. eapply parse_operator; eauto. }
  destruct (build_insights_cases coloured filt (len buildings) Hop)
    as (first & rest & Hb & Hrest).
  rewrite Hb in Hi. injection Hi as <-.
  pose proof (Forall2_length (mapM_Forall2 _ _ _ Hs)) as Hfs.
  pose proof (add_colour_column_length _ _ Hc) as Hcl.
  destruct (apply_height_filter_incl _ _ _ Ha) as (_ & Hle & _ & _).
  exists first, rest. split; [ | split].
  - unfold len. rewrite Hfs. reflexivity.
  - rewrite Hrest. destruct (_ && _); lia.
  - lia.
Qed.

(** A request that holds no decimal digit returns the whole collection:
    one feature per building, under the sentence "Showing all buildings." *)
Theorem query_without_number (buildings : GeoDataFrame geom)
    (request_text : string) (resp : GeoResponse geojson) :
  forallb (fun c => negb (is_digit c)) (chars request_text) = true ->
  query_geo geo_interface total_bounds str_to_numeric empty_array_truth
    float_repr series_mean (Some buildings) request_text = Ok resp ->
  List.length (features resp) = List.length buildings
  /\ hd_error (insights resp) = Some "Showing all buildings.".
Proof.
  intros Hnd. unfold query_geo. intros H.
  bind_inv H. rename x into filt, Hx into Hp.
  assert (Hnone : filt = None).
  { unfold parse_height_filter in Hp.
    destruct (String.eqb request_text ""); [congruence | ].
    destruct (search HEIGHT_REGEX request_text) as [m | ] eqn:Es; [ | congruence].
    exfalso. destruct (search_needs_digit _ _ Es) as (c & Hin & Hc).
    rewrite forallb_forall in Hnd. specialize (Hnd c Hin).
    rewrite Hc in Hnd. discriminate. }
  subst filt.
  bind_inv H. rename x into subset, Hx into Ha.
  bind_inv H. rename x into coloured, Hx into Hc.
  bind_inv H. rename x into fs, Hx into Hs.
  bind_inv H. rename x into ins, Hx into Hi.
  bind_inv H. rename x into leg, Hx into Hl.
  injection H as <-. cbn [features insights].
  injection Ha as <-.
  pose proof (Forall2_length (mapM_Forall2 _ _ _ Hs)) as Hfs.
  pose proof (add_colour_column_length _ _ Hc) as Hcl.
  split; [lia | ].
  destruct (build_insights_cases coloured None (len buildings) I)
    as (first & rest & Hb & _).
  rewrite Hb in Hi. injection Hi as <-.
  unfold build_insights in Hb. cbn [bind] in Hb. cbv zeta in Hb.
  destruct (negb (empty coloured) && has_height coloured).
  - bind_inv Hb. destruct (dropna x); injection Hb as <-; reflexivity.
  - injection Hb as <-. reflexivity.
Qed.

Lemma Forall2_chain {A B C : Type} (P : A -> C -> Prop) (Q : B -> C -> Prop)
    (R : A -> B -> Prop) (la : list A) (lb : list B) (lc : list C) :
  (forall a b c, P a c -> Q b c -> R a b) ->
  Forall2 P la lc -> Forall2 Q lb lc -> Forall2 R la lb.
Proof.
  intros HR HP. revert lb.
  induction HP as [ | a c la lc Hac _ IH]; intros lb HQ;
    inversion HQ; subst; constructor; eauto.
Qed.

(** The ends of the gradient in a response. When the heights of the
    result are canonical and not all equal, the upper colour of the
    legend is pure red and every feature as tall as the tallest is
    coloured pure red; when the lowest height is finite, the lower colour
    of the legend and the features of that height are [#00ff00]. *)
Theorem query_geo_extremes (buildings subset : GeoDataFrame geom)
    (request_text : string) (resp : GeoResponse geojson)
    (filt : option HeightFilter) (hn : list Float.float) :
  canonical_heights str_to_numeric buildings = true ->
  query_geo geo_interface total_bounds str_to_numeric empty_array_truth
    float_repr series_mean (Some buildings) request_text = Ok resp ->
  parse_height_filter request_text = Ok filt ->
  apply_height_filter str_to_numeric buildings filt = Ok subset ->
  numeric_heights str_to_numeric subset = Ok hn ->
  Float.ltb (series_min (dropna hn)) (series_max (dropna hn)) = true ->
  high (color_legend resp) = "#ff0000"
  /\ (Float.is_finite (series_min (dropna hn)) = true ->
      low (color_legend resp) = "#00ff00")
  /\ Forall2 (fun f h =>
                (h = series_max (dropna hn) ->
                 lookup "color" (properties f) = Some (VScalar (SStr "#ff0000")))
                /\ (h = series_min (dropna hn) -> Float.is_finite h = true ->
                    lookup "color" (properties f)
                    = Some (VScalar (SStr "#00ff00"))))
             (features resp) hn.
Proof.
  intros Hv H Hp Ha Hn Hlt. unfold query_geo in H.
  rewrite Hp in H. cbn [bind] in H. rewrite Ha in H. cbn [bind] in H.
  bind_inv H. rename x into coloured, Hx into Hc.
  bind_inv H. rename x into fs, Hx into Hs.
  bind_inv H. rename x into ins, Hx into Hi.
  bind_inv H. rename x into leg, Hx into Hl.
  injection H as <-. cbn [features color_legend].
  destruct (apply_height_filter_incl _ _ _ Ha) as (Hincl & _ & _ & _).
  pose proof (canonical_heights_incl _ _ Hincl Hv) as Hvs.
  assert (Hhs : has_height subset = true).
  { unfold numeric_heights in Hn. bind_inv Hn.
    eapply column_ok_has_height. exact Hx. }
  destruct (range_valid subset Hvs) as [Vlo Vhi].
  pose proof Hn as Hn'.
  rewrite (numeric_heights_has_height subset Hhs) in Hn'.
  injection Hn' as Hmap. rewrite Hmap in Vlo, Vhi. clear Hmap.
  destruct (ltb_not_nan _ _ Hlt) as [Hnl Hnh].
  pose proof (add_colour_column_heights _ _ _ _ Hc) as Hheights.
  pose proof (add_colour_column_length _ _ Hc) as Hlen.
  pose proof (numeric_heights_length _ _ _ _ Hn) as Hlenh.
  assert (Hne : empty coloured = false).
  { destruct coloured as [ | r0 c0]; [ | reflexivity].
    simpl in Hlen. destruct hn as [ | h0 hn0]; [discriminate | ].
    simpl in Hlenh. lia. }
  rewrite Hne in Hl. cbn [negb] in Hl. rewrite Hheights, Hn in Hl.
  cbn [bind] in Hl. cbv zeta in Hl.
  bind_inv Hl. rename x into lo_c, Hx into Hlo.
  bind_inv Hl. rename x into hi_c, Hx into Hhi.
  injection Hl as <-. cbn [high low].
  rewrite (height_to_color_upper _ _ Vlo Vhi Hlt) in Hhi.
  injection Hhi as <-.
  split; [reflexivity | ]. split.
  - intros Hf. rewrite (height_to_color_lower _ _ Vlo Vhi Hlt Hf) in Hlo.
    injection Hlo as <-. reflexivity.
  - destruct (add_colour_column_inv _ _ _ _ Hc) as (hn' & cs & Hh' & Hcs & ->).
    rewrite Hn in Hh'. injection Hh' as <-.
    pose proof (Forall2_length Hcs) as Hlen'.
    apply serialize_colours in Hs; [ | lia | lia].
    eapply Forall2_chain; [ | exact Hs | exact Hcs].
    intros f h c Hf Hh. cbv beta in Hf, Hh. unfold colour_in_range in Hh.
    split.
    + intros ->. unfold notnull in Hh. rewrite Hnh in Hh. cbn [negb] in Hh.
      rewrite (height_to_color_upper _ _ Vlo Vhi Hlt) in Hh.
      injection Hh as <-. exact Hf.
    + intros -> Hfin. unfold notnull in Hh. rewrite Hnl in Hh. cbn [negb] in Hh.
      rewrite (height_to_color_lower _ _ Vlo Vhi Hlt Hfin) in Hh.
      injection Hh as <-. exact Hf.
Qed.

End ResponseProperties.


Lemma query_geo_counts_witness :
  exists first rest,
    insights demo_response
    = first :: match_sentence (Z.of_nat (List.length (features demo_response)))
                 (len demo_buildings) :: rest
    /\ (List.length rest <= 1)%nat
    /\ (List.length (features demo_response) <= List.length demo_buildings)%nat.
Proof.
  apply (query_geo_counts unit unit demo_geo_interface demo_total_bounds
           demo_str_to_numeric demo_empty_array_truth demo_repr demo_mean
           demo_buildings "height > 40" demo_response).
  vm_compute. reflexivity.
Defined.

Lemma query_without_number_witness :
  List.length (features demo_all_response) = List.length demo_buildings
  /\ hd_error (insights demo_all_response) = Some "Showing all buildings.".
Proof.
  apply (query_without_number unit unit demo_geo_interface demo_total_bounds
           demo_str_to_numeric demo_empty_array_truth demo_repr demo_mean
           demo_buildings "show all buildings" demo_all_response);
    vm_compute; reflexivity.
Defined.

Lemma query_geo_extremes_witness :
  high (color_legend demo_all_response) = "#ff0000"
  /\ (Float.is_finite
        (series_min (dropna [Float.of_Z 10; Float.of_Z 50; Float.nan;
                             Float.of_Z 90])) = true ->
      low (color_legend demo_all_response) = "#00ff00")
  /\ Forall2 (fun f h =>
                (h = series_max (dropna [Float.of_Z 10; Float.of_Z 50; Float.nan;
                                         Float.of_Z 90]) ->
                 lookup "color" (properties f) = Some (VScalar (SStr "#ff0000")))
                /\ (h = series_min (dropna [Float.of_Z 10; Float.of_Z 50;
                                            Float.nan; Float.of_Z 90]) ->
                    Float.is_finite h = true ->
                    lookup "color" (properties f)
                    = Some (VScalar (SStr "#00ff00"))))
             (features demo_all_response)
             [Float.of_Z 10; Float.of_Z 50; Float.nan; Float.of_Z 90].
Proof.
  apply (query_geo_extremes unit unit demo_geo_interface demo_total_bounds
           demo_str_to_numeric demo_empty_array_truth demo_repr demo_mean
           demo_buildings demo_buildings "show all buildings"
           demo_all_response None);
    vm_compute; reflexivity.
Defined.

(** ** The order of the thresholds *)

Lemma valid_exponent (s : bool) (m : positive) (e : Z) :
  Float.valid (S754_finite s m e) = true -> e <= 971.
Proof.
  unfold Float.valid, valid_binary, bounded.
  intros H. apply andb_prop in H. destruct H as [_ He].
  apply Z.leb_le in He. exact He.
Qed.

Lemma scaled_bound (x : Float.float) :
  Float.valid x = true -> - 2 ^ 2098 < scaled x < 2 ^ 2098.
Proof.
  intros V. pose proof (pow2_pos 2098 ltac:(lia)) as HB.
  destruct x as [s | s | | s m e]; unfold scaled; try lia.
  pose proof (valid_exponent _ _ _ V) as He.
  apply valid_finite in V. destruct V as (Hlo & Hm & _).
  assert (Hp : 2 ^ (e + 1074) <= 2 ^ 2045) by (apply Z.pow_le_mono_r; lia).
  pose proof (pow2_pos (e + 1074) ltac:(lia)) as Hpos.
  assert (Hs : 2 ^ 2098 = 2 ^ 53 * 2 ^ 2045).
  { rewrite <- (pow2_split 53 2045) by lia. reflexivity. }
  remember (2 ^ 2098) as B. remember (2 ^ 2045) as C.
  remember (2 ^ (e + 1074)) as P. remember (2 ^ 53) as D.
  assert (Zpos m * P < B) by nia.
  destruct s; unfold cond_Zopp; lia.
Qed.

Lemma SFcompare_rank (x y : Float.float) :
  Float.valid x = true -> Float.valid y = true ->
  Float.is_nan x = false -> Float.is_nan y = false ->
  SFcompare x y = Some (rank x ?= rank y).
Proof.
  intros Vx Vy Nx Ny.
  pose proof (scaled_bound x Vx) as Bx. pose proof (scaled_bound y Vy) as By.
  pose proof (pow2_pos 2098 ltac:(lia)) as HB.
  destruct (Float.is_finite x) eqn:Fx; destruct (Float.is_finite y) eqn:Fy.
  - rewrite (SFcompare_scaled x y Vx Vy Fx Fy).
    destruct x, y; try discriminate; reflexivity.
  - destruct y as [sy | sy | | sy my ey]; try discriminate.
    assert (Hr : rank x = scaled x) by (destruct x; try discriminate; reflexivity).
    rewrite Hr. unfold rank. remember (2 ^ 2098) as B.
    destruct x as [sx | sx | | sx mx ex]; try discriminate;
      unfold SFcompare; f_equal; symmetry; destruct sy; unfold cond_Zopp;
      (apply Z.compare_gt_iff; lia) || (apply Z.compare_lt_iff; lia).
  - destruct x as [sx | sx | | sx mx ex]; try discriminate.
    assert (Hr : rank y = scaled y) by (destruct y; try discriminate; reflexivity).
    rewrite Hr. unfold rank. remember (2 ^ 2098) as B.
    destruct y as [sy | sy | | sy my ey]; try discriminate;
      unfold SFcompare; f_equal; symmetry; destruct sx; unfold cond_Zopp;
      (apply Z.compare_gt_iff; lia) || (apply Z.compare_lt_iff; lia).
  - destruct x as [sx | sx | | sx mx ex]; try discriminate.
    destruct y as [sy | sy | | sy my ey]; try discriminate.
    unfold rank. remember (2 ^ 2098) as B.
    unfold SFcompare; f_equal; symmetry; destruct sx, sy; unfold cond_Zopp;
      (apply Z.compare_gt_iff; lia) || (apply Z.compare_lt_iff; lia)
      || (apply Z.compare_eq_iff; lia).
Qed.

Lemma leb_not_nan (x y : Float.float) :
  Float.leb x y = true -> Float.is_nan x = false /\ Float.is_nan y = false.
Proof.
  destruct x, y; try discriminate; split; reflexivity.
Qed.

Lemma compare_op_monotone (o : string) (h v1 v2 : Float.float) :
  Float.valid h = true -> Float.valid v1 = true -> Float.valid v2 = true ->
  Float.leb v1 v2 = true ->
  ((o = ">" \/ o = ">=") ->
   compare_op o h v2 = true -> compare_op o h v1 = true)
  /\ ((o = "<" \/ o = "<=") ->
      compare_op o h v1 = true -> compare_op o h v2 = true).
Proof.
  intros Vh V1 V2 Hle. destruct (leb_not_nan _ _ Hle) as [N1 N2].
  destruct (Float.is_nan h) eqn:Nh.
  { split; intros _ H; rewrite compare_nan_l in H by assumption; discriminate. }
  pose proof (SFcompare_rank v1 v2 V1 V2 N1 N2) as C12.
  pose proof (SFcompare_rank h v1 Vh V1 Nh N1) as Ch1.
  pose proof (SFcompare_rank h v2 Vh V2 Nh N2) as Ch2.
  pose proof (SFcompare_rank v1 h V1 Vh N1 Nh) as C1h.
  pose proof (SFcompare_rank v2 h V2 Vh N2 Nh) as C2h.
  unfold Float.leb, SFleb in Hle. rewrite C12 in Hle.
  assert (H12 : rank v1 <= rank v2).
  { destruct (Z.compare_spec (rank v1) (rank v2)); try lia; discriminate. }
  clear Hle C12.
  split; intros [-> | ->]; unfold compare_op; simpl;
    unfold Float.gtb, Float.geb, Float.ltb, Float.leb, SFltb, SFleb;
    rewrite ?Ch1, ?Ch2, ?C1h, ?C2h;
    repeat match goal with
           | |- context [(?a ?= ?b)] => destruct (Z.compare_spec a b)
           end; intros; try reflexivity; try discriminate; lia.
Qed.

Section ThresholdOrder.

Variable geom : Type.
Variable str_to_numeric : string -> Float.float.

(** Moving the threshold up never adds a building to a [>] or [>=]
    filter and never removes one from a [<] or [<=] filter. *)
Theorem filter_threshold_monotone (gdf at_v1 at_v2 : GeoDataFrame geom)
    (o : string) (v1 v2 : Float.float) :
  canonical_heights str_to_numeric gdf = true ->
  Float.valid v1 = true -> Float.valid v2 = true ->
  Float.leb v1 v2 = true ->
  apply_height_filter str_to_numeric gdf (Some (mkFilter o v1)) = Ok at_v1 ->
  apply_height_filter str_to_numeric gdf (Some (mkFilter o v2)) = Ok at_v2 ->
  ((o = ">" \/ o = ">=") -> incl at_v2 at_v1)
  /\ ((o = "<" \/ o = "<=") -> incl at_v1 at_v2).
Proof.
  intros Hv V1 V2 Hle H1 H2.
  pose proof (apply_height_filter_ok _ _ _ _ _ H1) as Hh.
  rewrite (apply_height_filter_eq _ str_to_numeric gdf (mkFilter o v1) Hh) in H1.
  rewrite (apply_height_filter_eq _ str_to_numeric gdf (mkFilter o v2) Hh) in H2.
  injection H1 as <-. injection H2 as <-. cbn [op val].
  unfold canonical_heights in Hv. rewrite forallb_forall in Hv.
  split; intros Ho r Hr; apply filter_In in Hr; destruct Hr as [Hin Hr];
    apply filter_In; (split; [exact Hin | ]);
    destruct (compare_op_monotone o _ v1 v2 (Hv r Hin) V1 V2 Hle) as [Hup Hdown];
    auto.
Qed.

End ThresholdOrder.

Lemma filter_threshold_monotone_witness :
  ((">" = ">" \/ ">" = ">=")%string ->
   incl [demo_row "d" (SInt 90)]
        [demo_row "b" (SInt 50); demo_row "d" (SInt 90)])
  /\ ((">" = "<" \/ ">" = "<=")%string ->
      incl [demo_row "b" (SInt 50); demo_row "d" (SInt 90)]
           [demo_row "d" (SInt 90)]).
Proof.
  apply (filter_threshold_monotone unit demo_str_to_numeric demo_buildings
           _ _ ">" (Float.of_Z 40) (Float.of_Z 60));
    vm_compute; reflexivity.
Defined.

(** ** Phrasings and their operators *)

Lemma rep_match_probe {R S : Type} (lazy : bool) (k : cclass)
    (rest : list ascii) :
  forall (lo : nat) (hi : option nat) (st : mstate)
         (k0 : @cont S) (k1 : @cont R),
    (forall a b, k0 a b = None -> k1 a b = None) ->
    match rep_match lazy k lo hi rest st k0 with
    | None => rep_match lazy k lo hi rest st k1 = None
    | Some x =>
        exists a b, k0 a b = Some x
                    /\ forall v, k1 a b = Some v ->
                                 rep_match lazy k lo hi rest st k1 = Some v
    end.
Proof.
  induction rest as [ | c rest IH]; intros lo hi st k0 k1 H.
  - simpl. destruct lazy, lo; simpl; try reflexivity;
      destruct (k0 [] st) eqn:E; try (rewrite (H _ _ E); reflexivity);
      exists [], st; (split; [exact E | ]); intros v Hv; rewrite Hv; reflexivity.
  - simpl.
    set (s0 := match lo with O => k0 (c :: rest) st | S _ => None end).
    set (s1 := match lo with O => k1 (c :: rest) st | S _ => None end).
    set (m0 := if in_class k c && may_take hi
               then rep_match lazy k (pred lo) (dec_bound hi) rest (advance c st) k0
               else None).
    set (m1 := if in_class k c && may_take hi
               then rep_match lazy k (pred lo) (dec_bound hi) rest (advance c st) k1
               else None).
    assert (Hs : match s0 with
                 | None => s1 = None
                 | Some x => exists a b, k0 a b = Some x
                                         /\ forall v, k1 a b = Some v -> s1 = Some v
                 end).
    { subst s0 s1. destruct lo; [ | reflexivity].
      destruct (k0 (c :: rest) st) eqn:E; [ | exact (H _ _ E)].
      exists (c :: rest), st. split; [exact E | ]. auto. }
    assert (Hm : match m0 with
                 | None => m1 = None
                 | Some x => exists a b, k0 a b = Some x
                                         /\ forall v, k1 a b = Some v -> m1 = Some v
                 end).
    { subst m0 m1. destruct (in_class k c && may_take hi); [ | reflexivity].
      apply IH. exact H. }
    clearbody s0 s1 m0 m1.
    destruct lazy.
    + destruct s0 as [x | ].
      * destruct Hs as (a & b & Hk & Hv). exists a, b. split; [exact Hk | ].
        intros v Hkv. rewrite (Hv v Hkv). reflexivity.
      * rewrite Hs. exact Hm.
    + destruct m0 as [x | ].
      * destruct Hm as (a & b & Hk & Hv). exists a, b. split; [exact Hk | ].
        intros v Hkv. rewrite (Hv v Hkv). reflexivity.
      * rewrite Hm. exact Hs.
Qed.

(** Two continuations of which the second fails wherever the first does:
    the matcher fails on the second when it does on the first, and where
    the first run stops, the second run stops too if its continuation
    accepts there. *)
Lemma re_match_probe {R S : Type} (r : regex) :
  forall (rest : list ascii) (st : mstate) (k0 : @cont S) (k1 : @cont R),
    (forall a b, k0 a b = None -> k1 a b = None) ->
    match re_match r rest st k0 with
    | None => re_match r rest st k1 = None
    | Some x =>
        exists a b, k0 a b = Some x
                    /\ forall v, k1 a b = Some v -> re_match r rest st k1 = Some v
    end.
Proof.
  induction r as [p | | | r1 IH1 r2 IH2 | r1 IH1 r2 IH2 | lazy k lo hi | name r IH];
    intros rest st k0 k1 H; simpl.
  - destruct rest as [ | c rest]; [reflexivity | ].
    destruct (ci_eqb p c); [ | reflexivity].
    destruct (k0 rest (advance c st)) eqn:E; [ | exact (H _ _ E)].
    exists rest, (advance c st). split; [exact E | ]. auto.
  - destruct (at_boundary st rest); [ | reflexivity].
    destruct (k0 rest st) eqn:E; [ | exact (H _ _ E)].
    exists rest, st. split; [exact E | ]. auto.
  - destruct (k0 rest st) eqn:E; [ | exact (H _ _ E)].
    exists rest, st. split; [exact E | ]. auto.
  - assert (H2 : forall a b, re_match r2 a b k0 = None -> re_match r2 a b k1 = None).
    { intros a b E. pose proof (IH2 a b k0 k1 H) as P. rewrite E in P. exact P. }
    pose proof (IH1 rest st (fun a b => re_match r2 a b k0)
                  (fun a b => re_match r2 a b k1) H2) as P1.
    destruct (re_match r1 rest st (fun a b => re_match r2 a b k0)) as [x | ];
      [ | exact P1].
    destruct P1 as (a & b & Ha & Hv).
    pose proof (IH2 a b k0 k1 H) as P2. rewrite Ha in P2.
    destruct P2 as (a' & b' & Ha' & Hv').
    exists a', b'. split; [exact Ha' | ].
    intros v Hk. apply Hv. apply Hv'. exact Hk.
  - pose proof (IH1 rest st k0 k1 H) as P1.
    pose proof (IH2 rest st k0 k1 H) as P2.
    destruct (re_match r1 rest st k0) as [x | ].
    + destruct P1 as (a & b & Ha & Hv). exists a, b. split; [exact Ha | ].
      intros v Hk. rewrite (Hv v Hk). reflexivity.
    + rewrite P1. exact P2.
  - apply rep_match_probe. exact H.
  - pose proof (IH rest st
                  (fun rest' st' =>
                     k0 rest' (set_group name
                                 (firstn (st_pos st' - st_pos st) rest) st'))
                  (fun rest' st' =>
                     k1 rest' (set_group name
                                 (firstn (st_pos st' - st_pos st) rest) st'))
                  (fun a b => H _ _)) as P.
    destruct (re_match r rest st _) as [x | ]; [ | exact P].
    destruct P as (a & b & Ha & Hv). eexists. eexists. split; [exact Ha | ].
    exact Hv.
Qed.

Lemma height_regex_split {R : Type} (rest : list ascii) (st : mstate)
    (kont : @cont R) :
  re_match HEIGHT_REGEX rest st kont
  = re_match BEFORE_VAL rest st (fun a b => re_match FROM_VAL a b kont).
Proof. reflexivity. Qed.

Lemma probe_inv (a a' : list ascii) (b b' : mstate) :
  probe a b = Some (a', b') -> a' = a /\ b' = b.
Proof.
  unfold probe. destruct a as [ | c a]; [discriminate | ].
  destruct (is_digit c); [ | discriminate].
  intros H. injection H as <- <-. split; reflexivity.
Qed.

Lemma from_val_needs_digit {R : Type} (a : list ascii) (b : mstate)
    (kont : @cont R) :
  probe a b = None -> re_match FROM_VAL a b kont = None.
Proof.
  unfold probe, FROM_VAL, VAL, digits1. intros H.
  cbn [re_match]. destruct a as [ | c a]; [reflexivity | ].
  destruct (is_digit c) eqn:E; [discriminate | ].
  cbn [rep_match in_class]. rewrite E. reflexivity.
Qed.

(** A greedy run of digits takes all of them when what follows accepts. *)
Lemma digits_run {R : Type} (d rest : list ascii) :
  forall (lo : nat) (st : mstate) (kont : @cont R) (v : R),
    Forall (fun c => is_digit c = true) d ->
    starts_digit rest = false ->
    (lo <= List.length d)%nat ->
    kont rest (after d [] st) = Some v ->
    rep_match false CDigit lo None (d ++ rest) st kont = Some v.
Proof.
  induction d as [ | c d IH]; intros lo st kont v Hd Hr Hlo Hk.
  - simpl in Hlo. assert (lo = 0%nat) by lia. subst lo.
    rewrite after_nil in Hk.
    destruct rest as [ | c rest]; simpl; [exact Hk | ].
    simpl in Hr. rewrite Hr. simpl. exact Hk.
  - inversion Hd as [ | c' d' Hc Hd']; subst.
    rewrite <- after_cons in Hk.
    change ((c :: d) ++ rest)%list with (c :: (d ++ rest))%list.
    cbn [rep_match in_class may_take andb]. rewrite Hc. cbn [andb dec_bound].
    rewrite (IH (pred lo) (advance c st) kont v Hd' Hr); [reflexivity | | exact Hk].
    simpl in Hlo. lia.
Qed.

Lemma rep0_total {R : Type} (k : cclass) (hi : option nat) (rest : list ascii)
    (st : mstate) (kont : @cont R) :
  (forall a b, kont a b <> None) ->
  rep_match false k 0 hi rest st kont <> None.
Proof.
  intros HK. destruct rest as [ | c rest]; simpl.
  - apply HK.
  - destruct (if in_class k c && may_take hi
              then rep_match false k 0 (dec_bound hi) rest (advance c st) kont
              else None); [discriminate | apply HK].
Qed.

Lemma unit_total (rest : list ascii) (st : mstate) :
  exists m, re_match UNIT rest st (fun _ s => Some s) = Some m
            /\ st_groups m = st_groups st.
Proof.
  destruct (re_match UNIT rest st (fun _ s => Some s)) as [m | ] eqn:E.
  - exists m. split; [reflexivity | ].
    apply re_match_sound in E. destruct E as (w & rest' & gs & _ & L & Hm).
    injection Hm as <-.
    rewrite (lang_no_group UNIT w gs eq_refl L). reflexivity.
  - exfalso. revert E. unfold UNIT, spaces0, opt. cbn [re_match].
    apply rep0_total. intros a b.
    destruct (re_match (word "m") a b (fun _ s => Some s)); [discriminate | ].
    destruct (re_match (word "meter") a b _); discriminate.
Qed.

Lemma ends_number_starts (rest : list ascii) :
  ends_number rest = true -> starts_digit rest = false.
Proof.
  destruct rest as [ | c rest]; [reflexivity | ]. simpl.
  destruct (is_digit c); [discriminate | reflexivity].
Qed.

Lemma firstn_run (pos : nat) (w rest : list ascii) :
  firstn (pos + List.length w - pos) (w ++ rest) = w.
Proof.
  replace (pos + List.length w - pos)%nat with (List.length w + 0)%nat by lia.
  rewrite firstn_app_2. simpl. apply app_nil_r.
Qed.

(** From a number on, the pattern takes the whole literal and closes the
    group [val] on it, whatever follows it. *)
Lemma from_val_literal (v rest : list ascii) (st : mstate) :
  literal v -> ends_number rest = true ->
  exists m, re_match FROM_VAL (v ++ rest) st (fun _ s => Some s) = Some m
            /\ st_groups m = ("val", v) :: st_groups st.
Proof.
  intros (ip & Hip & Hv) Hend.
  pose proof (all_digits_Forall ip Hip) as Fip.
  unfold FROM_VAL, VAL, digits1, opt. cbn [re_match].
  destruct Hv as [-> | (fp & Hfp & ->)].
  - destruct (unit_total rest
                (set_group "val" ip (after ip [] st))) as (m & Hm & Hg).
    exists m. split; [ | rewrite Hg; reflexivity].
    apply digits_run; [exact Fip | apply ends_number_starts; exact Hend | | ].
    + destruct ip; [discriminate | simpl; lia].
    + destruct rest as [ | c rest].
      * cbn [st_pos after]. rewrite firstn_run. exact Hm.
      * simpl in Hend. apply andb_true_iff in Hend. destruct Hend as [_ Hdot].
        destruct (ci_eqb "." c) eqn:E.
        { apply ci_eqb_dot in E. subst c. discriminate. }
        cbn [st_pos after]. rewrite firstn_run. exact Hm.
  - pose proof (all_digits_Forall fp Hfp) as Ffp.
    destruct (unit_total rest
                (set_group "val" (ip ++ "."%char :: fp)
                   (after fp [] (advance "."%char (after ip [] st)))))
      as (m & Hm & Hg).
    exists m. split; [ | rewrite Hg; reflexivity].
    rewrite <- app_assoc.
    apply digits_run; [exact Fip | reflexivity | | ].
    + destruct ip; [discriminate | simpl; lia].
    + change (("."%char :: fp) ++ rest)%list with ("."%char :: (fp ++ rest))%list.
      change (ci_eqb "." ".") with true. cbv iota.
      rewrite (digits_run fp rest 1 (advance "."%char (after ip [] st)) _ m);
        [reflexivity | exact Ffp | apply ends_number_starts; exact Hend | | ].
      * destruct fp; [discriminate | simpl; lia].
      * cbn [st_pos after advance].
        assert (Hf : firstn (S (st_pos st + List.length ip) + List.length fp
                             - st_pos st) (ip ++ "."%char :: fp ++ rest)
                     = (ip ++ "."%char :: fp)%list).
        { assert (Hl : List.length (ip ++ "."%char :: fp)
                       = S (List.length ip + List.length fp)).
          { rewrite length_app. cbn [List.length]. lia. }
          replace (S (st_pos st + List.length ip) + List.length fp - st_pos st)%nat
            with (List.length (ip ++ "."%char :: fp) + 0)%nat by lia.
          replace (ip ++ "."%char :: fp ++ rest)%list
            with ((ip ++ "."%char :: fp) ++ rest)%list
            by (rewrite <- app_assoc; reflexivity).
          rewrite firstn_app_2. simpl. apply app_nil_r. }
        rewrite Hf. exact Hm.
Qed.

(** Where the probe stops, the search matches, with what the rest of the
    pattern returns there. *)
Lemma probe_search_sound (rest : list ascii) :
  forall (prev : option ascii) (pos : nat) (a : list ascii) (b m : mstate),
    probe_search rest prev pos = Some (a, b) ->
    re_match FROM_VAL a b (fun _ s => Some s) = Some m ->
    search_from HEIGHT_REGEX rest prev pos = Some m.
Proof.
  induction rest as [ | c rest IH]; intros prev pos a b m Hp Hm;
    rewrite search_from_eq, height_regex_split.
  - cbn [probe_search] in Hp.
    pose proof (re_match_probe BEFORE_VAL [] (MState prev pos []) probe
                  (fun a b => re_match FROM_VAL a b (fun _ s => Some s))
                  (fun a b => from_val_needs_digit a b _)) as P.
    destruct (re_match BEFORE_VAL [] (MState prev pos []) probe) as [x | ];
      [ | discriminate Hp].
    injection Hp as ->. destruct P as (a' & b' & Ha & Hv).
    apply probe_inv in Ha. destruct Ha as [-> ->].
    rewrite (Hv m Hm). reflexivity.
  - cbn [probe_search] in Hp.
    pose proof (re_match_probe BEFORE_VAL (c :: rest) (MState prev pos []) probe
                  (fun a b => re_match FROM_VAL a b (fun _ s => Some s))
                  (fun a b => from_val_needs_digit a b _)) as P.
    destruct (re_match BEFORE_VAL (c :: rest) (MState prev pos []) probe) as [x | ].
    + injection Hp as ->. destruct P as (a' & b' & Ha & Hv).
      apply probe_inv in Ha. destruct Ha as [-> ->].
      rewrite (Hv m Hm). reflexivity.
    + rewrite P. eapply IH; eauto.
Qed.

Lemma operator_of_val (v : list ascii) (gs : list (string * list ascii)) :
  operator_of (("val", v) :: gs) = operator_of gs.
Proof. reflexivity. Qed.

Lemma parse_of_search (query : string) (m : mstate) (v : list ascii)
    (x : Float.float) :
  String.eqb query "" = false ->
  search HEIGHT_REGEX query = Some m ->
  group "val" m = Some v ->
  float_of_literal v = Ok x ->
  parse_height_filter query = Ok (Some (mkFilter (operator_of (st_groups m)) x)).
Proof.
  intros Hq Hs Hv Hx. unfold parse_height_filter. rewrite Hq, Hs, Hv.
  cbn [or_empty]. rewrite Hx. reflexivity.
Qed.

Lemma chars_app (a b : string) : chars (a ++ b) = (chars a ++ chars b)%list.
Proof.
  unfold chars. induction a as [ | c a IH]; simpl; [reflexivity | ].
  rewrite IH. reflexivity.
Qed.

Lemma literal_head (v : list ascii) :
  literal v -> exists c v', v = c :: v' /\ is_digit c = true.
Proof.
  intros (ip & Hip & Hv). destruct ip as [ | c ip]; [discriminate | ].
  unfold all_digits in Hip. simpl in Hip. apply andb_true_iff in Hip.
  destruct Hip as [Hc _].
  destruct Hv as [-> | (fp & _ & ->)]; eexists; eexists; split;
    try reflexivity; exact Hc.
Qed.

(** On each phrasing followed by a digit, the probe stops at that digit
    with groups that give the operator of the table. *)
Lemma probe_table (c : ascii) (tail : list ascii) :
  is_digit c = true ->
  Forall (fun po =>
            match probe_search (chars (fst po) ++ c :: tail) None 0 with
            | Some (a, b) => a = c :: tail /\ operator_of (st_groups b) = snd po
            | None => False
            end) PHRASINGS.
Proof.
  intros Hc.
  destruct c as [[] [] [] [] [] [] [] []]; vm_compute in Hc; try discriminate Hc;
    clear Hc; unfold PHRASINGS;
    repeat (constructor; [vm_compute; split; reflexivity | ]); constructor.
Qed.

(** Each phrasing of the table, followed by an unsigned decimal number
    and then by the end of the text or by anything that starts with
    neither a digit nor a dot, parses to the operator of the table and to
    that number. In particular a query that opens with "at least" or
    "at most" is read as an equality, while the same words after "height"
    give [>=] and [<=]. *)
Theorem phrasings_parse (p o : string) (v rest : list ascii) (x : Float.float) :
  In (p, o) PHRASINGS ->
  literal v ->
  ends_number rest = true ->
  float_of_literal v = Ok x ->
  parse_height_filter (p ++ text (v ++ rest)) = Ok (Some (mkFilter o x)).
Proof.
  intros Hin Hlit Hend Hx.
  destruct (literal_head v Hlit) as (c & v' & Hv & Hc).
  pose proof (probe_table c (v' ++ rest) Hc) as T.
  rewrite Forall_forall in T. specialize (T (p, o) Hin). cbn [fst snd] in T.
  destruct (probe_search (chars p ++ c :: v' ++ rest) None 0)
    as [[a b] | ] eqn:Hp; [ | contradiction].
  destruct T as [-> Hop].
  destruct (from_val_literal v rest b Hlit Hend) as (m & Hm & Hg).
  assert (Hs : search HEIGHT_REGEX (p ++ text (v ++ rest)) = Some m).
  { unfold search. rewrite chars_app, chars_text, Hv.
    apply (probe_search_sound _ None 0%nat (c :: v' ++ rest) b m).
    - exact Hp.
    - rewrite Hv in Hm. exact Hm. }
  rewrite (parse_of_search _ m v x).
  - rewrite Hg, operator_of_val, Hop. reflexivity.
  - destruct (String.eqb_spec (p ++ text (v ++ rest)) "") as [E | E];
      [ | reflexivity].
    apply (f_equal chars) in E. rewrite chars_app, chars_text, Hv in E.
    destruct (chars p); discriminate.
  - exact Hs.
  - unfold group. rewrite Hg. reflexivity.
  - exact Hx.
Qed.

Lemma phrasings_parse_witness :
  parse_height_filter
    ("at least " ++ text (["5"; "0"]%char ++ [" "; "m"]%char))
  = Ok (Some (mkFilter "==" (Float.of_Z 50))).
Proof.
  apply (phrasings_parse "at least " "==" ["5"; "0"]%char [" "; "m"]%char
           (Float.of_Z 50)).
  - repeat ((left; reflexivity) || right).
  - exists ["5"; "0"]%char. split; [reflexivity | left; reflexivity].
  - reflexivity.
  - vm_compute. reflexivity.
Defined.

(** ** The features of a response *)



Section Features.

Variable geom : Type.
Variable geojson : Type.
Variable geo_interface : geom -> pyres geojson.
Variable total_bounds : list (option geom) -> list Float.float.
Variable str_to_numeric : string -> Float.float.
Variable empty_array_truth : pyres bool.
Variable float_repr : Float.float -> string.
Variable series_mean : list Float.float -> Float.float.




End Features.

